(** * dashcam: marker store, retention and recording supervisor

    A shallow embedding of the Go sources

      - [internal/attributes/fileattributes.go] (the marker store), and
      - [main.go] (configuration, file naming, the recording supervisor and
        retention cleanup),
      - [internal/hotkey/HyprlandHotkeyManager.go] (the hotkey manager),

    together with the properties of the specification that concern them.

    The operating system is modelled explicitly: the recordings directory is a
    list of directory entries, each carrying what the system calls used by the
    program can observe of it (the [os.Stat] result, the extended attributes,
    whether attribute access or unlinking fails).  The capture subprocess is
    modelled by the observations the supervisor can make of it. *)

From Stdlib Require Import List String Ascii ZArith Lia Bool Arith.
From Stdlib Require Import Permutation Sorted DecimalString.
Import ListNotations.
Local Open Scope string_scope.
Local Open Scope Z_scope.

Set Implicit Arguments.

(** ** Go integers and errors *)

Module Go.

(** The Go type [int] on the 64-bit targets: a value of [Z] in
    [min_int .. max_int]; arithmetic wraps around. *)
Definition max_int : Z := 2 ^ 63 - 1.
Definition min_int : Z := - 2 ^ 63.

Definition wrap (z : Z) : Z := (z + 2 ^ 63) mod 2 ^ 64 - 2 ^ 63.

Definition add (a b : Z) : Z := wrap (a + b).
Definition sub (a b : Z) : Z := wrap (a - b).

(** [a % b] truncates towards zero, as [Z.rem] does. *)
Definition rem (a b : Z) : Z := Z.rem a b.

(** [len(s)] of a slice or a string. *)
Definition len {A} (s : list A) : Z := Z.of_nat (List.length s).

Definition fits (z : Z) : bool := (min_int <=? z) && (z <=? max_int).

End Go.

(** ** System calls *)

Module unix.

(** The error numbers the program distinguishes or can meet. *)
Inductive Errno : Set :=
| ENODATA   (* the named attribute does not exist *)
| ERANGE    (* the value does not fit the buffer *)
| ENOENT    (* no such file *)
| EACCES
| EPERM
| ENOTSUP
| EIO.

Definition Errno_eqb (a b : Errno) : bool :=
  match a, b with
  | ENODATA, ENODATA | ERANGE, ERANGE | ENOENT, ENOENT | EACCES, EACCES
  | EPERM, EPERM | ENOTSUP, ENOTSUP | EIO, EIO => true
  | _, _ => false
  end.

(** A persistent failure of the attribute calls on one file (no permission,
    a file system without extended attributes, an I/O error).  It is kept
    apart from [ENODATA] and [ERANGE], which the calls derive from the
    attribute itself. *)
Inductive Fault : Set := FaultAccess | FaultPerm | FaultNotSup | FaultIO.

Definition errno_of (f : Fault) : Errno :=
  match f with
  | FaultAccess => EACCES
  | FaultPerm => EPERM
  | FaultNotSup => ENOTSUP
  | FaultIO => EIO
  end.

End unix.

(** A Go [error]: [None] is [nil].  The program builds errors by wrapping
    an error number in a message ([fmt.Errorf] with [%w]) or by formatting
    the error of the subprocess into one ([%v]). *)
Inductive GoError : Type :=
| Errorf (msg : string) (cause : unix.Errno)
| Failure (msg : string).

Definition error : Type := option GoError.

(** ** The recordings directory *)

Module os.

(** What [os.Stat] reports of a path. *)
Record FileInfo : Type := mkFileInfo {
  IsRegular : bool;     (* fileInfo.Mode().IsRegular() *)
  ModTime : Z           (* modification time, in nanoseconds *)
}.

(** One entry of the directory, with all the program can observe of it. *)
Record File : Type := mkFile {
  Name : string;                      (* entry.Name() *)
  IsDir : bool;                       (* entry.IsDir() *)
  stat : option FileInfo;             (* os.Stat of the path; None: it fails *)
  xattrs : list (string * string);    (* extended attributes: name, value *)
  read_fault : option unix.Fault;     (* Getxattr fails this way *)
  write_fault : option unix.Fault;    (* Setxattr and Removexattr fail this way *)
  remove_fault : option unix.Fault    (* os.Remove fails this way *)
}.

(** The file system as far as the program sees it: the recordings
    directory [root], whether listing it fails, and its entries in the
    order [os.ReadDir] returns them. *)
Record FS : Type := mkFS {
  root : string;
  list_fault : option unix.Fault;     (* os.ReadDir of [root] fails this way *)
  entries : list File
}.

(** [filepath.Join(dir, name)] for a clean directory path and an entry
    name: the two joined by the separator. *)
Definition Join (dir name : string) : string := dir ++ "/" ++ name.

Definition path_of (fs : FS) (f : File) : string := Join (root fs) (Name f).

Definition at_path (fs : FS) (p : string) (f : File) : bool :=
  String.eqb (path_of fs f) p.

(** Path resolution. *)
Definition lookup (fs : FS) (p : string) : option File :=
  find (at_path fs p) (entries fs).

(** [os.ReadDir(directory)]. *)
Definition ReadDir (fs : FS) (directory : string) : unix.Errno + list File :=
  if String.eqb directory (root fs)
  then match list_fault fs with
       | Some e => inl (unix.errno_of e)
       | None => inr (entries fs)
       end
  else inl unix.ENOENT.

(** [os.Stat(path)]: [None] stands for an error. *)
Definition Stat (fs : FS) (p : string) : option FileInfo :=
  match lookup fs p with
  | Some f => stat f
  | None => None
  end.

(** [os.Remove(path)]: unlinks the entry unless that fails. *)
Definition Remove (fs : FS) (p : string) : FS * option unix.Errno :=
  match lookup fs p with
  | None => (fs, Some unix.ENOENT)
  | Some f =>
      match remove_fault f with
      | Some e => (fs, Some (unix.errno_of e))
      | None =>
          (mkFS (root fs) (list_fault fs)
                (filter (fun g => negb (at_path fs p g)) (entries fs)),
           None)
      end
  end.

Definition with_xattrs (g : File) (xs : list (string * string)) : File :=
  mkFile (Name g) (IsDir g) (stat g) xs
         (read_fault g) (write_fault g) (remove_fault g).

(** Replace the attributes of the entry at [p]. *)
Definition set_xattrs (fs : FS) (p : string) (xs : list (string * string)) : FS :=
  mkFS (root fs) (list_fault fs)
       (map (fun g => if at_path fs p g then with_xattrs g xs else g)
            (entries fs)).

(** No two entries of a directory have the same name. *)
Fixpoint distinct (l : list string) : bool :=
  match l with
  | [] => true
  | x :: t => negb (existsb (String.eqb x) t) && distinct t
  end.

Definition wf (fs : FS) : bool := distinct (map Name (entries fs)).

End os.

(** ** Extended attributes *)

(** The three system calls on the extended attributes of a path.  A path
    that does not resolve gives [ENOENT]; a fault of the file (permissions,
    no support for attributes) is reported before the attribute is looked
    at, as the kernel checks the access first. *)

Module xattr.

Import os.

Fixpoint get (xs : list (string * string)) (attr : string) : option string :=
  match xs with
  | [] => None
  | (k, v) :: t => if String.eqb k attr then Some v else get t attr
  end.

Definition remove (xs : list (string * string)) (attr : string)
  : list (string * string) :=
  filter (fun kv => negb (String.eqb (fst kv) attr)) xs.

Definition set (xs : list (string * string)) (attr value : string)
  : list (string * string) :=
  (attr, value) :: remove xs attr.

(** [unix.Getxattr(path, attr, dest)] with [len(dest) = size], a positive
    size: the value and its length, or an error number.  A value longer
    than the buffer is refused with [ERANGE]. *)
Definition Getxattr (fs : FS) (p attr : string) (size : Z)
  : unix.Errno + (Z * string) :=
  match lookup fs p with
  | None => inl unix.ENOENT
  | Some f =>
      match read_fault f with
      | Some e => inl (unix.errno_of e)
      | None =>
          match get (xattrs f) attr with
          | None => inl unix.ENODATA
          | Some v =>
              let sz := Z.of_nat (String.length v) in
              if sz <=? size then inr (sz, v) else inl unix.ERANGE
          end
      end
  end.

(** [unix.Setxattr(path, attr, data, 0)]. *)
Definition Setxattr (fs : FS) (p attr value : string)
  : FS * option unix.Errno :=
  match lookup fs p with
  | None => (fs, Some unix.ENOENT)
  | Some f =>
      match write_fault f with
      | Some e => (fs, Some (unix.errno_of e))
      | None => (set_xattrs fs p (set (xattrs f) attr value), None)
      end
  end.

(** [unix.Removexattr(path, attr)]. *)
Definition Removexattr (fs : FS) (p attr : string)
  : FS * option unix.Errno :=
  match lookup fs p with
  | None => (fs, Some unix.ENOENT)
  | Some f =>
      match write_fault f with
      | Some e => (fs, Some (unix.errno_of e))
      | None =>
          match get (xattrs f) attr with
          | None => (fs, Some unix.ENODATA)
          | Some _ => (set_xattrs fs p (remove (xattrs f) attr), None)
          end
      end
  end.

End xattr.

(** ** Package [attributes] (fileattributes.go) *)

(** The file holds the package twice.  The functions below follow the first
    text (lines 1 to 106), the later one: the second text differs from it in
    that [SetMarker] also logs and [HasMarker] first reads the attribute into
    a buffer of one byte, a read the first text has commented out.  Every
    function takes the file system as an argument and returns it when it
    changes it.  Log lines are left out. *)

Module attributes.

Import os.

(** [SetMarker] (lines 12 to 21). *)
Definition SetMarker (fs : FS) (filePath attrName attrValue : string)
  : FS * error :=
  let fullAttrName := "user." ++ attrName in
  match xattr.Setxattr fs filePath fullAttrName attrValue with
  | (fs', Some err) => (fs', Some (Errorf "failed to set xattr" err))
  | (fs', None) => (fs', None)
  end.

(** [GetMarker] (lines 23 to 34): [string(data[:sz])] is the value read. *)
Definition GetMarker (fs : FS) (filePath attrName : string)
  : string * error :=
  let fullAttrName := "user." ++ attrName in
  match xattr.Getxattr fs filePath fullAttrName 256 with
  | inl err =>
      if unix.Errno_eqb err unix.ENODATA
      then ("", None)
      else ("", Some (Errorf "failed to get xattr" err))
  | inr (sz, data) => (data, None)
  end.

(** [RemoveMarker] (lines 36 to 47). *)
Definition RemoveMarker (fs : FS) (filePath attrName : string)
  : FS * error :=
  let fullAttrName := "user." ++ attrName in
  match xattr.Removexattr fs filePath fullAttrName with
  | (fs', Some err) =>
      if unix.Errno_eqb err unix.ENODATA
      then (fs', None)
      else (fs', Some (Errorf "failed to remove xattr" err))
  | (fs', None) => (fs', None)
  end.

(** [HasMarker] (lines 49 to 70): [sz > 0] on a successful read into a
    buffer of 256 bytes. *)
Definition HasMarker (fs : FS) (filePath attrName : string)
  : bool * error :=
  let fullAttrName := "user." ++ attrName in
  match xattr.Getxattr fs filePath fullAttrName 256 with
  | inl err =>
      if unix.Errno_eqb err unix.ENODATA
      then (false, None)
      else (false, Some (Errorf "failed to get xattr value" err))
  | inr (sz, _) => (0 <? sz, None)
  end.

(** The loop of [GetFilesWithMarker] over the directory entries (lines 80
    to 104), with the slice [markedFiles] it appends to. *)
Fixpoint scan (fs : FS) (directory attrName : string)
         (entries : list File) (markedFiles : list string) : list string :=
  match entries with
  | [] => markedFiles
  | entry :: rest =>
      if IsDir entry then scan fs directory attrName rest markedFiles
      else
        let filePath := Join directory (Name entry) in
        match Stat fs filePath with
        | None => scan fs directory attrName rest markedFiles
        | Some fileInfo =>
            if negb (IsRegular fileInfo)
            then scan fs directory attrName rest markedFiles
            else
              match HasMarker fs filePath attrName with
              | (_, Some _) => scan fs directory attrName rest markedFiles
              | (hasAttr, None) =>
                  if hasAttr
                  then scan fs directory attrName rest
                            (markedFiles ++ [filePath])
                  else scan fs directory attrName rest markedFiles
              end
        end
  end.

(** [GetFilesWithMarker] (lines 72 to 106).  A [nil] slice is the empty
    list. *)
Definition GetFilesWithMarker (fs : FS) (directory attrName : string)
  : list string * error :=
  let markedFiles := [] in
  match ReadDir fs directory with
  | inl err => ([], Some (Errorf "failed to read directory" err))
  | inr entries => (scan fs directory attrName entries markedFiles, None)
  end.

End attributes.

(** ** Package [time]: formatting with a layout *)

Module time.

(** The wall clock reading [time.Now()] as [Format] consumes it. *)
Record Time : Type := mkTime {
  Year : Z;
  Month : Z;      (* 1 .. 12 *)
  Day : Z;        (* 1 .. 31 *)
  Hour : Z;       (* 0 .. 23 *)
  Minute : Z;     (* 0 .. 59 *)
  Second : Z      (* 0 .. 59 *)
}.

(** Days since 1970-01-01 of a date of the proleptic Gregorian calendar. *)
Definition days_from_civil (y m d : Z) : Z :=
  let y' := if m <=? 2 then y - 1 else y in
  let era := y' / 400 in
  let yoe := y' - era * 400 in
  let mp := if m <=? 2 then m + 9 else m - 3 in
  let doy := (153 * mp + 2) / 5 + d - 1 in
  let doe := yoe * 365 + yoe / 4 - yoe / 100 + doy in
  era * 146097 + doe - 719468.

(** [t.Unix()], taking the reading as UTC: the whole second it lies in. *)
Definition Unix (t : Time) : Z :=
  days_from_civil (Year t) (Month t) (Day t) * 86400
  + Hour t * 3600 + Minute t * 60 + Second t.

Definition YearDay (t : Time) : Z :=
  days_from_civil (Year t) (Month t) (Day t)
  - days_from_civil (Year t) 1 1 + 1.

Definition is_leap (y : Z) : bool :=
  ((y mod 4 =? 0) && negb (y mod 100 =? 0)) || (y mod 400 =? 0).

Definition days_in (y m : Z) : Z :=
  if m =? 2 then (if is_leap y then 29 else 28)
  else if (m =? 4) || (m =? 6) || (m =? 9) || (m =? 11) then 30 else 31.

(** The readings a clock can show. *)
Definition valid (t : Time) : bool :=
  (1 <=? Month t) && (Month t <=? 12)
  && (1 <=? Day t) && (Day t <=? days_in (Year t) (Month t))
  && (0 <=? Hour t) && (Hour t <=? 23)
  && (0 <=? Minute t) && (Minute t <=? 59)
  && (0 <=? Second t) && (Second t <=? 59).

(** The elements of a layout that are made of digits and underscores.
    The names of months and weekdays, the zone, the fraction of a second
    and AM/PM are left out: the layout of the program has none of them,
    and any other character of a layout stands for itself. *)
Inductive Std : Set :=
| stdLongYear        (* "2006" *)
| stdYear            (* "06" *)
| stdNumMonth        (* "1" *)
| stdZeroMonth       (* "01" *)
| stdDay             (* "2" *)
| stdUnderDay        (* "_2" *)
| stdZeroDay         (* "02" *)
| stdUnderYearDay    (* "__2" *)
| stdZeroYearDay     (* "002" *)
| stdHour            (* "15" *)
| stdHour12          (* "3" *)
| stdZeroHour12      (* "03" *)
| stdMinute          (* "4" *)
| stdZeroMinute      (* "04" *)
| stdSecond          (* "5" *)
| stdZeroSecond.     (* "05" *)

Inductive Chunk : Set :=
| Literal (c : ascii)
| Verb (s : Std).

Definition char_is (c : ascii) (s : string) : bool := String.eqb (String c "") s.

(** The table [std0x]: the element "0d" for a digit d of 1 .. 6. *)
Definition std0x (d : ascii) : option Std :=
  if char_is d "1" then Some stdZeroMonth
  else if char_is d "2" then Some stdZeroDay
  else if char_is d "3" then Some stdZeroHour12
  else if char_is d "4" then Some stdZeroMinute
  else if char_is d "5" then Some stdZeroSecond
  else if char_is d "6" then Some stdYear
  else None.

(** One step of [nextStdChunk]: the element that starts with the
    character [c], followed in the layout by [rest], and the number of
    characters of [rest] it takes up. *)
Definition nextStdChunk (c : ascii) (rest : string) : Chunk * nat :=
  if char_is c "0" then
    match rest with
    | String d _ =>
        match std0x d with
        | Some s => (Verb s, 1%nat)
        | None =>
            if String.prefix "02" rest then (Verb stdZeroYearDay, 2%nat)
            else (Literal c, 0%nat)
        end
    | EmptyString => (Literal c, 0%nat)
    end
  else if char_is c "1" then
    if String.prefix "5" rest then (Verb stdHour, 1%nat)
    else (Verb stdNumMonth, 0%nat)
  else if char_is c "2" then
    if String.prefix "006" rest then (Verb stdLongYear, 3%nat)
    else (Verb stdDay, 0%nat)
  else if char_is c "_" then
    if String.prefix "2" rest then
      if String.prefix "2006" rest then (Literal c, 0%nat)
      else (Verb stdUnderDay, 1%nat)
    else if String.prefix "_2" rest then (Verb stdUnderYearDay, 2%nat)
    else (Literal c, 0%nat)
  else if char_is c "3" then (Verb stdHour12, 0%nat)
  else if char_is c "4" then (Verb stdMinute, 0%nat)
  else if char_is c "5" then (Verb stdSecond, 0%nat)
  else (Literal c, 0%nat).

(** The layout read from left to right; [skip] counts the characters the
    previous element still takes up. *)
Fixpoint chunks (layout : string) (skip : nat) : list Chunk :=
  match layout with
  | EmptyString => []
  | String c rest =>
      match skip with
      | S k => chunks rest k
      | O => let '(ch, n) := nextStdChunk c rest in ch :: chunks rest n
      end
  end.

Fixpoint zeros (n : nat) : string :=
  match n with
  | O => ""
  | S k => "0" ++ zeros k
  end.

Definition digits (x : Z) : string :=
  NilZero.string_of_uint (N.to_uint (Z.to_N x)).

(** [appendInt]: the decimal digits of [x], filled with zeros on the
    left up to [width]. *)
Definition appendInt (x : Z) (width : nat) : string :=
  let u := digits (Z.abs x) in
  (if x <? 0 then "-" else "") ++ zeros (width - String.length u) ++ u.

Definition hour12 (t : Time) : Z :=
  let hr := Hour t mod 12 in
  if hr =? 0 then 12 else hr.

Definition render (t : Time) (c : Chunk) : string :=
  match c with
  | Literal c => String c ""
  | Verb stdLongYear => appendInt (Year t) 4
  | Verb stdYear => appendInt (Z.abs (Year t) mod 100) 2
  | Verb stdNumMonth => appendInt (Month t) 0
  | Verb stdZeroMonth => appendInt (Month t) 2
  | Verb stdDay => appendInt (Day t) 0
  | Verb stdUnderDay =>
      (if Day t <? 10 then " " else "") ++ appendInt (Day t) 0
  | Verb stdZeroDay => appendInt (Day t) 2
  | Verb stdUnderYearDay =>
      (if YearDay t <? 100 then " " else "")
      ++ (if YearDay t <? 10 then " " else "") ++ appendInt (YearDay t) 0
  | Verb stdZeroYearDay => appendInt (YearDay t) 3
  | Verb stdHour => appendInt (Hour t) 2
  | Verb stdHour12 => appendInt (hour12 t) 0
  | Verb stdZeroHour12 => appendInt (hour12 t) 2
  | Verb stdMinute => appendInt (Minute t) 0
  | Verb stdZeroMinute => appendInt (Minute t) 2
  | Verb stdSecond => appendInt (Second t) 0
  | Verb stdZeroSecond => appendInt (Second t) 2
  end.

(** [t.Format(layout)]. *)
Definition Format (t : Time) (layout : string) : string :=
  String.concat "" (map (render t) (chunks layout 0)).

End time.

(** ** The capture subprocess, as the supervisor observes it *)

Module exec.

(** What [cmd.Wait()] returns: [nil] or an error. *)
Inductive WaitResult : Set := ExitZero | ExitError.

(** The outer [select]: the deadline timer fires, or a value arrives on
    [done]. *)
Inductive Race : Set :=
| TimerFirst
| DoneFirst (w : WaitResult).

(** The inner [select]: a value arrives on [done], or the five seconds of
    [time.After] pass. *)
Inductive Grace : Set :=
| DoneInGrace (w : WaitResult)
| GraceElapsed.

(** One run of the subprocess. *)
Record Process : Type := mkProcess {
  start_error : bool;             (* cmd.Start() fails *)
  race : Race;
  signal_error : bool;            (* cmd.Process.Signal fails *)
  grace : Grace;
  reaped : option WaitResult      (* after the kill, the value that arrives
                                     on [done]; None: none ever does *)
}.

Inductive Signal : Set := SIGINT | SIGKILL.

(** What the supervisor does to the subprocess and what it observes of it,
    in order. *)
Inductive Action : Type :=
| Spawn (args : list string)      (* cmd.Start() *)
| NewTimer (seconds : Z)          (* time.NewTimer *)
| TimerFired                      (* <-timer.C *)
| Send (s : Signal)               (* cmd.Process.Signal, cmd.Process.Kill *)
| Await (bound : option Z)        (* wait for [done], at most [bound] seconds *)
| BoundElapsed                    (* <-time.After *)
| Exited (w : WaitResult).        (* <-done *)

(** A call returns a value or never returns. *)
Inductive Outcome (A : Type) : Type :=
| Returned (a : A)
| Blocked.

Arguments Blocked {A}.

End exec.

(** ** Package [path/filepath]: [Clean] and [Join] *)

Module filepath.

(** The elements of a path between its slashes. *)
Fixpoint split (s : string) (element : string) : list string :=
  match s with
  | EmptyString => [element]
  | String c t =>
      if Ascii.eqb c "/" then element :: split t EmptyString
      else split t (element ++ String c EmptyString)
  end.

(** The elements that are kept, last first: an empty element and [.] are
    dropped; [..] takes back the element before it, is dropped at the root,
    and is kept otherwise. *)
Fixpoint kept (rooted : bool) (elements : list string) (stack : list string)
  : list string :=
  match elements with
  | [] => stack
  | e :: rest =>
      if String.eqb e "" || String.eqb e "." then kept rooted rest stack
      else if String.eqb e ".." then
        match stack with
        | top :: below =>
            if String.eqb top ".." then kept rooted rest (e :: stack)
            else kept rooted rest below
        | [] => if rooted then kept rooted rest [] else kept rooted rest [e]
        end
      else kept rooted rest (e :: stack)
  end.

(** [filepath.Clean]. *)
Definition Clean (path : string) : string :=
  let rooted := String.prefix "/" path in
  let body := String.concat "/" (rev (kept rooted (split path "") [])) in
  let out := ((if rooted then "/" else "") ++ body)%string in
  if String.eqb out "" then "." else out.

(** [filepath.Join] of two elements. *)
Definition Join (a b : string) : string :=
  if negb (String.eqb a "") then Clean (a ++ "/" ++ b)
  else if negb (String.eqb b "") then Clean b
  else "".

End filepath.

(** ** Package [main] (main.go) *)

Module main.

Import os exec.

Record Config : Type := mkConfig {
  RecordingsDir : string;
  MaxFiles : Z;
  RecordingLength : Z;
  Extension : string;
  Codec : string;
  RecordAudio : bool
}.

Definition attributeMarkerName : string := "dashcam".
Definition attributeMarkerDefaultValue : string := "standard_recording".

Record ScreenRecorder : Type := mkScreenRecorder {
  config : Config
}.

Definition NewScreenRecorder (config : Config) : ScreenRecorder :=
  mkScreenRecorder config.

(** [generateFilename] (lines 119 to 122), with the reading of the clock
    [time.Now()] as an argument. *)
Definition generateFilename (sr : ScreenRecorder) (now : time.Time) : string :=
  let timestamp := time.Format now "2025-01-02_15-35-05" in
  filepath.Join (RecordingsDir (config sr))
                (timestamp ++ Extension (config sr)).

(** [cmd.Args] at the time of [cmd.Start()] (lines 133 to 143):
    [exec.CommandContext] puts the name of the program first. *)
Definition command_args (sr : ScreenRecorder) (filename : string)
  : list string :=
  let args := ["wf-recorder"; "-f"; filename] in
  let args :=
    if negb (String.eqb (Codec (config sr)) "")
    then (args ++ ["-c"; Codec (config sr)])%list else args in
  let args :=
    if negb (RecordAudio (config sr))
    then (args ++ ["-a"])%list else args in
  args.

(** [recordScreen] (lines 125 to 192) on a run [p] of the subprocess: what
    it does to the subprocess and observes of it, and its result. *)
Definition recordScreen (sr : ScreenRecorder) (filename : string)
           (duration : Z) (p : Process)
  : list Action * Outcome error :=
  let start := [Spawn (command_args sr filename)] in
  if start_error p
  then (start, Returned (Some (Failure "failed to start wf-recorder")))
  else
    let running := (start ++ [NewTimer duration])%list in
    match race p with
    | TimerFirst =>
        let stopping :=
          (running ++ [TimerFired; Send SIGINT]
           ++ (if signal_error p then [Send SIGKILL] else [])
           ++ [Await (Some 5)])%list in
        match grace p with
        | DoneInGrace w => ((stopping ++ [Exited w])%list, Returned None)
        | GraceElapsed =>
            let killing :=
              (stopping ++ [BoundElapsed; Send SIGKILL; Await None])%list in
            match reaped p with
            | Some w => ((killing ++ [Exited w])%list, Returned None)
            | None => (killing, Blocked)
            end
        end
    | DoneFirst ExitError =>
        ((running ++ [Exited ExitError])%list,
         Returned (Some (Failure "wf-recorder failed")))
    | DoneFirst ExitZero =>
        ((running ++ [Exited ExitZero])%list, Returned None)
    end.

(** The comparison handed to [sort.Slice] (lines 208 to 215), on the paths
    at the two indices. *)
Definition less (fs : FS) (a b : string) : bool :=
  match Stat fs a, Stat fs b with
  | Some info1, Some info2 => ModTime info1 <? ModTime info2
  | _, _ => false
  end.

(** [sort.Slice], as a stable insertion sort.  The library does not
    promise stability; on elements compared by distinct keys every sorting
    method returns the list this one returns (lemma [sort_Slice_unique]
    below). *)
Fixpoint insert {A} (lt : A -> A -> bool) (x : A) (l : list A) : list A :=
  match l with
  | [] => [x]
  | y :: t => if lt y x then y :: insert lt x t else x :: y :: t
  end.

Definition sort_Slice {A} (l : list A) (lt : A -> A -> bool) : list A :=
  fold_right (insert lt) [] l.

(** How a function ends: it returns, or an index is out of range. *)
Inductive Completion : Type :=
| Return (err : error)
| Panic.

(** A call of [os.Remove] and its result. *)
Definition Removal : Type := (string * option unix.Errno)%type.

(** The loop [for i := 0; i < filesToRemove; i++] (lines 219 to 224), with
    [n] rounds left; [files[i]] out of range panics. *)
Fixpoint remove_excess (files : list string) (i n : nat) (fs : FS)
         (calls : list Removal) : FS * list Removal * Completion :=
  match n with
  | O => (fs, calls, Return None)
  | S n' =>
      match nth_error files i with
      | None => (fs, calls, Panic)
      | Some f =>
          let '(fs', err) := Remove fs f in
          remove_excess files (S i) n' fs' (calls ++ [(f, err)])%list
      end
  end.

(** [cleanupOldFiles] (lines 195 to 227): the file system it leaves, its
    calls of [os.Remove], and how it ends. *)
Definition cleanupOldFiles (sr : ScreenRecorder) (fs : FS)
  : FS * list Removal * Completion :=
  match attributes.GetFilesWithMarker fs (RecordingsDir (config sr))
                                      attributeMarkerName with
  | (_, Some err) => (fs, [], Return (Some err))
  | (files, None) =>
      if Go.len files <=? MaxFiles (config sr)
      then (fs, [], Return None)
      else
        let files := sort_Slice files (less fs) in
        let filesToRemove := Go.sub (Go.len files) (MaxFiles (config sr)) in
        remove_excess files 0 (Z.to_nat filesToRemove) fs []
  end.

(** One round of the loop of [Start], as the environment determines it:
    whether a value waits on [stopChan], the reading of the clock, the run
    of the subprocess, and what happens to the directory while the
    recording lasts (the recorder writes its file there). *)
Record Round : Type := mkRound {
  stop : bool;
  now : time.Time;
  proc : Process;
  world : FS -> FS
}.

(** What a round of the loop did. *)
Inductive Pass : Type :=
| Stopped (loopcounter : Z)
| Failed (loopcounter : Z) (filename : string) (acts : list Action)
         (err : GoError)
| Hung (loopcounter : Z) (filename : string) (acts : list Action)
| Finalized (loopcounter : Z) (filename : string) (acts : list Action)
            (mark : error)
            (cleanup : option (list Removal * Completion)).

(** The loop of [Start] (lines 254 to 295) on the rounds [rounds]; it ends
    with the rounds, when it is stopped, when a recording never returns or
    when the cleanup panics.  After a failed recording it sleeps two seconds
    and goes on with the next round. *)
Fixpoint loop (sr : ScreenRecorder) (rounds : list Round)
         (loopcounter : Z) (fs : FS) : list Pass * FS :=
  match rounds with
  | [] => ([], fs)
  | r :: rest =>
      let loopcounter := Go.add loopcounter 1 in
      if stop r then ([Stopped loopcounter], fs)
      else
        let filename := generateFilename sr (now r) in
        match recordScreen sr filename (RecordingLength (config sr))
                           (proc r) with
        | (acts, Blocked) => ([Hung loopcounter filename acts], world r fs)
        | (acts, Returned (Some err)) =>
            let '(passes, fs') := loop sr rest loopcounter (world r fs) in
            (Failed loopcounter filename acts err :: passes, fs')
        | (acts, Returned None) =>
            let '(fs1, mark) :=
              attributes.SetMarker (world r fs) filename attributeMarkerName
                                   attributeMarkerDefaultValue in
            if Go.rem loopcounter 10 =? 0
            then
              let '(fs2, calls, c) := cleanupOldFiles sr fs1 in
              match c with
              | Panic =>
                  ([Finalized loopcounter filename acts mark
                              (Some (calls, c))], fs2)
              | Return _ =>
                  let '(passes, fs') := loop sr rest loopcounter fs2 in
                  (Finalized loopcounter filename acts mark
                             (Some (calls, c)) :: passes, fs')
              end
            else
              let '(passes, fs') := loop sr rest loopcounter fs1 in
              (Finalized loopcounter filename acts mark None :: passes, fs')
        end
  end.

(** [Start] after the directory has been made: the loop with
    [loopcounter := 0]. *)
Definition Start (sr : ScreenRecorder) (rounds : list Round) (fs : FS)
  : list Pass * FS :=
  loop sr rounds 0 fs.

End main.

(** ** Vocabulary of the specification *)

Module Spec.

Import os.

(** The value of the attribute [attr] of the entry [f] as a read into a
    buffer of 256 bytes obtains it. *)
Definition readable_value (f : File) (attr : string) : option string :=
  match read_fault f with
  | Some _ => None
  | None =>
      match xattr.get (xattrs f) attr with
      | Some v => if Z.of_nat (String.length v) <=? 256 then Some v else None
      | None => None
      end
  end.

(** The entry carries the marker [name]: the attribute is read and its
    value is not empty. *)
Definition carries (name : string) (f : File) : bool :=
  match readable_value f ("user." ++ name) with
  | Some v => negb (String.eqb v "")
  | None => false
  end.

(** The entry is a marked file: a regular file (no directory, [os.Stat]
    succeeds) that carries the marker. *)
Definition tracked (name : string) (f : File) : bool :=
  negb (IsDir f)
  && match stat f with Some info => IsRegular info | None => false end
  && carries name f.

(** The same read off the path, as the scan does. *)
Definition marked_at (fs : FS) (name p : string) : bool :=
  match Stat fs p with
  | Some info =>
      IsRegular info
      && match attributes.HasMarker fs p name with
         | (true, None) => true
         | _ => false
         end
  | None => false
  end.

(** The modification time [os.Stat] reports of a path (0 when it fails). *)
Definition modtime (fs : FS) (p : string) : Z :=
  match Stat fs p with
  | Some info => ModTime info
  | None => 0
  end.


(** The path is one of [paths]. *)
Definition mem (p : string) (paths : list string) : bool :=
  existsb (String.eqb p) paths.

(** The file system without the entries at the paths [paths]. *)
Definition minus (fs : FS) (paths : list string) : FS :=
  mkFS (root fs) (list_fault fs)
       (filter (fun g => negb (mem (path_of fs g) paths)) (entries fs)).

(** The modification times are distinct. *)
Fixpoint distinct_times (l : list Z) : bool :=
  match l with
  | [] => true
  | x :: t => negb (existsb (Z.eqb x) t) && distinct_times t
  end.

(** Every call of [os.Remove] succeeded. *)
Definition succeeded (calls : list main.Removal) : bool :=
  forallb (fun call => match snd call with None => true | Some _ => false end)
          calls.

(** The entry does not carry the attribute [user.<name>] with a non-empty
    value: the attribute is absent, or its value is empty. *)
Definition unmarked (name : string) (f : File) : bool :=
  match xattr.get (xattrs f) ("user." ++ name) with
  | None => true
  | Some v => String.eqb v ""
  end.

(** Whether the subprocess is live after the actions [acts]: it is from
    the moment it is spawned until its exit is observed. *)
Fixpoint alive_from (live : bool) (acts : list exec.Action) : bool :=
  match acts with
  | [] => live
  | exec.Spawn _ :: t => alive_from true t
  | exec.Exited _ :: t => alive_from false t
  | _ :: t => alive_from live t
  end.

Definition alive (acts : list exec.Action) : bool := alive_from false acts.

(** The value of [loopcounter] in a pass of the loop. *)
Definition counter (pass : main.Pass) : Z :=
  match pass with
  | main.Stopped c => c
  | main.Failed c _ _ _ => c
  | main.Hung c _ _ => c
  | main.Finalized c _ _ _ _ => c
  end.

(** The pass went through the whole cycle, up to the marking of the file. *)
Definition completed (pass : main.Pass) : bool :=
  match pass with
  | main.Finalized _ _ _ _ _ => true
  | _ => false
  end.

(** The retention cleanup ran in the pass. *)
Definition cleaned (pass : main.Pass) : bool :=
  match pass with
  | main.Finalized _ _ _ _ (Some _) => true
  | _ => false
  end.

(** The recording of the pass failed. *)
Definition failed (pass : main.Pass) : bool :=
  match pass with
  | main.Failed _ _ _ _ => true
  | _ => false
  end.

End Spec.

(** ** Sample directories *)

Module Sample.

Import os.

Definition dir : string := "/home/user/recordings".

(** A regular file with the modification time [mtime] and the attributes
    [xs], on which every call succeeds. *)
Definition regular (name : string) (mtime : Z) (xs : list (string * string))
  : File :=
  mkFile name false (Some (mkFileInfo true mtime)) xs None None None.

Definition recording (name : string) (mtime : Z) : File :=
  regular name mtime [("user.dashcam", "standard_recording")].

(** A value of 257 bytes. *)
Definition long_value : string :=
  string_of_list_ascii (repeat "r"%char 257).

(** A file marked with a value of 257 bytes. *)
Definition fs_long : FS :=
  mkFS dir None [regular "a.mkv" 10 [("user.dashcam", long_value)]].

(** A file without attributes whose attributes may not be changed. *)
Definition fs_locked : FS :=
  mkFS dir None
       [mkFile "a.mkv" false (Some (mkFileInfo true 10)) []
               None (Some unix.FaultPerm) None].

(** A recording, a file marked with the empty value, a file without
    attributes, a directory, a file [os.Stat] fails on, a marked file whose
    attributes cannot be read, and a second recording. *)
Definition fs_mixed : FS :=
  mkFS dir None
       [recording "a.mkv" 10;
        regular "b.mkv" 20 [("user.dashcam", "")];
        regular "notes.txt" 5 [];
        mkFile "old" true (Some (mkFileInfo false 1)) [] None None None;
        mkFile "gone.mkv" false None [("user.dashcam", "standard_recording")]
               None None None;
        mkFile "c.mkv" false (Some (mkFileInfo true 30))
               [("user.dashcam", "standard_recording")]
               (Some unix.FaultAccess) None None;
        recording "d.mkv" 40].


(** Three recordings, the oldest of which cannot be unlinked. *)
Definition fs_busy : FS :=
  mkFS dir None
       [mkFile "a.mkv" false (Some (mkFileInfo true 10))
               [("user.dashcam", "standard_recording")]
               None None (Some unix.FaultPerm);
        recording "b.mkv" 20;
        recording "c.mkv" 30].

(** Three recordings and two files that are not marked, one older and one
    newer than the recordings. *)
Definition fs_three : FS :=
  mkFS dir None
       [regular "notes.txt" 1 [];
        recording "b.mkv" 20;
        recording "a.mkv" 10;
        regular "partial.mkv" 40 [("user.dashcam", "")];
        recording "c.mkv" 30].

Definition cfg : main.Config :=
  main.mkConfig dir 2 60 ".mkv" "libx265" false.

Definition sr : main.ScreenRecorder := main.NewScreenRecorder cfg.

(** The same with [max_files] 1. *)
Definition sr_one : main.ScreenRecorder :=
  main.NewScreenRecorder (main.mkConfig dir 1 60 ".mkv" "libx265" false).

(** A subprocess that runs until the deadline and exits, with an error
    status, within the grace window. *)
Definition stops_late : exec.Process :=
  exec.mkProcess false exec.TimerFirst false
                 (exec.DoneInGrace exec.ExitError) None.

(** A subprocess that ignores the interrupt and dies when killed. *)
Definition stubborn : exec.Process :=
  exec.mkProcess false exec.TimerFirst false exec.GraceElapsed
                 (Some exec.ExitError).

(** A subprocess that exits with an error before the deadline. *)
Definition crashes : exec.Process :=
  exec.mkProcess false (exec.DoneFirst exec.ExitError) false
                 exec.GraceElapsed None.


(** The reading of the clock on 7 March 2024 at 14 hours and the given
    minute and second. *)
Definition clock (minute second : Z) : time.Time :=
  time.mkTime 2024 3 7 14 minute second.

(** The recorder leaves a file in the directory, under the name
    [generateFilename] gave it. *)
Definition writes (now : time.Time) (mtime : Z) (fs : FS) : FS :=
  mkFS (root fs) (list_fault fs)
       (entries fs
        ++ [regular (time.Format now "2025-01-02_15-35-05" ++ ".mkv") mtime []]).

(** A round whose recording is stopped at the deadline. *)
Definition good_round (minute second : Z) : main.Round :=
  main.mkRound false (clock minute second) stops_late
               (writes (clock minute second) (minute * 60 + second)).

(** A round whose recording fails before the deadline. *)
Definition bad_round (minute second : Z) : main.Round :=
  main.mkRound false (clock minute second) crashes (fun fs => fs).

Definition empty_dir : FS := mkFS dir None [].

(** A round whose recording fails before the deadline, after the recorder
    has left a file. *)
Definition crashed_round (minute second : Z) : main.Round :=
  main.mkRound false (clock minute second) crashes
               (writes (clock minute second) (minute * 60 + second)).

(** Nine good rounds, a minute and a second apart. *)
Definition nine_good : list main.Round :=
  map (fun k => good_round k (k + 2)) [1; 2; 3; 4; 5; 6; 7; 8; 9].

(** A failed round followed by nine good ones. *)
Definition rounds_one_failure : list main.Round :=
  bad_round 0 1 :: nine_good.

End Sample.

(** ** The second text of [HasMarker] *)

(** [HasMarker] as the second text of fileattributes.go has it (lines 161
    to 182): the attribute is first read into a buffer of one byte, then
    into one of 256 bytes. *)

Module attributes_second.

Import os.

Definition HasMarker (fs : FS) (filePath attrName : string)
  : bool * error :=
  let fullAttrName := "user." ++ attrName in
  let data := 1 in
  match xattr.Getxattr fs filePath fullAttrName data with
  | inl err =>
      if unix.Errno_eqb err unix.ENODATA
      then (false, None)
      else (false, Some (Errorf "failed to get xattr" err))
  | inr _ =>
      match xattr.Getxattr fs filePath fullAttrName 256 with
      | inl err =>
          if unix.Errno_eqb err unix.ENODATA
          then (false, None)
          else (false, Some (Errorf "failed to get xattr value" err))
      | inr (sz, _) => (0 <? sz, None)
      end
  end.

End attributes_second.

(** ** The configuration file (main.go, lines 30 to 101) *)

Module config.

Import main.

(** A file of the host: it holds data, or it exists and cannot be read. *)
Inductive Slot : Type :=
| Content (data : string)
| NoAccess.

(** The host as far as the configuration sees it: what [os.UserHomeDir]
    returns ([None]: an error), the files by path, and whether writing a
    file fails. *)
Record Host : Type := mkHost {
  Home : option string;
  files : list (string * Slot);
  write_fails : bool
}.

Fixpoint find_file (fs : list (string * Slot)) (path : string) : option Slot :=
  match fs with
  | [] => None
  | (p, slot) :: t => if String.eqb p path then Some slot else find_file t path
  end.

(** [os.ReadFile]: [None] stands for an error. *)
Definition ReadFile (h : Host) (path : string) : option string :=
  match find_file (files h) path with
  | Some (Content data) => Some data
  | _ => None
  end.

(** [os.WriteFile(path, data, 0644)]. *)
Definition WriteFile (h : Host) (path data : string) : Host * error :=
  if write_fails h then (h, Some (Failure "write failed"))
  else
    (mkHost (Home h)
            ((path, Content data)
               :: filter (fun e => negb (String.eqb (fst e) path)) (files h))
            (write_fails h),
     None).

Definition configFilename : string := "dashcam.json".

Section Json.

(** [json.MarshalIndent] and [json.Unmarshal] on a [Config]; the latter
    returns [None] for data it refuses. *)
Variable Marshal : Config -> string.
Variable Unmarshal : string -> option Config.

(** [DefaultConfig] (lines 38 to 53). *)
Definition DefaultConfig (h : Host) : Config :=
  let homeDir := match Home h with Some d => d | None => "." end in
  mkConfig (filepath.Join homeDir "recordings") 60 60 ".mkv" "libx265" false.

(** [SaveConfig] (lines 87 to 101). *)
Definition SaveConfig (h : Host) (config : Config) : Host * error :=
  match Home h with
  | None => (h, Some (Failure "home directory"))
  | Some homeDir =>
      let configPath := filepath.Join homeDir configFilename in
      let data := Marshal config in
      WriteFile h configPath data
  end.

(** [LoadConfig] (lines 56 to 84); a failure to save the defaults is only
    logged. *)
Definition LoadConfig (h : Host) : Host * Config * error :=
  match Home h with
  | None => (h, DefaultConfig h, Some (Failure "home directory"))
  | Some homeDir =>
      let configPath := filepath.Join homeDir configFilename in
      match find_file (files h) configPath with
      | None =>
          let config := DefaultConfig h in
          let '(h', _) := SaveConfig h config in
          (h', config, None)
      | Some _ =>
          match ReadFile h configPath with
          | None => (h, DefaultConfig h, Some (Failure "read"))
          | Some data =>
              match Unmarshal data with
              | None => (h, DefaultConfig h, Some (Failure "unmarshal"))
              | Some config => (h, config, None)
              end
          end
      end
  end.

(** The configuration [main] runs with (lines 309 to 314). *)
Definition main_config (h : Host) : Host * Config :=
  let '(h', config, err) := LoadConfig h in
  match err with
  | Some _ => (h', DefaultConfig h')
  | None => (h', config)
  end.

End Json.

(** A codec to run the functions with: the data is the recordings directory,
    and empty data is refused. *)
Definition sample_Marshal (c : Config) : string := RecordingsDir c.

Definition sample_Unmarshal (data : string) : option Config :=
  if String.eqb data "" then None
  else Some (mkConfig data 60 60 ".mkv" "libx265" false).

Definition sample_host : Host :=
  mkHost (Some "/home/user") [("/home/user/notes.txt", Content "n")] false.

Definition sample_saved : Host :=
  mkHost (Some "/home/user")
         [("/home/user/dashcam.json", Content "/srv/rec");
          ("/home/user/notes.txt", Content "n")] false.

Definition sample_locked : Host :=
  mkHost (Some "/home/user") [("/home/user/dashcam.json", NoAccess)] false.

End config.

(** ** Package [strings], on the bytes of a string

    [ToUpper] and [ToLower] are the ones of Go on strings of ASCII bytes;
    [ReplaceAll] and [Split] take the single byte that is searched for. *)

Module strings.

Definition upper (c : ascii) : ascii :=
  let n := nat_of_ascii c in
  if ((97 <=? n) && (n <=? 122))%nat then ascii_of_nat (n - 32) else c.

Definition lower (c : ascii) : ascii :=
  let n := nat_of_ascii c in
  if ((65 <=? n) && (n <=? 90))%nat then ascii_of_nat (n + 32) else c.

Fixpoint ToUpper (s : string) : string :=
  match s with
  | EmptyString => EmptyString
  | String c t => String (upper c) (ToUpper t)
  end.

Fixpoint ToLower (s : string) : string :=
  match s with
  | EmptyString => EmptyString
  | String c t => String (lower c) (ToLower t)
  end.

(** Every byte of [s] is below 128. *)
Fixpoint is_ascii (s : string) : bool :=
  match s with
  | EmptyString => true
  | String c t => (nat_of_ascii c <? 128)%nat && is_ascii t
  end.

(** [strings.ReplaceAll(s, old, new)] for a one-byte [old]. *)
Fixpoint ReplaceAll (s : string) (old : ascii) (new : string) : string :=
  match s with
  | EmptyString => EmptyString
  | String c t =>
      if Ascii.eqb c old then new ++ ReplaceAll t old new
      else String c (ReplaceAll t old new)
  end.

(** [strings.Split(s, sep)] for a one-byte [sep]: the pieces between the
    separators, one more than there are separators. *)
Fixpoint Split (s : string) (sep : ascii) : list string :=
  match s with
  | EmptyString => [EmptyString]
  | String c t =>
      if Ascii.eqb c sep then EmptyString :: Split t sep
      else
        match Split t sep with
        | piece :: rest => String c piece :: rest
        | [] => [String c EmptyString]
        end
  end.

Definition HasPrefix (s prefix : string) : bool := String.prefix prefix s.

Definition Join (elems : list string) (sep : string) : string :=
  String.concat sep elems.

End strings.

(** ** Package [hotkey] (internal/hotkey/HyprlandHotkeyManager.go) *)

Module hotkey.

(** [parseHotkey], the body of the loop (lines 84 to 131): the modifiers and
    the key so far, after one more part. *)
Definition parse_part (st : list string * string) (part : string)
  : list string * string :=
  let '(mods, key) := st in
  if String.eqb part "CTRL" || String.eqb part "CONTROL" then
    ((mods ++ ["CTRL"])%list, key)
  else if String.eqb part "ALT" then ((mods ++ ["ALT"])%list, key)
  else if String.eqb part "SHIFT" then ((mods ++ ["SHIFT"])%list, key)
  else if String.eqb part "SUPER" || String.eqb part "WIN"
          || String.eqb part "WINDOWS" || String.eqb part "CMD" then
    ((mods ++ ["SUPER"])%list, key)
  else if String.eqb part "ENTER" || String.eqb part "RETURN" then
    (mods, "Return")
  else if String.eqb part "SPACE" then (mods, "space")
  else if String.eqb part "TAB" then (mods, "Tab")
  else if String.eqb part "ESC" || String.eqb part "ESCAPE" then
    (mods, "Escape")
  else if String.eqb part "BACKSPACE" then (mods, "BackSpace")
  else if String.eqb part "DELETE" || String.eqb part "DEL" then
    (mods, "Delete")
  else if String.eqb part "HOME" then (mods, "Home")
  else if String.eqb part "END" then (mods, "End")
  else if String.eqb part "PAGEUP" then (mods, "Prior")
  else if String.eqb part "PAGEDOWN" then (mods, "Next")
  else if String.eqb part "UP" then (mods, "Up")
  else if String.eqb part "DOWN" then (mods, "Down")
  else if String.eqb part "LEFT" then (mods, "Left")
  else if String.eqb part "RIGHT" then (mods, "Right")
  else if strings.HasPrefix part "F" && (1 <? String.length part)%nat then
    (mods, part)
  else if (String.length part =? 1)%nat then (mods, strings.ToLower part)
  else (mods, part).

(** [parseHotkey] (lines 77 to 136): the modifier string and the key. *)
Definition parseHotkey (hotkey : string) : string * string :=
  let parts :=
    strings.Split (strings.ToUpper (strings.ReplaceAll hotkey " " "")) "+" in
  let '(mods, key) := fold_left parse_part parts ([], "") in
  (strings.Join mods " ", key).

(** [generateHotkeyID] (lines 139 to 143); [now] is [time.Now().UnixNano()]. *)
Definition generateHotkeyID (hotkey : string) (now : Z) : string :=
  "hotkey_"
  ++ strings.ReplaceAll (strings.ReplaceAll hotkey "+" "_") " " ""
  ++ "_" ++ time.appendInt now 0.

Section Manager.

(** The callbacks are values the manager stores and calls; it never looks
    into them. *)
Variable HotkeyCallback : Type.

Record HotkeyEntry : Type := mkEntry {
  ID : string;
  Hotkey : string;
  Callback : HotkeyCallback;
  Active : bool
}.

(** The manager.  [hotkeys] is the map, by key; [locked] says that
    [hotkeysMutex] is held for writing; [stopChan_closed] that [stopChan]
    has been closed. *)
Record HyprlandHotkeyManager : Type := mkManager {
  pipePath : string;
  hotkeys : list (string * HotkeyEntry);
  locked : bool;
  listening : bool;
  stopChan_closed : bool;
  instanceSig : string
}.

(** What a method does to the world around the manager. *)
Inductive Event : Type :=
| Hyprctl (args : list string)
| GoCallback (callback : HotkeyCallback) (hotkey : string)
| GoListener
| Sleep (seconds : Z)
| RemoveFile (path : string)
| Mkfifo (path : string).

(** How a call ends: it returns, it waits for the mutex for ever, or it
    panics. *)
Inductive Outcome (A : Type) : Type :=
| Done (hm : HyprlandHotkeyManager) (result : A)
| Blocked
| Panic (msg : string).

Arguments Blocked {A}.
Arguments Panic {A} msg.

(** The map operations. *)
Fixpoint lookup (m : list (string * HotkeyEntry)) (id : string)
  : option HotkeyEntry :=
  match m with
  | [] => None
  | (k, e) :: t => if String.eqb k id then Some e else lookup t id
  end.

Definition delete (m : list (string * HotkeyEntry)) (id : string)
  : list (string * HotkeyEntry) :=
  filter (fun ke => negb (String.eqb (fst ke) id)) m.

Definition store (m : list (string * HotkeyEntry)) (id : string)
           (e : HotkeyEntry) : list (string * HotkeyEntry) :=
  (id, e) :: delete m id.

Definition with_hotkeys (hm : HyprlandHotkeyManager)
           (m : list (string * HotkeyEntry)) : HyprlandHotkeyManager :=
  mkManager (pipePath hm) m (locked hm) (listening hm) (stopChan_closed hm)
            (instanceSig hm).

Definition with_locked (hm : HyprlandHotkeyManager) (b : bool)
  : HyprlandHotkeyManager :=
  mkManager (pipePath hm) (hotkeys hm) b (listening hm) (stopChan_closed hm)
            (instanceSig hm).

Definition with_listening (hm : HyprlandHotkeyManager) (b : bool)
  : HyprlandHotkeyManager :=
  mkManager (pipePath hm) (hotkeys hm) (locked hm) b (stopChan_closed hm)
            (instanceSig hm).

Definition close_stopChan (hm : HyprlandHotkeyManager)
  : HyprlandHotkeyManager :=
  mkManager (pipePath hm) (hotkeys hm) (locked hm) (listening hm) true
            (instanceSig hm).

(** [hotkeysMutex.Lock] and [RLock]: [None] when the call never returns. *)
Definition Lock (hm : HyprlandHotkeyManager) : option HyprlandHotkeyManager :=
  if locked hm then None else Some (with_locked hm true).

Definition Unlock (hm : HyprlandHotkeyManager) : HyprlandHotkeyManager :=
  with_locked hm false.

(** [createPipe] and [NewHyprlandHotkeyManager] (lines 37 to 74);
    [signature] is the value of the environment variable, [mkfifo_ok] says
    whether the pipe could be made. *)
Definition NewHyprlandHotkeyManager (signature : string) (mkfifo_ok : bool)
  : list Event * (option HyprlandHotkeyManager * error) :=
  if String.eqb signature "" then
    ([], (None, Some (Failure "HYPRLAND_INSTANCE_SIGNATURE not found")))
  else
    let pipe := "/tmp/hyprland_hotkey_pipe" in
    let manager := mkManager pipe [] false false false signature in
    if mkfifo_ok then ([RemoveFile pipe; Mkfifo pipe], (Some manager, None))
    else ([RemoveFile pipe; Mkfifo pipe],
          (None, Some (Failure "failed to create pipe"))).

(** The argument of [hyprctl keyword bind] (lines 160 to 168). *)
Definition bind_argument (pipe id mod_ key : string) : string :=
  let command := "echo '" ++ id ++ "' > " ++ pipe in
  if negb (String.eqb mod_ "") then
    mod_ ++ ", " ++ key ++ ", exec, " ++ command
  else ", " ++ key ++ ", exec, " ++ command.

(** The argument of [hyprctl keyword unbind] (lines 203 to 208). *)
Definition unbind_argument (mod_ key : string) : string :=
  if negb (String.eqb mod_ "") then mod_ ++ ", " ++ key else ", " ++ key.

(** [RegisterHotkey] (lines 146 to 187); [hyprctl_ok] says whether the
    command succeeds. *)
Definition RegisterHotkey (hm : HyprlandHotkeyManager) (hotkey : string)
           (callback : HotkeyCallback) (now : Z) (hyprctl_ok : bool)
  : list Event * Outcome (string * error) :=
  match Lock hm with
  | None => ([], Blocked)
  | Some hm =>
      let id := generateHotkeyID hotkey now in
      let '(mod_, key) := parseHotkey hotkey in
      if String.eqb key "" then
        ([], Done (Unlock hm) ("", Some (Failure "invalid hotkey format")))
      else
        let ev := [Hyprctl ["keyword"; "bind";
                            bind_argument (pipePath hm) id mod_ key]] in
        if negb hyprctl_ok then
          (ev, Done (Unlock hm)
                    ("", Some (Failure "failed to register hotkey")))
        else
          let entry := mkEntry id hotkey callback true in
          (ev, Done (Unlock (with_hotkeys hm (store (hotkeys hm) id entry)))
                    (id, None))
  end.

(** [UnregisterHotkey] (lines 190 to 219); a failure of the command is only
    logged. *)
Definition UnregisterHotkey (hm : HyprlandHotkeyManager) (id : string)
           (hyprctl_ok : bool) : list Event * Outcome error :=
  match Lock hm with
  | None => ([], Blocked)
  | Some hm =>
      match lookup (hotkeys hm) id with
      | None => ([], Done (Unlock hm) (Some (Failure "hotkey not found")))
      | Some entry =>
          let '(mod_, key) := parseHotkey (Hotkey entry) in
          ([Hyprctl ["keyword"; "unbind"; unbind_argument mod_ key]],
           Done (Unlock (with_hotkeys hm (delete (hotkeys hm) id))) None)
      end
  end.

(** [StartListening] (lines 222 to 264), without the body of the goroutine
    it starts. *)
Definition StartListening (hm : HyprlandHotkeyManager)
  : list Event * Outcome error :=
  if listening hm then ([], Done hm (Some (Failure "already listening")))
  else ([GoListener], Done (with_listening hm true) None).

(** [handleHotkeyEvent] (lines 267 to 289). *)
Definition handleHotkeyEvent (hm : HyprlandHotkeyManager) (hotkeyID : string)
  : list Event * Outcome unit :=
  if locked hm then ([], Blocked)
  else
    match lookup (hotkeys hm) hotkeyID with
    | None => ([], Done hm tt)
    | Some entry =>
        if negb (Active entry) then ([], Done hm tt)
        else ([GoCallback (Callback entry) (Hotkey entry)], Done hm tt)
    end.

(** What one opening of the pipe gives the listener. *)
Inductive Opened : Type :=
| OpenFailed
| Scanned (texts : list string).

(** How an iteration of the listener ends. *)
Inductive Step : Type :=
| Exit
| Again
| Stuck.

(** The events of the lines read from the pipe (lines 247 to 252). *)
Fixpoint scan (TrimSpace : string -> string) (hm : HyprlandHotkeyManager)
         (texts : list string) : list Event * Step :=
  match texts with
  | [] => ([], Again)
  | text :: rest =>
      let hotkeyID := TrimSpace text in
      if negb (String.eqb hotkeyID "") then
        match handleHotkeyEvent hm hotkeyID with
        | (ev, Done hm' _) =>
            let '(ev', s) := scan TrimSpace hm' rest in ((ev ++ ev')%list, s)
        | (ev, _) => (ev, Stuck)
        end
      else scan TrimSpace hm rest
  end.

(** One iteration of the loop of the goroutine of [StartListening] (lines
    232 to 260), on the manager as it is then. *)
Definition listener_iteration (TrimSpace : string -> string)
           (hm : HyprlandHotkeyManager) (opened : Opened)
  : list Event * Step :=
  if stopChan_closed hm then ([], Exit)
  else
    match opened with
    | OpenFailed => ([Sleep 1], Again)
    | Scanned texts => scan TrimSpace hm texts
    end.

(** [StopListening] (lines 292 to 299); closing a closed channel panics. *)
Definition StopListening (hm : HyprlandHotkeyManager)
  : list Event * Outcome unit :=
  if negb (listening hm) then ([], Done hm tt)
  else
    let hm := with_listening hm false in
    if stopChan_closed hm then ([], Panic "close of closed channel")
    else ([], Done (close_stopChan hm) tt).

(** [GetRegisteredHotkeys] (lines 302 to 316): a copy of every entry. *)
Definition GetRegisteredHotkeys (hm : HyprlandHotkeyManager)
  : Outcome (list (string * HotkeyEntry)) :=
  if locked hm then Blocked
  else
    Done hm
         (map (fun ke =>
                 (fst ke,
                  mkEntry (ID (snd ke)) (Hotkey (snd ke)) (Callback (snd ke))
                          (Active (snd ke))))
              (hotkeys hm)).

(** [entry.Active = active] through the pointer held by the map. *)
Fixpoint set_active (m : list (string * HotkeyEntry)) (id : string)
         (active : bool) : list (string * HotkeyEntry) :=
  match m with
  | [] => []
  | (k, e) :: t =>
      if String.eqb k id then
        (k, mkEntry (ID e) (Hotkey e) (Callback e) active) :: t
      else (k, e) :: set_active t id active
  end.

(** [SetHotkeyActive] (lines 319 to 331). *)
Definition SetHotkeyActive (hm : HyprlandHotkeyManager) (id : string)
           (active : bool) : Outcome error :=
  match Lock hm with
  | None => Blocked
  | Some hm =>
      match lookup (hotkeys hm) id with
      | None => Done (Unlock hm) (Some (Failure "hotkey not found"))
      | Some _ =>
          Done (Unlock (with_hotkeys hm (set_active (hotkeys hm) id active)))
               None
      end
  end.

(** The loop of [Close] (lines 342 to 344) over the keys of the map;
    [hyprctl_ok] says for which keys the command succeeds. *)
Fixpoint unregister_all (hm : HyprlandHotkeyManager) (ids : list string)
         (hyprctl_ok : string -> bool) : list Event * Outcome unit :=
  match ids with
  | [] => ([], Done hm tt)
  | id :: rest =>
      match UnregisterHotkey hm id (hyprctl_ok id) with
      | (ev, Done hm' _) =>
          let '(ev', o) := unregister_all hm' rest hyprctl_ok in
          ((ev ++ ev')%list, o)
      | (ev, Blocked) => (ev, Blocked)
      | (ev, Panic msg) => (ev, Panic msg)
      end
  end.

(** [Close] (lines 334 to 353). *)
Definition Close (hm : HyprlandHotkeyManager) (hyprctl_ok : string -> bool)
  : list Event * Outcome error :=
  match StopListening hm with
  | (ev, Panic msg) => (ev, Panic msg)
  | (ev, Blocked) => (ev, Blocked)
  | (ev, Done hm _) =>
      match Lock hm with
      | None => (ev, Blocked)
      | Some hm =>
          match unregister_all hm (map fst (hotkeys hm)) hyprctl_ok with
          | (ev', Done hm _) =>
              ((ev ++ ev' ++ [RemoveFile (pipePath hm)])%list,
               Done (Unlock hm) None)
          | (ev', Blocked) => ((ev ++ ev')%list, Blocked)
          | (ev', Panic msg) => ((ev ++ ev')%list, Panic msg)
          end
      end
  end.

(** The calls a user of the manager makes, other than [Close], and the
    events the listener passes to [handleHotkeyEvent]. *)
Inductive Call : Type :=
| CallRegister (hotkey : string) (callback : HotkeyCallback) (now : Z)
               (hyprctl_ok : bool)
| CallUnregister (id : string) (hyprctl_ok : bool)
| CallSetActive (id : string) (active : bool)
| CallStart
| CallStop
| CallGet
| CallEvent (hotkeyID : string).

Definition forget (A : Type) (o : Outcome A) : Outcome unit :=
  match o with
  | Done hm _ => Done hm tt
  | Blocked => Blocked
  | Panic msg => Panic msg
  end.

Definition call (hm : HyprlandHotkeyManager) (c : Call)
  : list Event * Outcome unit :=
  match c with
  | CallRegister hotkey callback now ok =>
      let '(ev, o) := RegisterHotkey hm hotkey callback now ok in
      (ev, forget o)
  | CallUnregister id ok =>
      let '(ev, o) := UnregisterHotkey hm id ok in (ev, forget o)
  | CallSetActive id active => ([], forget (SetHotkeyActive hm id active))
  | CallStart => let '(ev, o) := StartListening hm in (ev, forget o)
  | CallStop => StopListening hm
  | CallGet => ([], forget (GetRegisteredHotkeys hm))
  | CallEvent hotkeyID => handleHotkeyEvent hm hotkeyID
  end.

(** The calls one after the other, as long as they return. *)
Fixpoint run (hm : HyprlandHotkeyManager) (calls : list Call)
  : list Event * Outcome unit :=
  match calls with
  | [] => ([], Done hm tt)
  | c :: rest =>
      match call hm c with
      | (ev, Done hm' _) =>
          let '(ev', o) := run hm' rest in ((ev ++ ev')%list, o)
      | (ev, Blocked) => (ev, Blocked)
      | (ev, Panic msg) => (ev, Panic msg)
      end
  end.

End Manager.

Arguments Blocked {HotkeyCallback A}.
Arguments Panic {HotkeyCallback A} msg.
Arguments Hyprctl {HotkeyCallback} args.
Arguments GoListener {HotkeyCallback}.
Arguments Sleep {HotkeyCallback} seconds.
Arguments RemoveFile {HotkeyCallback} path.
Arguments Mkfifo {HotkeyCallback} path.
Arguments CallUnregister {HotkeyCallback} id hyprctl_ok.
Arguments CallSetActive {HotkeyCallback} id active.
Arguments CallStart {HotkeyCallback}.
Arguments CallStop {HotkeyCallback}.
Arguments CallGet {HotkeyCallback}.
Arguments CallEvent {HotkeyCallback} hotkeyID.

(** Managers to run the methods on; the callbacks are numbered. *)
Definition sample_fresh : HyprlandHotkeyManager nat :=
  mkManager "/tmp/hyprland_hotkey_pipe" [] false false false "sig".

Definition sample_entry : HotkeyEntry nat :=
  mkEntry "hotkey_CTRL_A_5" "CTRL+A" 1%nat true.

Definition sample_one : HyprlandHotkeyManager nat :=
  mkManager "/tmp/hyprland_hotkey_pipe" [("hotkey_CTRL_A_5", sample_entry)]
            false false false "sig".

Definition sample_listening : HyprlandHotkeyManager nat :=
  mkManager "/tmp/hyprland_hotkey_pipe" [] false true false "sig".

Definition sample_second : HyprlandHotkeyManager nat :=
  mkManager "/tmp/hyprland_hotkey_pipe"
            [("hotkey_CTRL_A_5", mkEntry "hotkey_CTRL_A_5" "CTRL_A" 2%nat true)]
            false false false "sig".

Definition sample_calls : list (Call nat) :=
  [CallRegister "CTRL+A" 1%nat 5 true;
   CallStart;
   CallEvent "hotkey_CTRL_A_5";
   CallSetActive "hotkey_CTRL_A_5" false;
   CallEvent "hotkey_CTRL_A_5";
   CallUnregister "hotkey_CTRL_A_5" false;
   CallStop].

End hotkey.

(** ** Further vocabulary *)

Module Extra.

(** The signals sent to the subprocess, in order. *)
Fixpoint signals (acts : list exec.Action) : list exec.Signal :=
  match acts with
  | [] => []
  | exec.Send s :: t => s :: signals t
  | _ :: t => signals t
  end.

(** The pass ends the loop of [Start]: a stop request was observed, or the
    recording never returned. *)
Definition ends (pass : main.Pass) : bool :=
  match pass with
  | main.Stopped _ => true
  | main.Hung _ _ _ => true
  | _ => false
  end.


(** The character [c] occurs in [s]. *)
Fixpoint has_char (c : ascii) (s : string) : bool :=
  match s with
  | EmptyString => false
  | String d t => Ascii.eqb d c || has_char c t
  end.

(** [s] cut at the first [c]: what comes before it and what comes after
    it. *)
Fixpoint cut (c : ascii) (s : string) : string * string :=
  match s with
  | EmptyString => (EmptyString, EmptyString)
  | String d t =>
      if Ascii.eqb d c then (EmptyString, t)
      else let '(a, b) := cut c t in (String d a, b)
  end.

(** The numbers below 100. *)
Definition below_100 : list Z := map Z.of_nat (seq 0 100).

End Extra.

(** * Properties *)

Unset Implicit Arguments.

(** ** Integers, strings and lists *)

Lemma wrap_small z : Go.min_int <= z <= Go.max_int -> Go.wrap z = z.
Proof.
  unfold Go.wrap, Go.min_int, Go.max_int. intros H.
  rewrite Z.mod_small; lia.
Qed.

Lemma fits_bounds z : Go.fits z = true <-> Go.min_int <= z <= Go.max_int.
Proof. unfold Go.fits. rewrite andb_true_iff, !Z.leb_le. tauto. Qed.

Lemma Go_rem_mod a b : 0 <= a -> 0 < b -> Go.rem a b = a mod b.
Proof. intros Ha Hb. unfold Go.rem. apply Z.rem_mod_nonneg; assumption. Qed.

Lemma errno_of_not_ENODATA f : unix.Errno_eqb (unix.errno_of f) unix.ENODATA = false.
Proof. destruct f; reflexivity. Qed.

Lemma append_inj_r (p a b : string) : (p ++ a = p ++ b)%string -> a = b.
Proof.
  induction p as [|c p IH]; simpl; intros H.
  - exact H.
  - injection H as H. auto.
Qed.

Lemma Join_inj dir a b : os.Join dir a = os.Join dir b -> a = b.
Proof.
  unfold os.Join. intros H.
  apply append_inj_r in H. apply append_inj_r in H. exact H.
Qed.

Lemma distinct_NoDup l : os.distinct l = true <-> NoDup l.
Proof.
  induction l as [|x t IH]; simpl.
  - split; [constructor | reflexivity].
  - rewrite andb_true_iff, negb_true_iff, IH. split.
    + intros [Hx Ht]. constructor; [|exact Ht].
      intros Hin. assert (existsb (String.eqb x) t = true) as E.
      { apply existsb_exists. exists x. split; [exact Hin | apply String.eqb_refl]. }
      congruence.
    + intros H. inversion H as [|? ? Hx Ht]; subst. split; [|exact Ht].
      destruct (existsb (String.eqb x) t) eqn:E; [|reflexivity].
      apply existsb_exists in E. destruct E as [y [Hy Exy]].
      apply String.eqb_eq in Exy. subst y. contradiction.
Qed.

(** ** Path resolution *)

Section Lookup.

Import os.

Variable fs : FS.

(** In a directory without repeated names a path resolves to the entry
    that bears the name. *)
Lemma lookup_entry f :
  wf fs = true -> In f (entries fs) -> lookup fs (path_of fs f) = Some f.
Proof.
  unfold wf, lookup. rewrite distinct_NoDup.
  induction (entries fs) as [|g t IH]; simpl; intros Hnd Hin; [contradiction|].
  inversion Hnd as [|? ? Hg Ht]; subst.
  unfold at_path at 1. destruct (String.eqb (path_of fs g) (path_of fs f)) eqn:E.
  - apply String.eqb_eq in E. apply Join_inj in E.
    destruct Hin as [->|Hin]; [reflexivity|].
    exfalso. apply Hg. rewrite E. apply in_map. exact Hin.
  - destruct Hin as [->|Hin].
    + rewrite String.eqb_refl in E. discriminate.
    + apply IH; assumption.
Qed.

End Lookup.

(** ** The marker store *)

Section Store.

Import os.

Lemma get_remove xs attr : xattr.get (xattr.remove xs attr) attr = None.
Proof.
  induction xs as [|[k v] t IH]; simpl; [reflexivity|].
  destruct (String.eqb k attr) eqn:E; simpl; [exact IH|].
  rewrite E. exact IH.
Qed.

Lemma lookup_set_xattrs fs p xs f :
  lookup fs p = Some f ->
  lookup (set_xattrs fs p xs) p = Some (with_xattrs f xs).
Proof.
  unfold lookup, set_xattrs. simpl.
  induction (entries fs) as [|g t IH]; simpl; [discriminate|].
  destruct (at_path fs p g) eqn:E; intros H.
  - injection H as <-. unfold at_path, path_of in *. simpl. rewrite E. reflexivity.
  - unfold at_path, path_of in *. simpl. rewrite E. auto.
Qed.

(** Removing a marker twice is removing it once. *)
Lemma RemoveMarker_twice fs p name :
  attributes.RemoveMarker (fst (attributes.RemoveMarker fs p name)) p name
  = attributes.RemoveMarker fs p name.
Proof.
  unfold attributes.RemoveMarker. generalize ("user." ++ name). intros attr.
  unfold xattr.Removexattr.
  destruct (lookup fs p) as [f|] eqn:L.
  - destruct (write_fault f) as [e|] eqn:W.
    + rewrite errno_of_not_ENODATA. cbn [fst]. rewrite L, W, errno_of_not_ENODATA.
      reflexivity.
    + destruct (xattr.get (xattrs f) attr) as [v|] eqn:G; cbn [fst unix.Errno_eqb].
      * rewrite (lookup_set_xattrs _ _ _ _ L). cbn [with_xattrs write_fault xattrs].
        rewrite W, get_remove. reflexivity.
      * rewrite L, W, G. reflexivity.
  - cbn [fst unix.Errno_eqb]. rewrite L. reflexivity.
Qed.

(** When [HasMarker] answers yes. *)
Lemma HasMarker_true fs p name :
  fst (attributes.HasMarker fs p name) = true <->
  exists f, lookup fs p = Some f /\ Spec.carries name f = true.
Proof.
  unfold attributes.HasMarker, Spec.carries, Spec.readable_value.
  generalize ("user." ++ name). intros attr. unfold xattr.Getxattr.
  destruct (lookup fs p) as [f|] eqn:L.
  - destruct (read_fault f) as [e|] eqn:R.
    + rewrite errno_of_not_ENODATA. cbn [fst]. split; [discriminate|].
      intros [g [Hg Hc]]. injection Hg as <-. rewrite R in Hc. discriminate.
    + destruct (xattr.get (xattrs f) attr) as [v|] eqn:G.
      * destruct (Z.of_nat (String.length v) <=? 256) eqn:B; cbn [fst].
        -- split.
           ++ intros H. exists f. split; [reflexivity|]. rewrite R, G, B.
              apply Z.ltb_lt in H. destruct v; [simpl in H; lia | reflexivity].
           ++ intros [g [Hg Hc]]. injection Hg as <-. rewrite R, G, B in Hc.
              apply Z.ltb_lt. destruct v; [discriminate | simpl; lia].
        -- split; [discriminate|].
           intros [g [Hg Hc]]. injection Hg as <-. rewrite R, G, B in Hc.
           discriminate.
      * cbn [fst unix.Errno_eqb]. split; [discriminate|].
        intros [g [Hg Hc]]. injection Hg as <-. rewrite R, G in Hc. discriminate.
  - cbn [fst unix.Errno_eqb]. split; [discriminate|]. intros [g [Hg _]]. discriminate.
Qed.

(** An answer yes comes without an error. *)
Lemma HasMarker_true_nil fs p name :
  fst (attributes.HasMarker fs p name) = true ->
  attributes.HasMarker fs p name = (true, None).
Proof.
  unfold attributes.HasMarker.
  destruct (xattr.Getxattr fs p ("user." ++ name) 256) as [e|[sz v]]; simpl.
  - destruct (unix.Errno_eqb e unix.ENODATA); discriminate.
  - intros ->. reflexivity.
Qed.

Lemma marked_at_true fs name p :
  Spec.marked_at fs name p = true <->
  exists f info, lookup fs p = Some f /\ stat f = Some info
                 /\ IsRegular info = true /\ Spec.carries name f = true.
Proof.
  unfold Spec.marked_at, Stat.
  destruct (lookup fs p) as [f|] eqn:L.
  - destruct (stat f) as [info|] eqn:S.
    + rewrite andb_true_iff. split.
      * intros [Hr Hm]. exists f, info. repeat split; try assumption.
        assert (fst (attributes.HasMarker fs p name) = true) as Hf.
        { destruct (attributes.HasMarker fs p name) as [[|] [err|]];
            simpl; congruence. }
        apply HasMarker_true in Hf. destruct Hf as [g [Hg Hc]].
        rewrite L in Hg. injection Hg as <-. exact Hc.
      * intros [g [i [Hg [Hs [Hr Hc]]]]]. injection Hg as <-.
        rewrite S in Hs. injection Hs as <-. split; [exact Hr|].
        assert (fst (attributes.HasMarker fs p name) = true) as Hf.
        { apply HasMarker_true. exists f. split; assumption. }
        rewrite (HasMarker_true_nil _ _ _ Hf). reflexivity.
    + split; [discriminate|].
      intros [g [i [Hg [Hs _]]]]. injection Hg as <-. congruence.
  - split; [discriminate|]. intros [g [i [Hg _]]]. discriminate.
Qed.

(** The scan keeps the entries that are no directories and whose paths
    are marked, in the order of the listing. *)
Lemma scan_filter fs name ents acc :
  attributes.scan fs (root fs) name ents acc
  = (acc ++ map (path_of fs)
         (filter (fun e => negb (IsDir e) && Spec.marked_at fs name (path_of fs e))
                 ents))%list.
Proof.
  revert acc. induction ents as [|e t IH]; intros acc; simpl.
  - rewrite app_nil_r. reflexivity.
  - destruct (IsDir e); simpl; [apply IH|].
    unfold Spec.marked_at. fold (path_of fs e).
    destruct (Stat fs (path_of fs e)) as [info|]; [|apply IH].
    destruct (IsRegular info); simpl; [|apply IH].
    destruct (attributes.HasMarker fs (path_of fs e) name) as [[|] [err|]];
      try apply IH.
    rewrite IH. simpl. rewrite <- app_assoc. reflexivity.
Qed.

(** In a directory without repeated names the path of an entry is marked
    exactly when the entry is. *)
Lemma marked_at_entry fs name e :
  wf fs = true -> In e (entries fs) ->
  negb (IsDir e) && Spec.marked_at fs name (path_of fs e) = Spec.tracked name e.
Proof.
  intros Hwf Hin. unfold Spec.tracked. rewrite <- andb_assoc. f_equal.
  destruct (Spec.marked_at fs name (path_of fs e)) eqn:M.
  - apply marked_at_true in M. destruct M as [f [info [Hf [Hs [Hr Hc]]]]].
    rewrite (lookup_entry _ _ Hwf Hin) in Hf. injection Hf as <-.
    rewrite Hs, Hr, Hc. reflexivity.
  - destruct (stat e) as [info|] eqn:S; [|reflexivity].
    destruct (IsRegular info) eqn:R; [|reflexivity].
    destruct (Spec.carries name e) eqn:C; [|reflexivity].
    assert (Spec.marked_at fs name (path_of fs e) = true) as M'.
    { apply marked_at_true. exists e, info.
      repeat split; try assumption. apply lookup_entry; assumption. }
    congruence.
Qed.

Lemma GetFilesWithMarker_tracked fs name :
  list_fault fs = None -> wf fs = true ->
  attributes.GetFilesWithMarker fs (root fs) name
  = (map (path_of fs) (filter (Spec.tracked name) (entries fs)), None).
Proof.
  intros Hl Hwf. unfold attributes.GetFilesWithMarker, ReadDir.
  rewrite String.eqb_refl, Hl, scan_filter. simpl. do 2 f_equal.
  apply filter_ext_in. intros e He. apply marked_at_entry; assumption.
Qed.

End Store.

(** ** Claims on the marker store *)

(** C3, as stated, fails: a file whose attribute [user.dashcam] is present
    with a non-empty value of 257 bytes is answered [false], with an error,
    because the value does not fit the buffer of 256 bytes; and so is a file
    whose attribute is present with a non-empty value that cannot be
    read. *)
Lemma HasMarker_long_value :
  ((exists f v,
       os.lookup Sample.fs_long "/home/user/recordings/a.mkv" = Some f
       /\ xattr.get (os.xattrs f) "user.dashcam" = Some v
       /\ String.eqb v "" = false)
   /\ attributes.HasMarker Sample.fs_long "/home/user/recordings/a.mkv" "dashcam"
      = (false, Some (Errorf "failed to get xattr value" unix.ERANGE)))
  /\ ((exists f,
          os.lookup Sample.fs_mixed "/home/user/recordings/c.mkv" = Some f
          /\ xattr.get (os.xattrs f) "user.dashcam" = Some "standard_recording")
      /\ attributes.HasMarker Sample.fs_mixed "/home/user/recordings/c.mkv"
                              "dashcam"
         = (false, Some (Errorf "failed to get xattr value" unix.EACCES))).
Proof.
  split; split.
  - eexists. eexists. split; [reflexivity|]. split; reflexivity.
  - vm_compute. reflexivity.
  - eexists. split; reflexivity.
  - vm_compute. reflexivity.
Qed.

(** C3 (amended): [HasMarker] returns true if and only if the attribute
    [user.<name>] is present on the path, can be read, and its value is
    non-empty and at most 256 bytes long; a readable attribute present with
    the empty value yields false without an error, and such a file is not
    in the listing of marked files. *)
Theorem HasMarker_iff_readable_nonempty fs p name :
  (fst (attributes.HasMarker fs p name) = true <->
   exists f v,
     os.lookup fs p = Some f
     /\ os.read_fault f = None
     /\ xattr.get (os.xattrs f) ("user." ++ name) = Some v
     /\ v <> "" /\ Z.of_nat (String.length v) <= 256)
  /\ (forall f directory,
         os.lookup fs p = Some f ->
         os.read_fault f = None ->
         xattr.get (os.xattrs f) ("user." ++ name) = Some "" ->
         attributes.HasMarker fs p name = (false, None)
         /\ ~ In p (fst (attributes.GetFilesWithMarker fs directory name))).
Proof.
  split.
  - rewrite HasMarker_true. unfold Spec.carries, Spec.readable_value. split.
    + intros [f [L C]]. destruct (os.read_fault f) eqn:R; [discriminate|].
      destruct (xattr.get (os.xattrs f) ("user." ++ name)) as [v|] eqn:G;
        [|discriminate].
      destruct (Z.of_nat (String.length v) <=? 256) eqn:B; [|discriminate].
      exists f, v. repeat split; try assumption.
      * intros ->. discriminate.
      * apply Z.leb_le. exact B.
    + intros [f [v [L [R [G [Hv B]]]]]]. exists f. split; [exact L|].
      rewrite R, G. apply Z.leb_le in B. rewrite B.
      destruct v; [contradiction | reflexivity].
  - intros f directory L R G.
    assert (Spec.carries name f = false) as C.
    { unfold Spec.carries, Spec.readable_value. rewrite R, G. reflexivity. }
    split.
    + unfold attributes.HasMarker, xattr.Getxattr. rewrite L, R, G. reflexivity.
    + unfold attributes.GetFilesWithMarker, os.ReadDir.
      destruct (String.eqb directory (os.root fs)) eqn:E; [|simpl; tauto].
      apply String.eqb_eq in E. subst directory.
      destruct (os.list_fault fs); [simpl; tauto|].
      rewrite scan_filter. simpl. intros Hin.
      apply in_map_iff in Hin. destruct Hin as [e [He Hf]].
      apply filter_In in Hf. destruct Hf as [_ Hm].
      apply andb_true_iff in Hm. destruct Hm as [_ Hm]. rewrite He in Hm.
      apply marked_at_true in Hm. destruct Hm as [g [info [Lg [_ [_ Cg]]]]].
      rewrite L in Lg. injection Lg as <-. congruence.
Qed.

Lemma HasMarker_iff_readable_nonempty_witness :
  attributes.HasMarker Sample.fs_mixed "/home/user/recordings/b.mkv" "dashcam"
  = (false, None)
  /\ ~ In "/home/user/recordings/b.mkv"
        (fst (attributes.GetFilesWithMarker Sample.fs_mixed Sample.dir "dashcam")).
Proof.
  refine (proj2 (HasMarker_iff_readable_nonempty
                   Sample.fs_mixed "/home/user/recordings/b.mkv" "dashcam")
                (Sample.regular "b.mkv" 20 [("user.dashcam", "")])
                Sample.dir _ _ _); reflexivity.
Defined.

(** C8, as stated, fails: on a file that has no attribute at all but whose
    attributes may not be changed, [RemoveMarker] returns an error. *)
Lemma RemoveMarker_absent_locked :
  (exists f,
      os.lookup Sample.fs_locked "/home/user/recordings/a.mkv" = Some f
      /\ xattr.get (os.xattrs f) "user.dashcam" = None)
  /\ attributes.RemoveMarker Sample.fs_locked "/home/user/recordings/a.mkv" "dashcam"
     = (Sample.fs_locked, Some (Errorf "failed to remove xattr" unix.EPERM)).
Proof.
  split.
  - eexists. split; reflexivity.
  - vm_compute. reflexivity.
Qed.

(** C8 (amended): on an existing path whose attribute is absent and whose
    attributes may be changed, [RemoveMarker] returns success and leaves the
    file system as it is; and on every path, calling [RemoveMarker] a second
    time leaves the state the first call left and returns what the first
    call returned. *)
Theorem RemoveMarker_absent_idempotent fs p name :
  (forall f,
      os.lookup fs p = Some f ->
      os.write_fault f = None ->
      xattr.get (os.xattrs f) ("user." ++ name) = None ->
      attributes.RemoveMarker fs p name = (fs, None))
  /\ (forall fs1 r1,
         attributes.RemoveMarker fs p name = (fs1, r1) ->
         attributes.RemoveMarker fs1 p name = (fs1, r1)).
Proof.
  split.
  - intros f L W G. unfold attributes.RemoveMarker, xattr.Removexattr.
    rewrite L, W, G. reflexivity.
  - intros fs1 r1 H. pose proof (RemoveMarker_twice fs p name) as T.
    rewrite H in T. exact T.
Qed.

Lemma RemoveMarker_absent_idempotent_witness :
  attributes.RemoveMarker Sample.fs_mixed "/home/user/recordings/notes.txt" "dashcam"
  = (Sample.fs_mixed, None)
  /\ attributes.RemoveMarker
       (fst (attributes.RemoveMarker Sample.fs_mixed
                                     "/home/user/recordings/a.mkv" "dashcam"))
       "/home/user/recordings/a.mkv" "dashcam"
     = attributes.RemoveMarker Sample.fs_mixed
                               "/home/user/recordings/a.mkv" "dashcam".
Proof.
  split.
  - refine (proj1 (RemoveMarker_absent_idempotent
                     Sample.fs_mixed "/home/user/recordings/notes.txt" "dashcam")
                  (Sample.regular "notes.txt" 5 []) _ _ _); reflexivity.
  - refine (proj2 (RemoveMarker_absent_idempotent
                     Sample.fs_mixed "/home/user/recordings/a.mkv" "dashcam")
                  _ _ _).
    apply surjective_pairing.
Defined.

(** C9: over a directory that can be listed, the scan returns no error, and
    it returns the paths of exactly the marked files, in the order of the
    listing: directories, entries that are no regular files, entries
    [os.Stat] fails on and entries whose attribute cannot be read are left
    out, each without effect on the entries before and after it. *)
Theorem scan_skips_bad_entries fs name :
  os.list_fault fs = None ->
  os.wf fs = true ->
  attributes.GetFilesWithMarker fs (os.root fs) name
  = (map (os.path_of fs) (filter (Spec.tracked name) (os.entries fs)), None)
  /\ (forall before bad after,
         os.entries fs = (before ++ bad :: after)%list ->
         Spec.tracked name bad = false ->
         fst (attributes.GetFilesWithMarker fs (os.root fs) name)
         = (map (os.path_of fs) (filter (Spec.tracked name) before)
            ++ map (os.path_of fs) (filter (Spec.tracked name) after))%list).
Proof.
  intros Hl Hwf. rewrite (GetFilesWithMarker_tracked fs name Hl Hwf).
  split; [reflexivity|].
  intros before bad after E Hb. cbn [fst]. rewrite E.
  rewrite filter_app. cbn [filter]. rewrite Hb. apply map_app.
Qed.

Lemma scan_skips_bad_entries_witness :
  attributes.GetFilesWithMarker Sample.fs_mixed Sample.dir "dashcam"
  = (["/home/user/recordings/a.mkv"; "/home/user/recordings/d.mkv"], None).
Proof.
  refine (eq_trans
            (proj1 (scan_skips_bad_entries Sample.fs_mixed "dashcam" _ _)) _);
    reflexivity.
Defined.

(** ** Claims on the capture subprocess *)

Section Supervisor.

Import exec main.

(** C4: the arguments of the capture subprocess are the program name, the
    output flag with the output path, then the codec flag [-c] followed by
    the configured codec exactly when the codec is not the empty string,
    then the audio flag [-a] exactly when [record_audio] is false; these are
    the arguments every run of [recordScreen] spawns the subprocess with. *)
Theorem capture_arguments sr filename :
  exists codec audio,
    command_args sr filename
    = ("wf-recorder" :: "-f" :: filename :: codec ++ audio)%list
    /\ ((RecordAudio (config sr) = false /\ audio = ["-a"])
        \/ (RecordAudio (config sr) = true /\ audio = []))
    /\ ((Codec (config sr) <> "" /\ codec = ["-c"; Codec (config sr)])
        \/ (Codec (config sr) = "" /\ codec = []))
    /\ forall duration p,
        exists rest,
          fst (recordScreen sr filename duration p)
          = Spawn (command_args sr filename) :: rest.
Proof.
  unfold command_args.
  exists (if String.eqb (Codec (config sr)) "" then [] else ["-c"; Codec (config sr)]).
  exists (if RecordAudio (config sr) then [] else ["-a"]).
  split; [|split; [|split]].
  - destruct (String.eqb (Codec (config sr)) ""), (RecordAudio (config sr));
      reflexivity.
  - destruct (RecordAudio (config sr)); [right | left]; split; reflexivity.
  - destruct (String.eqb (Codec (config sr)) "") eqn:E.
    + right. apply String.eqb_eq in E. split; [exact E | reflexivity].
    + left. apply String.eqb_neq in E. split; [exact E | reflexivity].
  - intros duration p. unfold recordScreen. fold (command_args sr filename).
    destruct (start_error p); [eexists; reflexivity|].
    destruct (race p) as [|[|]]; [| eexists; reflexivity ..].
    destruct (grace p); [eexists; reflexivity|].
    destruct (reaped p); eexists; reflexivity.
Qed.

Ltac trace_eq := simpl; repeat rewrite <- app_assoc; reflexivity.

(** C5: when the deadline passes before the subprocess exits, the first
    thing sent to the subprocess is the interrupt; the wait that follows is
    bounded by 5 seconds; when the bound passes without an exit the
    subprocess is killed and the exit is then awaited without a bound; and
    whenever [recordScreen] returns, the exit of the subprocess has been
    observed: it is no longer live. *)
Theorem stop_graceful_then_forced sr filename duration p acts out :
  start_error p = false ->
  race p = TimerFirst ->
  recordScreen sr filename duration p = (acts, out) ->
  exists fallback tail,
    acts = ([Spawn (command_args sr filename); NewTimer duration;
             TimerFired; Send SIGINT]
            ++ fallback ++ Await (Some 5) :: tail)%list
    /\ (fallback = [] \/ (signal_error p = true /\ fallback = [Send SIGKILL]))
    /\ match grace p with
       | DoneInGrace w => tail = [Exited w] /\ out = Returned None
       | GraceElapsed =>
           exists seen,
             tail = ([BoundElapsed; Send SIGKILL; Await None] ++ seen)%list
             /\ match reaped p with
                | Some w => seen = [Exited w] /\ out = Returned None
                | None => seen = [] /\ out = Blocked
                end
       end
    /\ (forall r, out = Returned r -> Spec.alive acts = false /\ r = None).
Proof.
  intros Hs Hr. unfold recordScreen. rewrite Hs, Hr. intros H.
  exists (if signal_error p then [Send SIGKILL] else []).
  assert ((if signal_error p then [Send SIGKILL] else []) = []
          \/ (signal_error p = true
              /\ (if signal_error p then [Send SIGKILL] else []) = [Send SIGKILL]))
    as Hf by (destruct (signal_error p); auto).
  destruct (grace p) as [w|] eqn:G.
  - injection H as <- <-. exists [Exited w].
    split; [trace_eq|]. split; [exact Hf|]. split; [split; reflexivity|].
    intros r Hret. split; [|congruence].
    destruct (signal_error p); reflexivity.
  - destruct (reaped p) as [w|] eqn:R; injection H as <- <-.
    + exists [BoundElapsed; Send SIGKILL; Await None; Exited w].
      split; [trace_eq|]. split; [exact Hf|]. split.
      * exists [Exited w]. split; [reflexivity|]. split; reflexivity.
      * intros r Hret. split; [|congruence].
        destruct (signal_error p); reflexivity.
    + exists [BoundElapsed; Send SIGKILL; Await None].
      split; [trace_eq|]. split; [exact Hf|]. split.
      * exists []. split; [reflexivity|]. split; reflexivity.
      * intros r Hret. discriminate.
Qed.

Lemma stop_graceful_then_forced_witness :
  exists fallback tail,
    fst (recordScreen Sample.sr "/home/user/recordings/x.mkv" 60 Sample.stubborn)
    = ([Spawn (command_args Sample.sr "/home/user/recordings/x.mkv");
        NewTimer 60; TimerFired; Send SIGINT]
       ++ fallback ++ Await (Some 5) :: tail)%list
    /\ tail = [BoundElapsed; Send SIGKILL; Await None; Exited ExitError].
Proof.
  destruct (stop_graceful_then_forced
              Sample.sr "/home/user/recordings/x.mkv" 60 Sample.stubborn
              _ _ eq_refl eq_refl eq_refl)
    as [fallback [tail [Ha [_ [[seen [Ht [Hseen _]]] _]]]]].
  exists fallback, tail. split; [exact Ha|].
  rewrite Ht, Hseen. reflexivity.
Defined.

End Supervisor.

(** ** The loop of [Start] *)

Section Loop.

Import exec main.

Variable sr : ScreenRecorder.

(** One round of the loop. *)
Lemma loop_cons r rest c fs :
  loop sr (r :: rest) c fs
  = let loopcounter := Go.add c 1 in
    if stop r then ([Stopped loopcounter], fs)
    else
      let filename := generateFilename sr (now r) in
      match recordScreen sr filename (RecordingLength (config sr)) (proc r) with
      | (acts, Blocked) => ([Hung loopcounter filename acts], world r fs)
      | (acts, Returned (Some err)) =>
          let '(passes, fs') := loop sr rest loopcounter (world r fs) in
          (Failed loopcounter filename acts err :: passes, fs')
      | (acts, Returned None) =>
          let '(fs1, mark) :=
            attributes.SetMarker (world r fs) filename attributeMarkerName
                                 attributeMarkerDefaultValue in
          if Go.rem loopcounter 10 =? 0
          then
            let '(fs2, calls, c) := cleanupOldFiles sr fs1 in
            match c with
            | Panic =>
                ([Finalized loopcounter filename acts mark (Some (calls, c))],
                 fs2)
            | Return _ =>
                let '(passes, fs') := loop sr rest loopcounter fs2 in
                (Finalized loopcounter filename acts mark (Some (calls, c))
                           :: passes, fs')
            end
          else
            let '(passes, fs') := loop sr rest loopcounter fs1 in
            (Finalized loopcounter filename acts mark None :: passes, fs')
      end.
Proof. reflexivity. Qed.

(** The first pass of the loop, by the result of the recording: a
    recording that never returns ends the loop, a failed one is followed by
    the next round without marking, and a successful one is marked and, when
    the counter is a multiple of 10, followed by the cleanup. *)
Lemma loop_head r rest c fs acts out :
  stop r = false ->
  recordScreen sr (generateFilename sr (now r)) (RecordingLength (config sr))
               (proc r) = (acts, out) ->
  let c' := Go.add c 1 in
  let filename := generateFilename sr (now r) in
  match out with
  | Blocked => fst (loop sr (r :: rest) c fs) = [Hung c' filename acts]
  | Returned (Some err) =>
      fst (loop sr (r :: rest) c fs)
      = Failed c' filename acts err :: fst (loop sr rest c' (world r fs))
  | Returned None =>
      let marked :=
        attributes.SetMarker (world r fs) filename attributeMarkerName
                             attributeMarkerDefaultValue in
      exists cleanup more,
        fst (loop sr (r :: rest) c fs)
        = Finalized c' filename acts (snd marked) cleanup :: more
        /\ (cleanup = None <-> (Go.rem c' 10 =? 0) = false)
        /\ (more = []
            \/ exists fs', more = fst (loop sr rest c' fs'))
  end.
Proof.
  intros Hstop Hrec c' filename. rewrite loop_cons. cbv zeta.
  rewrite Hstop. fold filename in Hrec |- *. rewrite Hrec. fold c'.
  destruct out as [[err|]|].
  - destruct (loop sr rest c' (world r fs)). reflexivity.
  - cbv zeta.
    destruct (attributes.SetMarker (world r fs) filename attributeMarkerName
                                   attributeMarkerDefaultValue) as [fs1 mark].
    cbn [snd]. destruct (Go.rem c' 10 =? 0) eqn:E.
    + destruct (cleanupOldFiles sr fs1) as [[fs2 calls] cm].
      destruct cm as [e|].
      * destruct (loop sr rest c' fs2) as [passes fs'] eqn:L.
        exists (Some (calls, Return e)), passes. split; [reflexivity|].
        split; [split; discriminate|].
        right. exists fs2. rewrite L. reflexivity.
      * exists (Some (calls, Panic)), []. split; [reflexivity|].
        split; [split; discriminate | left; reflexivity].
    + destruct (loop sr rest c' fs1) as [passes fs'] eqn:L.
      exists None, passes. split; [reflexivity|].
      split; [split; reflexivity|].
      right. exists fs1. rewrite L. reflexivity.
  - reflexivity.
Qed.

Lemma add_one c n :
  0 <= c -> c + Z.of_nat (S n) <= Go.max_int -> Go.add c 1 = c + 1.
Proof.
  intros H0 H1. unfold Go.add. apply wrap_small.
  unfold Go.min_int. lia.
Qed.

Lemma cleaned_Finalized c f acts mark cleanup :
  Spec.cleaned (Finalized c f acts mark cleanup) = true <-> cleanup <> None.
Proof.
  simpl. destruct cleanup; split; congruence.
Qed.

(** The counter of the pass number [i] of a loop that starts with the
    counter [c] is [c + i + 1], and the cleanup ran in it exactly when the
    pass was completed and this is a multiple of 10. *)
Lemma loop_counters rounds :
  forall c fs i pass,
    0 <= c -> c + Go.len rounds <= Go.max_int ->
    nth_error (fst (loop sr rounds c fs)) i = Some pass ->
    Spec.counter pass = c + Z.of_nat i + 1
    /\ (Spec.cleaned pass = true <->
        Spec.completed pass = true /\ (c + Z.of_nat i + 1) mod 10 = 0).
Proof.
  induction rounds as [|r rest IH]; intros c fs i pass H0 Hm Hn.
  - destruct i; discriminate.
  - unfold Go.len in Hm. cbn [List.length] in Hm.
    pose proof (add_one c _ H0 Hm) as Hc.
    assert (c + 1 + Go.len rest <= Go.max_int) as Hm'
        by (unfold Go.len; lia).
    destruct (stop r) eqn:Hstop.
    + rewrite loop_cons in Hn. cbv zeta in Hn. rewrite Hstop, Hc in Hn.
      cbn [fst] in Hn. destruct i as [|[|]]; try discriminate.
      injection Hn as <-. simpl. split; [lia|]. split; [discriminate|].
      intros [? _]. discriminate.
    + destruct (recordScreen sr (generateFilename sr (now r))
                             (RecordingLength (config sr)) (proc r))
        as [acts out] eqn:Hrec.
      pose proof (loop_head r rest c fs acts out Hstop Hrec) as Hh.
      cbv zeta in Hh. rewrite Hc in Hh.
      destruct out as [[err|]|].
      * rewrite Hh in Hn. destruct i as [|i'].
        -- injection Hn as <-. simpl. split; [lia|]. split; [discriminate|].
           intros [? _]. discriminate.
        -- cbn [nth_error] in Hn.
           destruct (IH (c + 1) _ i' pass ltac:(lia) Hm' Hn) as [Hk Hcl].
           replace (c + Z.of_nat (S i') + 1) with (c + 1 + Z.of_nat i' + 1) by lia.
           split; assumption.
      * destruct Hh as [cleanup [more [Hl [Hcu Hmore]]]].
        rewrite Hl in Hn. destruct i as [|i'].
        -- injection Hn as <-. split; [simpl; lia|].
           rewrite cleaned_Finalized. cbn [Spec.completed].
           rewrite Go_rem_mod in Hcu by lia.
           replace (c + Z.of_nat 0 + 1) with (c + 1) by lia.
           rewrite Z.eqb_neq in Hcu. split.
           ++ intros Hne. split; [reflexivity|].
              destruct (Z.eq_dec ((c + 1) mod 10) 0) as [E|E]; [exact E|].
              exfalso. apply Hne. apply Hcu. exact E.
           ++ intros [_ E] Hnone. apply Hcu in Hnone. contradiction.
        -- cbn [nth_error] in Hn. destruct Hmore as [->|[fs' ->]].
           ++ destruct i'; discriminate.
           ++ destruct (IH (c + 1) _ i' pass ltac:(lia) Hm' Hn) as [Hk Hcl].
              replace (c + Z.of_nat (S i') + 1) with (c + 1 + Z.of_nat i' + 1)
                by lia.
              split; assumption.
      * rewrite Hh in Hn. destruct i as [|[|]]; try discriminate.
        injection Hn as <-. simpl. split; [lia|]. split; [discriminate|].
        intros [? _]. discriminate.
Qed.

(** When no recording fails, the completed pass number [k] has the
    counter [c + k + 1]. *)
Lemma loop_completed_counters rounds :
  forall c fs k pass,
    0 <= c -> c + Go.len rounds <= Go.max_int ->
    forallb (fun q => negb (Spec.failed q)) (fst (loop sr rounds c fs)) = true ->
    nth_error (filter Spec.completed (fst (loop sr rounds c fs))) k = Some pass ->
    Spec.counter pass = c + Z.of_nat k + 1.
Proof.
  induction rounds as [|r rest IH]; intros c fs k pass H0 Hm Hok Hn.
  - destruct k; discriminate.
  - unfold Go.len in Hm. cbn [List.length] in Hm.
    pose proof (add_one c _ H0 Hm) as Hc.
    assert (c + 1 + Go.len rest <= Go.max_int) as Hm'
        by (unfold Go.len; lia).
    destruct (stop r) eqn:Hstop.
    + rewrite loop_cons in Hn. cbv zeta in Hn. rewrite Hstop in Hn.
      cbn in Hn. destruct k; discriminate.
    + destruct (recordScreen sr (generateFilename sr (now r))
                             (RecordingLength (config sr)) (proc r))
        as [acts out] eqn:Hrec.
      pose proof (loop_head r rest c fs acts out Hstop Hrec) as Hh.
      cbv zeta in Hh. rewrite Hc in Hh.
      destruct out as [[err|]|].
      * rewrite Hh in Hok. discriminate.
      * destruct Hh as [cleanup [more [Hl [_ Hmore]]]].
        rewrite Hl in Hn, Hok. cbn [filter Spec.completed] in Hn.
        cbn [forallb] in Hok. apply andb_true_iff in Hok. destruct Hok as [_ Hok].
        destruct k as [|k'].
        -- injection Hn as <-. simpl. lia.
        -- cbn [nth_error] in Hn. destruct Hmore as [->|[fs' ->]].
           ++ destruct k'; discriminate.
           ++ rewrite (IH (c + 1) _ k' pass ltac:(lia) Hm' Hok Hn). lia.
      * rewrite Hh in Hn. cbn in Hn. destruct k; discriminate.
Qed.

End Loop.

(** C6, as stated, fails: when the first round fails and the nine that
    follow succeed, the cleanup runs in the ninth completed cycle. *)
Lemma cleanup_in_ninth_completed_cycle :
  exists pass,
    nth_error
      (filter Spec.completed
              (fst (main.Start Sample.sr Sample.rounds_one_failure
                               Sample.empty_dir)))
      8
    = Some pass
    /\ Spec.cleaned pass = true
    /\ (Z.of_nat 8 + 1) mod 10 <> 0.
Proof.
  eexists. split; [vm_compute; reflexivity|].
  split; [reflexivity | vm_compute; discriminate].
Qed.

(** C6 (amended): the counter is incremented once in every round of the
    loop, the rounds whose recording failed included, so that it is [i + 1]
    in the round number [i] (from 0); the retention cleanup runs exactly in
    the completed rounds in which the counter is a multiple of 10; and as
    long as no recording fails these are exactly the completed cycles whose
    number is a multiple of 10. *)
Theorem cleanup_every_tenth_round sr rounds fs :
  Go.len rounds <= Go.max_int ->
  (forall i pass,
      nth_error (fst (main.Start sr rounds fs)) i = Some pass ->
      Spec.counter pass = Z.of_nat i + 1
      /\ (Spec.cleaned pass = true <->
          Spec.completed pass = true /\ (Z.of_nat i + 1) mod 10 = 0))
  /\ (forallb (fun q => negb (Spec.failed q)) (fst (main.Start sr rounds fs))
      = true ->
      forall k pass,
        nth_error (filter Spec.completed (fst (main.Start sr rounds fs))) k
        = Some pass ->
        (Spec.cleaned pass = true <-> (Z.of_nat k + 1) mod 10 = 0)).
Proof.
  intros Hm. unfold main.Start. split.
  - intros i pass Hn.
    destruct (loop_counters sr rounds 0 fs i pass ltac:(lia) ltac:(lia) Hn)
      as [Hc Hcl].
    split; [lia | exact Hcl].
  - intros Hok k pass Hn.
    pose proof (loop_completed_counters sr rounds 0 fs k pass
                                        ltac:(lia) ltac:(lia) Hok Hn) as Hk.
    assert (In pass (filter Spec.completed (fst (main.loop sr rounds 0 fs))))
      as Hin by (eapply nth_error_In; exact Hn).
    apply filter_In in Hin. destruct Hin as [Hin Hcomp].
    apply In_nth_error in Hin. destruct Hin as [i Hi].
    destruct (loop_counters sr rounds 0 fs i pass ltac:(lia) ltac:(lia) Hi)
      as [Hc Hcl].
    rewrite Hcl. replace (0 + Z.of_nat i + 1) with (Z.of_nat k + 1) by lia.
    split; [intros [_ H]; exact H | intros H; split; assumption].
Qed.

Lemma cleanup_every_tenth_round_witness :
  forallb (fun q => negb (Spec.cleaned q))
          (fst (main.Start Sample.sr Sample.nine_good Sample.empty_dir))
  = true.
Proof.
  apply forallb_forall. intros pass Hin.
  apply In_nth_error in Hin. destruct Hin as [i Hi].
  pose proof (nth_error_Some
                (fst (main.Start Sample.sr Sample.nine_good Sample.empty_dir)) i)
    as Hlen.
  destruct (proj1 (cleanup_every_tenth_round
                     Sample.sr Sample.nine_good Sample.empty_dir
                     ltac:(vm_compute; discriminate)) i pass Hi) as [_ Hcl].
  destruct (Spec.cleaned pass); [|reflexivity].
  destruct (proj1 Hcl eq_refl) as [_ Hmod].
  assert (i < 9)%nat as Hi9.
  { apply Hlen. congruence. }
  exfalso. clear - Hmod Hi9.
  do 9 (destruct i as [|i]; [vm_compute in Hmod; discriminate|]). lia.
Defined.

(** ** The name of a recording *)

(** The layout of [generateFilename] reads as: the day, the day on two
    digits, the second, a dash, the month on two digits, a dash, the day on
    two digits, an underscore, the hour on two digits, a dash, the hour of
    the 12-hour clock, the second, a dash, the second on two digits.  It has
    no element for the year and none for the minute. *)
Lemma layout_chunks :
  time.chunks "2025-01-02_15-35-05" 0
  = [time.Verb time.stdDay; time.Verb time.stdZeroDay; time.Verb time.stdSecond;
     time.Literal "-"; time.Verb time.stdZeroMonth;
     time.Literal "-"; time.Verb time.stdZeroDay;
     time.Literal "_"; time.Verb time.stdHour;
     time.Literal "-"; time.Verb time.stdHour12; time.Verb time.stdSecond;
     time.Literal "-"; time.Verb time.stdZeroSecond].
Proof. reflexivity. Qed.

(** The layout of the reference time reads as intended. *)
Lemma reference_chunks :
  time.chunks "2006-01-02_15-04-05" 0
  = [time.Verb time.stdLongYear;
     time.Literal "-"; time.Verb time.stdZeroMonth;
     time.Literal "-"; time.Verb time.stdZeroDay;
     time.Literal "_"; time.Verb time.stdHour;
     time.Literal "-"; time.Verb time.stdZeroMinute;
     time.Literal "-"; time.Verb time.stdZeroSecond].
Proof. reflexivity. Qed.

(** The name depends on the day, the month, the hour and the second of the
    reading only. *)
Lemma generateFilename_fields sr t1 t2 :
  time.Day t1 = time.Day t2 ->
  time.Month t1 = time.Month t2 ->
  time.Hour t1 = time.Hour t2 ->
  time.Second t1 = time.Second t2 ->
  main.generateFilename sr t1 = main.generateFilename sr t2.
Proof.
  intros Hd Hm Hh Hs. unfold main.generateFilename, time.Format.
  rewrite layout_chunks. cbn [map time.render]. unfold time.hour12.
  rewrite Hd, Hm, Hh, Hs. reflexivity.
Qed.

(** C7: two readings of the clock one minute apart, in different whole
    seconds, are given the same path. *)
Theorem generateFilename_collision :
  time.valid (Sample.clock 9 5) = true
  /\ time.valid (Sample.clock 10 5) = true
  /\ time.Unix (Sample.clock 10 5) = time.Unix (Sample.clock 9 5) + 60
  /\ main.generateFilename Sample.sr (Sample.clock 9 5)
     = "/home/user/recordings/7075-03-07_14-25-05.mkv"
  /\ main.generateFilename Sample.sr (Sample.clock 10 5)
     = "/home/user/recordings/7075-03-07_14-25-05.mkv"
  /\ time.Format (Sample.clock 9 5) "2006-01-02_15-04-05" = "2024-03-07_14-09-05"
  /\ time.Format (Sample.clock 10 5) "2006-01-02_15-04-05" = "2024-03-07_14-10-05".
Proof.
  repeat split; vm_compute; reflexivity.
Qed.

(** ** Sorting *)

Section Sorting.

Variable A : Type.
Variable lt : A -> A -> bool.
Variable key : A -> Z.

Lemma insert_perm x l : Permutation (x :: l) (main.insert lt x l).
Proof.
  induction l as [|y t IH]; simpl.
  - apply Permutation_refl.
  - destruct (lt y x).
    + eapply Permutation_trans; [apply perm_swap|].
      apply perm_skip. exact IH.
    + apply Permutation_refl.
Qed.

Lemma sort_Slice_perm l : Permutation l (main.sort_Slice l lt).
Proof.
  unfold main.sort_Slice. induction l as [|x t IH]; simpl.
  - apply perm_nil.
  - eapply Permutation_trans; [apply perm_skip; exact IH|].
    apply insert_perm.
Qed.

Lemma sort_Slice_In l x : In x (main.sort_Slice l lt) <-> In x l.
Proof.
  split; apply Permutation_in;
    [apply Permutation_sym|]; apply sort_Slice_perm.
Qed.

Lemma insert_sorted x l :
  (forall a b, In a (x :: l) -> In b (x :: l) -> lt a b = (key a <? key b)) ->
  StronglySorted (fun a b => key a <= key b) l ->
  StronglySorted (fun a b => key a <= key b) (main.insert lt x l).
Proof.
  induction l as [|y t IH]; intros Hlt Hs; simpl.
  - constructor; constructor.
  - inversion Hs as [|? ? Ht Hy]; subst.
    destruct (lt y x) eqn:E.
    + rewrite Hlt in E by (simpl; auto). apply Z.ltb_lt in E.
      constructor.
      * apply IH; [|exact Ht].
        intros a b Ha Hb. apply Hlt; simpl in *; tauto.
      * eapply Permutation_Forall; [apply insert_perm|].
        constructor; [lia | exact Hy].
    + rewrite Hlt in E by (simpl; auto). apply Z.ltb_ge in E.
      constructor; [exact Hs|].
      constructor; [exact E|].
      eapply Forall_impl; [|exact Hy]. simpl. intros a Ha. lia.
Qed.

(** On paths compared by their keys the result is in ascending order. *)
Lemma sort_Slice_sorted l :
  (forall a b, In a l -> In b l -> lt a b = (key a <? key b)) ->
  StronglySorted (fun a b => key a <= key b) (main.sort_Slice l lt).
Proof.
  unfold main.sort_Slice. induction l as [|x t IH]; intros Hlt; simpl.
  - constructor.
  - apply insert_sorted.
    + intros a b Ha Hb. apply Hlt.
      * destruct Ha as [->|Ha]; [left; reflexivity|].
        right. apply (sort_Slice_In t a). exact Ha.
      * destruct Hb as [->|Hb]; [left; reflexivity|].
        right. apply (sort_Slice_In t b). exact Hb.
    + apply IH. intros a b Ha Hb. apply Hlt; right; assumption.
Qed.

Lemma sorted_app (R : A -> A -> Prop) l1 l2 :
  StronglySorted R (l1 ++ l2) ->
  forall a b, In a l1 -> In b l2 -> R a b.
Proof.
  induction l1 as [|x t IH]; simpl; intros Hs a b Ha Hb; [contradiction|].
  inversion Hs as [|? ? Ht Hx]; subst.
  destruct Ha as [->|Ha].
  - rewrite Forall_forall in Hx. apply Hx. apply in_or_app. right. exact Hb.
  - apply IH; assumption.
Qed.

Lemma sorted_strict l :
  NoDup (map key l) ->
  StronglySorted (fun a b => key a <= key b) l ->
  StronglySorted (fun a b => key a < key b) l.
Proof.
  induction l as [|x t IH]; intros Hn Hs; [constructor|].
  inversion Hs as [|? ? Ht Hx]; subst.
  simpl in Hn. inversion Hn as [|? ? Hnx Hnt]; subst.
  constructor; [apply IH; assumption|].
  rewrite Forall_forall in *. intros a Ha.
  specialize (Hx a Ha). simpl in Hx.
  assert (key a <> key x).
  { intros E. apply Hnx. rewrite <- E. apply in_map. exact Ha. }
  lia.
Qed.

(** Two strictly ascending arrangements of the same elements are equal. *)
Lemma sorted_perm_unique l1 :
  forall l2,
    StronglySorted (fun a b => key a < key b) l1 ->
    StronglySorted (fun a b => key a < key b) l2 ->
    Permutation l1 l2 -> l1 = l2.
Proof.
  induction l1 as [|x t IH]; intros l2 H1 H2 Hp.
  - apply Permutation_nil in Hp. subst. reflexivity.
  - destruct l2 as [|y u].
    + apply Permutation_sym, Permutation_nil in Hp. discriminate.
    + inversion H1 as [|? ? Ht Hx]; subst.
      inversion H2 as [|? ? Hu Hy]; subst.
      rewrite Forall_forall in Hx, Hy.
      assert (x = y) as ->.
      { assert (In x (y :: u)) as Ix
            by (eapply Permutation_in; [exact Hp | left; reflexivity]).
        assert (In y (x :: t)) as Iy
            by (eapply Permutation_in;
                [apply Permutation_sym; exact Hp | left; reflexivity]).
        destruct Ix as [->|Ix]; [reflexivity|].
        destruct Iy as [->|Iy]; [reflexivity|].
        specialize (Hx y Iy). specialize (Hy x Ix). simpl in *. lia. }
      f_equal. apply IH; try assumption.
      eapply Permutation_cons_inv. exact Hp.
Qed.

(** On distinct keys every sorting method returns what [sort_Slice]
    returns. *)
Lemma sort_Slice_unique l l' :
  NoDup (map key l) ->
  (forall a b, In a l -> In b l -> lt a b = (key a <? key b)) ->
  Permutation l l' ->
  StronglySorted (fun a b => key a < key b) l' ->
  l' = main.sort_Slice l lt.
Proof.
  intros Hn Hlt Hp Hs. apply sorted_perm_unique.
  - exact Hs.
  - apply sorted_strict.
    + eapply Permutation_NoDup; [|exact Hn].
      apply Permutation_map. apply sort_Slice_perm.
    + apply sort_Slice_sorted. exact Hlt.
  - eapply Permutation_trans; [apply Permutation_sym; exact Hp|].
    apply sort_Slice_perm.
Qed.

End Sorting.

(** ** Unlinking *)

Section Unlinking.

Import os.

Lemma mem_In p l : Spec.mem p l = true <-> In p l.
Proof.
  unfold Spec.mem. rewrite existsb_exists. split.
  - intros [x [Hx E]]. apply String.eqb_eq in E. subst. exact Hx.
  - intros H. exists p. split; [exact H | apply String.eqb_refl].
Qed.

Lemma mem_false p l : Spec.mem p l = false <-> ~ In p l.
Proof.
  rewrite <- mem_In. destruct (Spec.mem p l); split; congruence.
Qed.

Lemma mem_app p l1 l2 :
  Spec.mem p (l1 ++ l2) = Spec.mem p l1 || Spec.mem p l2.
Proof. unfold Spec.mem. apply existsb_app. Qed.

Lemma distinct_times_NoDup l : Spec.distinct_times l = true <-> NoDup l.
Proof.
  induction l as [|x t IH]; simpl.
  - split; [constructor | reflexivity].
  - rewrite andb_true_iff, negb_true_iff, IH. split.
    + intros [Hx Ht]. constructor; [|exact Ht].
      intros Hin. assert (existsb (Z.eqb x) t = true) as E.
      { apply existsb_exists. exists x. split; [exact Hin | apply Z.eqb_refl]. }
      congruence.
    + intros H. inversion H as [|? ? Hx Ht]; subst. split; [|exact Ht].
      destruct (existsb (Z.eqb x) t) eqn:E; [|reflexivity].
      apply existsb_exists in E. destruct E as [y [Hy Exy]].
      apply Z.eqb_eq in Exy. subst y. contradiction.
Qed.

Lemma filter_filter A (f g : A -> bool) l :
  filter f (filter g l) = filter (fun x => g x && f x) l.
Proof.
  induction l as [|x t IH]; simpl; [reflexivity|].
  destruct (g x); simpl; [destruct (f x)|]; rewrite IH; reflexivity.
Qed.

Lemma skipn_nth A (l : list A) :
  forall i x, nth_error l i = Some x -> skipn i l = x :: skipn (S i) l.
Proof.
  induction l as [|y t IH]; intros [|i] x H; simpl in *; try discriminate.
  - injection H as ->. reflexivity.
  - apply IH. exact H.
Qed.

Lemma minus_nil fs : Spec.minus fs [] = fs.
Proof.
  unfold Spec.minus. simpl. rewrite filter_true. destruct fs; reflexivity.
Qed.

Lemma minus_minus fs l1 l2 :
  Spec.minus (Spec.minus fs l1) l2 = Spec.minus fs (l1 ++ l2).
Proof.
  unfold Spec.minus. simpl. f_equal. rewrite filter_filter.
  apply filter_ext. intros g. unfold path_of. simpl.
  rewrite mem_app, negb_orb. reflexivity.
Qed.

Lemma Remove_success fs p fs' :
  Remove fs p = (fs', None) -> fs' = Spec.minus fs [p].
Proof.
  unfold Remove. destruct (lookup fs p) as [f|]; [|discriminate].
  destruct (remove_fault f); [discriminate|].
  intros [= <-]. unfold Spec.minus. f_equal.
  apply filter_ext. intros g. unfold at_path, Spec.mem. simpl.
  rewrite orb_false_r. reflexivity.
Qed.

Lemma Remove_failure fs p fs' e :
  Remove fs p = (fs', Some e) -> fs' = fs.
Proof.
  unfold Remove. destruct (lookup fs p) as [f|]; [|congruence].
  destruct (remove_fault f); [congruence | discriminate].
Qed.

(** Unlinking keeps the root and every entry at another path. *)
Lemma Remove_keeps fs p fs' err :
  Remove fs p = (fs', err) ->
  root fs' = root fs
  /\ forall g, In g (entries fs) -> path_of fs g <> p -> In g (entries fs').
Proof.
  destruct err as [e|]; intros H.
  - apply Remove_failure in H. subst. auto.
  - apply Remove_success in H. subst. split; [reflexivity|].
    intros g Hg Hp. unfold Spec.minus. cbn [entries]. apply filter_In.
    split; [exact Hg|]. apply negb_true_iff. apply mem_false.
    simpl. intros [E|[]]. congruence.
Qed.

(** Paths that are not unlinked resolve as before. *)
Lemma lookup_minus fs l q :
  Spec.mem q l = false -> lookup (Spec.minus fs l) q = lookup fs q.
Proof.
  intros Hq. unfold lookup, Spec.minus. simpl.
  induction (entries fs) as [|g t IH]; simpl; [reflexivity|].
  destruct (negb (Spec.mem (path_of fs g) l)) eqn:K; simpl.
  - unfold at_path at 1 3. unfold path_of at 1. simpl root.
    fold (path_of fs g). destruct (String.eqb (path_of fs g) q); [reflexivity|].
    exact IH.
  - unfold at_path at 2. destruct (String.eqb (path_of fs g) q) eqn:E.
    + apply String.eqb_eq in E. rewrite E in K.
      rewrite Hq in K. discriminate.
    + exact IH.
Qed.

Lemma marked_at_minus fs l name q :
  Spec.mem q l = false ->
  Spec.marked_at (Spec.minus fs l) name q = Spec.marked_at fs name q.
Proof.
  intros Hq. unfold Spec.marked_at, Stat, attributes.HasMarker, xattr.Getxattr.
  rewrite (lookup_minus fs l q Hq). reflexivity.
Qed.

(** The scan after unlinking: what the scan found before, without the
    unlinked paths. *)
Lemma GetFilesWithMarker_minus fs l d name :
  attributes.GetFilesWithMarker (Spec.minus fs l) d name
  = (filter (fun p => negb (Spec.mem p l))
            (fst (attributes.GetFilesWithMarker fs d name)),
     snd (attributes.GetFilesWithMarker fs d name)).
Proof.
  pose proof (marked_at_minus fs l name) as Hmark.
  pose proof (scan_filter (Spec.minus fs l) name
                          (entries (Spec.minus fs l)) []) as Hscan.
  assert (forall g, path_of (Spec.minus fs l) g = path_of fs g) as Hpath
      by reflexivity.
  assert (entries (Spec.minus fs l)
          = filter (fun g => negb (Spec.mem (path_of fs g) l)) (entries fs))
    as Hent by reflexivity.
  assert (root (Spec.minus fs l) = root fs) as Hroot by reflexivity.
  assert (list_fault (Spec.minus fs l) = list_fault fs) as Hlf by reflexivity.
  unfold attributes.GetFilesWithMarker, ReadDir. rewrite Hroot, Hlf.
  rewrite Hroot in Hscan. generalize dependent (Spec.minus fs l). intros fs'.
  intros Hmark Hscan Hpath Hent _ _.
  destruct (String.eqb d (root fs)) eqn:E; [|reflexivity].
  apply String.eqb_eq in E. subst d.
  destruct (list_fault fs); [reflexivity|].
  rewrite Hscan, scan_filter. cbn [fst snd app].
  rewrite filter_map_swap, Hent, !filter_filter.
  rewrite (map_ext _ _ Hpath).
  apply (f_equal (fun x : list string => (x, @None GoError))).
  apply (f_equal (map (path_of fs))).
  apply filter_ext. intros g. rewrite Hpath.
  destruct (Spec.mem (path_of fs g) l) eqn:M; cbn [negb andb].
  - rewrite andb_false_r. reflexivity.
  - rewrite andb_true_r. rewrite (Hmark _ M). reflexivity.
Qed.

End Unlinking.

(** ** Retention *)

Section Retention.

Import os main.

Lemma NoDup_app_disjoint A (l1 l2 : list A) :
  NoDup (l1 ++ l2) -> forall a, In a l1 -> ~ In a l2.
Proof.
  induction l1 as [|x t IH]; simpl; intros H a Ha Hb; [contradiction|].
  inversion H as [|? ? Hx Ht]; subst. destruct Ha as [->|Ha].
  - apply Hx. apply in_or_app. right. exact Hb.
  - exact (IH Ht a Ha Hb).
Qed.

(** What a scan that returned found. *)
Lemma GetFilesWithMarker_ok fs d name files :
  attributes.GetFilesWithMarker fs d name = (files, None) ->
  d = root fs
  /\ forall p, In p files ->
               Spec.marked_at fs name p = true
               /\ exists e, In e (entries fs) /\ path_of fs e = p.
Proof.
  unfold attributes.GetFilesWithMarker, ReadDir.
  destruct (String.eqb d (root fs)) eqn:E; [|discriminate].
  apply String.eqb_eq in E. subst d.
  destruct (list_fault fs); [discriminate|].
  rewrite scan_filter. cbn [app]. intros [= <-]. split; [reflexivity|].
  intros p Hp. apply in_map_iff in Hp. destruct Hp as [e [He Hf]].
  apply filter_In in Hf. destruct Hf as [Hin Hm].
  apply andb_true_iff in Hm. destruct Hm as [_ Hm]. subst p.
  split; [exact Hm|]. exists e. split; [exact Hin | reflexivity].
Qed.

(** On marked paths the comparison of [cleanupOldFiles] compares the
    modification times. *)
Lemma less_modtime fs name a b :
  Spec.marked_at fs name a = true ->
  Spec.marked_at fs name b = true ->
  less fs a b = (Spec.modtime fs a <? Spec.modtime fs b).
Proof.
  unfold Spec.marked_at, less, Spec.modtime.
  destruct (Stat fs a); [|discriminate].
  destruct (Stat fs b); [|discriminate]. reflexivity.
Qed.

(** The calls of the loop are on paths of [files], and an entry at none of
    these paths stays. *)
Lemma remove_excess_calls files n :
  forall i fs calls fs' calls' c,
    remove_excess files i n fs calls = (fs', calls', c) ->
    exists new,
      calls' = (calls ++ new)%list
      /\ (forall call, In call new -> In (fst call) files)
      /\ root fs' = root fs
      /\ (forall g, In g (entries fs) ->
                    ~ In (path_of fs g) (map fst new) ->
                    In g (entries fs')).
Proof.
  induction n as [|n IH]; intros i fs calls fs' calls' c H; simpl in H.
  - injection H as <- <- <-. exists []. rewrite app_nil_r.
    repeat split; auto. intros call [].
  - destruct (nth_error files i) as [f|] eqn:N.
    + destruct (Remove fs f) as [fs1 err] eqn:R.
      destruct (IH _ _ _ _ _ _ H) as [new [Hc [Hin [Hroot Hkeep]]]].
      destruct (Remove_keeps _ _ _ _ R) as [Hr1 Hk1].
      exists ((f, err) :: new). rewrite <- app_assoc in Hc.
      split; [exact Hc|]. split; [|split].
      * intros call [<-|Hcall]; [|auto].
        simpl. eapply nth_error_In. exact N.
      * congruence.
      * intros g Hg Hnot. apply Hkeep.
        -- apply Hk1; [exact Hg|]. intros E. apply Hnot. left. simpl. auto.
        -- intros Hin'. apply Hnot. right. unfold path_of in *.
           rewrite Hr1 in Hin'. exact Hin'.
    + injection H as <- <- <-. exists []. rewrite app_nil_r.
      repeat split; auto. intros call [].
Qed.

(** When the slice is long enough the loop returns; it calls [os.Remove]
    on the [n] paths from the index [i] on, and when every call succeeds
    it leaves the file system without them. *)
Lemma remove_excess_done files n :
  forall i fs calls fs' calls' c,
    remove_excess files i n fs calls = (fs', calls', c) ->
    (i + n <= List.length files)%nat ->
    c = Return None
    /\ exists new,
        calls' = (calls ++ new)%list
        /\ map fst new = firstn n (skipn i files)
        /\ (Spec.succeeded new = true -> fs' = Spec.minus fs (map fst new)).
Proof.
  induction n as [|n IH]; intros i fs calls fs' calls' c H Hlen; simpl in H.
  - injection H as <- <- <-. split; [reflexivity|]. exists [].
    rewrite app_nil_r. repeat split; auto.
    intros _. simpl. symmetry. apply minus_nil.
  - destruct (nth_error files i) as [f|] eqn:N.
    + destruct (Remove fs f) as [fs1 err] eqn:R.
      destruct (IH _ _ _ _ _ _ H ltac:(lia)) as [Hc [new [Hcalls [Hmap Hok]]]].
      split; [exact Hc|]. exists ((f, err) :: new).
      rewrite <- app_assoc in Hcalls. split; [exact Hcalls|]. split.
      * rewrite (skipn_nth _ files i f N). simpl. rewrite Hmap. reflexivity.
      * unfold Spec.succeeded. cbn [forallb snd map fst].
        intros Hs. apply andb_true_iff in Hs. destruct Hs as [He Hs].
        destruct err; [discriminate|].
        apply Remove_success in R. rewrite (Hok Hs), R.
        apply minus_minus.
    + exfalso. apply nth_error_None in N. lia.
Qed.

End Retention.

Section RetentionClaims.

Import os main.

(** The eviction on a sorted slice: with [n] the number of paths to
    remove, the paths that remain are the last ones. *)
Lemma evicted_split (files sorted : list string) n :
  NoDup files ->
  Permutation files sorted ->
  (n <= List.length sorted)%nat ->
  let R := firstn n sorted in
  let K := skipn n sorted in
  let files' := filter (fun p => negb (Spec.mem p R)) files in
  (forall p, In p files' <-> In p K)
  /\ (forall p, In p files -> ~ In p files' -> In p R)
  /\ (List.length files' + n = List.length files)%nat.
Proof.
  intros Hnd Hperm Hn R K files'.
  assert (sorted = (R ++ K)%list) as Hsplit
      by (symmetry; apply firstn_skipn).
  assert (NoDup (R ++ K)) as Hnd'.
  { rewrite <- Hsplit. eapply Permutation_NoDup; eassumption. }
  assert (forall p, In p files <-> In p R \/ In p K) as Hin.
  { intros p. rewrite <- in_app_iff, <- Hsplit. split.
    - apply Permutation_in. exact Hperm.
    - apply Permutation_in. apply Permutation_sym. exact Hperm. }
  assert (forall p, In p files' <-> In p K) as Hk.
  { intros p. unfold files'. rewrite filter_In, negb_true_iff, mem_false, Hin.
    split.
    - intros [[Hr|Hk] Hnr]; [contradiction | exact Hk].
    - intros Hk. split; [right; exact Hk|].
      intros Hr. exact (NoDup_app_disjoint _ _ _ Hnd' p Hr Hk). }
  split; [exact Hk|]. split.
  - intros p Hp Hnp. apply Hin in Hp. destruct Hp as [Hr|Hp]; [exact Hr|].
    exfalso. apply Hnp. apply Hk. exact Hp.
  - assert (Permutation files' K) as Hpk.
    { apply NoDup_Permutation.
      - apply NoDup_filter. exact Hnd.
      - eapply NoDup_app_remove_l. exact Hnd'.
      - exact Hk. }
    rewrite (Permutation_length Hpk), (Permutation_length Hperm).
    unfold K. rewrite length_skipn. lia.
Qed.

(** C1 (amended): for the marked files the scan returns, with distinct
    modification times, a cleanup pass returns without error and calls
    [os.Remove] on exactly the count minus [max_files] oldest of them, once
    each: the calls are that many, on different paths of the scan, and no
    path that is called is newer than one that is not (it calls on none,
    leaving the file system as it is, when the count is at most
    [max_files]); and when none of these removals fails, afterwards the
    number of marked files is at most [max_files] (the smaller of the
    former count and [max_files]), the marked files are the former ones
    without the removed ones, and the modification time of every remaining
    file is greater than or equal to that of every removed file. *)
Theorem retention_bound sr fs files fs' calls c :
  0 <= MaxFiles (config sr) ->
  attributes.GetFilesWithMarker fs (RecordingsDir (config sr))
                                attributeMarkerName = (files, None) ->
  Go.fits (Go.len files) = true ->
  Spec.distinct_times (map (Spec.modtime fs) files) = true ->
  cleanupOldFiles sr fs = (fs', calls, c) ->
  c = Return None
  /\ Go.len calls = Z.max 0 (Go.len files - MaxFiles (config sr))
  /\ (forall r, In r (map fst calls) -> In r files)
  /\ NoDup (map fst calls)
  /\ (forall r k,
         In r (map fst calls) -> In k files -> ~ In k (map fst calls) ->
         Spec.modtime fs r <= Spec.modtime fs k)
  /\ (Go.len files <= MaxFiles (config sr) -> calls = [] /\ fs' = fs)
  /\ (Spec.succeeded calls = true ->
      exists files',
        attributes.GetFilesWithMarker fs' (RecordingsDir (config sr))
                                      attributeMarkerName = (files', None)
        /\ Go.len files' <= MaxFiles (config sr)
        /\ Go.len files' = Z.min (Go.len files) (MaxFiles (config sr))
        /\ (forall p, In p files' <-> In p files /\ ~ In p (map fst calls))
        /\ (forall r k,
               In r files -> ~ In r files' -> In k files' ->
               Spec.modtime fs r <= Spec.modtime fs k)).
Proof.
  intros Hmax Hscan Hfit Hdist Hclean.
  unfold cleanupOldFiles in Hclean. rewrite Hscan in Hclean.
  destruct (Go.len files <=? MaxFiles (config sr)) eqn:Hle.
  - injection Hclean as <- <- <-. apply Z.leb_le in Hle.
    split; [reflexivity|].
    split; [unfold Go.len in *; simpl; lia|].
    split; [intros r []|]. split; [constructor|]. split; [intros r k []|].
    split; [intros _; split; reflexivity|].
    intros _. exists files.
    split; [exact Hscan|]. split; [exact Hle|]. split; [lia|].
    split; [simpl; tauto|]. intros r k Hr Hnr; contradiction.
  - apply Z.leb_gt in Hle.
    pose proof (sort_Slice_perm _ (less fs) files) as Hperm.
    remember (sort_Slice files (less fs)) as sorted eqn:Hsorted.
    assert (Go.len sorted = Go.len files) as Hlen.
    { unfold Go.len. rewrite (Permutation_length Hperm). reflexivity. }
    rewrite Hlen in Hclean.
    assert (Go.sub (Go.len files) (MaxFiles (config sr))
            = Go.len files - MaxFiles (config sr)) as Hsub.
    { unfold Go.sub. apply wrap_small. apply fits_bounds in Hfit.
      unfold Go.min_int in *. lia. }
    rewrite Hsub in Hclean.
    remember (Z.to_nat (Go.len files - MaxFiles (config sr))) as n eqn:Hn.
    assert (Z.of_nat n = Go.len files - MaxFiles (config sr)) as Hn'
        by (subst n; apply Z2Nat.id; lia).
    assert (n <= List.length sorted)%nat as Hnlen.
    { unfold Go.len in *. lia. }
    destruct (remove_excess_done sorted n 0 fs [] fs' calls c Hclean
                                 ltac:(lia))
      as [Hc [new [Hcalls [Hmap Hfs]]]].
    cbn [app skipn] in Hcalls, Hmap. subst new.
    assert (NoDup files) as Hnd.
    { apply (NoDup_map_inv (Spec.modtime fs)).
      apply distinct_times_NoDup. exact Hdist. }
    destruct (evicted_split files sorted n Hnd Hperm Hnlen)
      as [Hk [Hr Hcount]].
    assert (forall p, In p (filter (fun p => negb (Spec.mem p (firstn n sorted)))
                                   files)
                      <-> In p files /\ ~ In p (map fst calls)) as Hrest.
    { intros p. rewrite Hmap, filter_In, negb_true_iff, mem_false. tauto. }
    assert (forall r k,
               In r (firstn n sorted) -> In k (skipn n sorted) ->
               Spec.modtime fs r <= Spec.modtime fs k) as Hord.
    { assert (StronglySorted
                (fun a b => Spec.modtime fs a <= Spec.modtime fs b) sorted)
        as Hs.
      { rewrite Hsorted. apply sort_Slice_sorted.
        intros a b Ha Hb.
        destruct (GetFilesWithMarker_ok _ _ _ _ Hscan) as [_ Hm].
        apply (less_modtime fs attributeMarkerName); apply Hm; assumption. }
      rewrite <- (firstn_skipn n sorted) in Hs.
      intros r k. apply (sorted_app _ _ _ _ Hs). }
    split; [exact Hc|]. split.
    { unfold Go.len.
      replace (List.length calls) with (List.length (map fst calls))
        by apply length_map.
      rewrite Hmap, length_firstn. unfold Go.len in *. lia. }
    split.
    { intros r Hin. rewrite Hmap in Hin.
      apply (Permutation_in r (Permutation_sym Hperm)).
      rewrite <- (firstn_skipn n sorted). apply in_or_app. left. exact Hin. }
    split.
    { rewrite Hmap. apply (NoDup_app_remove_r _ (skipn n sorted)).
      rewrite firstn_skipn. eapply Permutation_NoDup; eassumption. }
    split.
    { intros r k Hin Hfile Hnot. rewrite Hmap in Hin. apply Hord; [exact Hin|].
      apply Hk. apply Hrest. split; assumption. }
    split; [intros; lia|].
    intros Hok. specialize (Hfs Hok). rewrite Hmap in Hfs.
    exists (filter (fun p => negb (Spec.mem p (firstn n sorted))) files).
    split.
    { rewrite Hfs, GetFilesWithMarker_minus, Hscan. reflexivity. }
    assert (Go.len (filter (fun p => negb (Spec.mem p (firstn n sorted))) files)
            = MaxFiles (config sr)) as Hnew.
    { unfold Go.len in *. lia. }
    split; [lia|]. split; [lia|]. split; [exact Hrest|].
    intros r k Hin Hnot Hkept. apply Hord.
    + apply Hr; assumption.
    + apply Hk. exact Hkept.
Qed.

Lemma retention_bound_witness :
  exists files',
    attributes.GetFilesWithMarker
      (Spec.minus Sample.fs_three ["/home/user/recordings/a.mkv"])
      Sample.dir "dashcam" = (files', None)
    /\ Go.len files' <= 2.
Proof.
  destruct (retention_bound
              Sample.sr Sample.fs_three
              ["/home/user/recordings/b.mkv"; "/home/user/recordings/a.mkv";
               "/home/user/recordings/c.mkv"]
              (Spec.minus Sample.fs_three ["/home/user/recordings/a.mkv"])
              [("/home/user/recordings/a.mkv", None)]
              (Return None)
              ltac:(vm_compute; discriminate)
              eq_refl eq_refl eq_refl eq_refl)
    as [_ [_ [_ [_ [_ [_ H]]]]]].
  destruct (H eq_refl) as [files' [H1 [H2 _]]].
  exists files'. split; [exact H1 | exact H2].
Defined.

(** C1, as stated, fails: with [max_files] 1 and three marked files of
    which the oldest cannot be unlinked, the pass leaves two marked files,
    and the oldest file, which remains, is older than the one removed. *)
Lemma retention_exceeded_when_removal_fails :
  attributes.GetFilesWithMarker Sample.fs_busy Sample.dir "dashcam"
  = (["/home/user/recordings/a.mkv"; "/home/user/recordings/b.mkv";
      "/home/user/recordings/c.mkv"], None)
  /\ Spec.distinct_times
       (map (Spec.modtime Sample.fs_busy)
            ["/home/user/recordings/a.mkv"; "/home/user/recordings/b.mkv";
             "/home/user/recordings/c.mkv"]) = true
  /\ exists fs' calls,
      cleanupOldFiles Sample.sr_one Sample.fs_busy = (fs', calls, Return None)
      /\ attributes.GetFilesWithMarker fs' Sample.dir "dashcam"
         = (["/home/user/recordings/a.mkv"; "/home/user/recordings/c.mkv"], None)
      /\ MaxFiles (config Sample.sr_one) = 1
      /\ Spec.modtime Sample.fs_busy "/home/user/recordings/a.mkv" = 10
      /\ Spec.modtime Sample.fs_busy "/home/user/recordings/b.mkv" = 20.
Proof.
  split; [vm_compute; reflexivity|]. split; [vm_compute; reflexivity|].
  eexists. eexists. split; [vm_compute; reflexivity|].
  repeat split; vm_compute; reflexivity.
Qed.

(** A path the scan returns resolves to an entry that carries the
    marker. *)
Lemma scanned_carries fs d name p :
  In p (fst (attributes.GetFilesWithMarker fs d name)) ->
  exists g, lookup fs p = Some g /\ Spec.carries name g = true.
Proof.
  unfold attributes.GetFilesWithMarker, ReadDir.
  destruct (String.eqb d (root fs)) eqn:E; [|intros []].
  apply String.eqb_eq in E. subst d.
  destruct (list_fault fs); [intros []|].
  rewrite scan_filter. cbn [fst app]. intros Hp.
  apply in_map_iff in Hp. destruct Hp as [e [He Hf]].
  apply filter_In in Hf. destruct Hf as [_ Hm].
  apply andb_true_iff in Hm. destruct Hm as [_ Hm]. rewrite He in Hm.
  apply marked_at_true in Hm. destruct Hm as [g [info [Lg [_ [_ Cg]]]]].
  exists g. split; assumption.
Qed.

Lemma unmarked_not_carries name f :
  Spec.unmarked name f = true -> Spec.carries name f = false.
Proof.
  unfold Spec.unmarked, Spec.carries, Spec.readable_value.
  destruct (read_fault f); [reflexivity|].
  destruct (xattr.get (xattrs f) ("user." ++ name)) as [v|]; [|reflexivity].
  destruct (Z.of_nat (String.length v) <=? 256); [|reflexivity].
  intros ->. reflexivity.
Qed.

(** The calls of [os.Remove] of a cleanup pass are on paths the scan
    returned, and an entry at none of these paths stays in the directory. *)
Lemma cleanup_calls sr fs fs' calls c :
  cleanupOldFiles sr fs = (fs', calls, c) ->
  (forall call,
      In call calls ->
      In (fst call)
         (fst (attributes.GetFilesWithMarker fs (RecordingsDir (config sr))
                                             attributeMarkerName)))
  /\ (forall g, In g (entries fs) ->
                ~ In (path_of fs g) (map fst calls) ->
                In g (entries fs')).
Proof.
  unfold cleanupOldFiles.
  destruct (attributes.GetFilesWithMarker fs (RecordingsDir (config sr))
                                          attributeMarkerName)
    as [files [err|]].
  - intros [= <- <- <-]. split; [intros call []|auto].
  - destruct (Go.len files <=? MaxFiles (config sr)).
    + intros [= <- <- <-]. split; [intros call []|auto].
    + intros H. apply remove_excess_calls in H.
      destruct H as [new [Hc [Hin [_ Hkeep]]]]. cbn [app] in Hc. subst new.
      split; [|exact Hkeep].
      intros call Hcall. cbn [fst]. apply Hin in Hcall.
      apply (sort_Slice_In _ (less fs) files). exact Hcall.
Qed.

(** C2: a file of the directory that does not carry the marker attribute
    with a non-empty value is not among the paths the cleanup counts, no
    call of [os.Remove] is made on it, and it is still in the directory
    after the pass, whatever its modification time; every call of
    [os.Remove] is on a path the scan of marked files returned. *)
Theorem untracked_files_inert sr fs f fs' calls c :
  wf fs = true ->
  In f (entries fs) ->
  Spec.unmarked attributeMarkerName f = true ->
  cleanupOldFiles sr fs = (fs', calls, c) ->
  ~ In (path_of fs f)
       (fst (attributes.GetFilesWithMarker fs (RecordingsDir (config sr))
                                           attributeMarkerName))
  /\ ~ In (path_of fs f) (map fst calls)
  /\ In f (entries fs')
  /\ (forall call,
         In call calls ->
         In (fst call)
            (fst (attributes.GetFilesWithMarker fs (RecordingsDir (config sr))
                                                attributeMarkerName))).
Proof.
  intros Hwf Hin Hun Hclean.
  destruct (cleanup_calls _ _ _ _ _ Hclean) as [Hcalls Hkeep].
  assert (~ In (path_of fs f)
            (fst (attributes.GetFilesWithMarker fs (RecordingsDir (config sr))
                                                attributeMarkerName)))
    as Hscan.
  { intros Hp. apply scanned_carries in Hp. destruct Hp as [g [Lg Cg]].
    rewrite (lookup_entry fs f Hwf Hin) in Lg. injection Lg as <-.
    rewrite (unmarked_not_carries _ _ Hun) in Cg. discriminate. }
  assert (~ In (path_of fs f) (map fst calls)) as Hnot.
  { intros Hp. apply in_map_iff in Hp. destruct Hp as [call [E Hcall]].
    apply Hscan. rewrite <- E. apply Hcalls. exact Hcall. }
  split; [exact Hscan|]. split; [exact Hnot|].
  split; [apply Hkeep; assumption | exact Hcalls].
Qed.

Lemma untracked_files_inert_witness :
  In (Sample.regular "notes.txt" 1 [])
     (entries (Spec.minus Sample.fs_three ["/home/user/recordings/a.mkv"])).
Proof.
  refine (proj1 (proj2 (proj2
            (untracked_files_inert
               Sample.sr Sample.fs_three (Sample.regular "notes.txt" 1 [])
               (Spec.minus Sample.fs_three ["/home/user/recordings/a.mkv"])
               [("/home/user/recordings/a.mkv", None)] (Return None)
               eq_refl _ eq_refl eq_refl)))).
  left. reflexivity.
Defined.

End RetentionClaims.

(** * Further properties of the code *)

(** ** Setting, reading and removing a marker *)

Section Markers.

Import os.

Lemma get_set_same xs attr v : xattr.get (xattr.set xs attr v) attr = Some v.
Proof. unfold xattr.set. simpl. rewrite String.eqb_refl. reflexivity. Qed.

Lemma get_remove_other xs attr attr' :
  attr' <> attr -> xattr.get (xattr.remove xs attr) attr' = xattr.get xs attr'.
Proof.
  intros Hne. induction xs as [|[k v] t IH]; simpl; [reflexivity|].
  destruct (String.eqb k attr) eqn:E; simpl.
  - apply String.eqb_eq in E. subst k.
    destruct (String.eqb attr attr') eqn:E'; [|exact IH].
    apply String.eqb_eq in E'. congruence.
  - destruct (String.eqb k attr'); [reflexivity | exact IH].
Qed.

Lemma get_set_other xs attr attr' v :
  attr' <> attr -> xattr.get (xattr.set xs attr v) attr' = xattr.get xs attr'.
Proof.
  intros Hne. unfold xattr.set. simpl.
  destruct (String.eqb attr attr') eqn:E.
  - apply String.eqb_eq in E. congruence.
  - apply get_remove_other. exact Hne.
Qed.

(** Changing the attributes at one path leaves the resolution of every
    other path as it is. *)
Lemma lookup_set_xattrs_other fs p xs q :
  q <> p -> lookup (set_xattrs fs p xs) q = lookup fs q.
Proof.
  intros Hne. unfold lookup.
  change (at_path (set_xattrs fs p xs) q) with (at_path fs q).
  change (entries (set_xattrs fs p xs))
    with (map (fun g => if at_path fs p g then with_xattrs g xs else g)
              (entries fs)).
  induction (entries fs) as [|g t IH]; [reflexivity|].
  cbn [map find]. destruct (at_path fs p g) eqn:E.
  - assert (at_path fs q g = false) as Hq.
    { unfold at_path in *. apply String.eqb_eq in E. apply String.eqb_neq.
      congruence. }
    assert (at_path fs q (with_xattrs g xs) = false) as Hq' by exact Hq.
    rewrite Hq, Hq'. exact IH.
  - destruct (at_path fs q g); [reflexivity | exact IH].
Qed.

Lemma user_inj a b : ("user." ++ a)%string = ("user." ++ b)%string -> a = b.
Proof. apply append_inj_r. Qed.

(** After a successful [Setxattr] the path resolves to the entry with the
    new attributes. *)
Lemma SetMarker_ok fs p name v f :
  lookup fs p = Some f ->
  write_fault f = None ->
  attributes.SetMarker fs p name v
  = (set_xattrs fs p (xattr.set (xattrs f) ("user." ++ name) v), None).
Proof.
  intros L W. unfold attributes.SetMarker, xattr.Setxattr.
  rewrite L, W. reflexivity.
Qed.

(** X1: on an existing file whose attributes can be written and read,
    [SetMarker] succeeds and [GetMarker] then returns the value that was
    set, as long as the value is at most 256 bytes long. *)
Theorem SetMarker_GetMarker fs p name v f :
  lookup fs p = Some f ->
  write_fault f = None ->
  read_fault f = None ->
  Z.of_nat (String.length v) <= 256 ->
  snd (attributes.SetMarker fs p name v) = None
  /\ attributes.GetMarker (fst (attributes.SetMarker fs p name v)) p name
     = (v, None).
Proof.
  intros L W R B. rewrite (SetMarker_ok fs p name v f L W). cbn [fst snd].
  split; [reflexivity|].
  unfold attributes.GetMarker, xattr.Getxattr.
  rewrite (lookup_set_xattrs fs p _ f L). cbn [with_xattrs read_fault xattrs].
  rewrite R, get_set_same. apply Z.leb_le in B. rewrite B. reflexivity.
Qed.

Lemma SetMarker_GetMarker_witness :
  attributes.GetMarker
    (fst (attributes.SetMarker Sample.fs_mixed "/home/user/recordings/notes.txt"
                               "dashcam" "standard_recording"))
    "/home/user/recordings/notes.txt" "dashcam"
  = ("standard_recording", None).
Proof.
  refine (proj2 (SetMarker_GetMarker
                   Sample.fs_mixed "/home/user/recordings/notes.txt" "dashcam"
                   "standard_recording" (Sample.regular "notes.txt" 5 [])
                   eq_refl eq_refl eq_refl _)).
  vm_compute. discriminate.
Defined.

(** X2: after a successful [SetMarker] on a file whose attributes can be
    read, [HasMarker] answers true exactly when the value set is non-empty
    and at most 256 bytes long.  A longer value is written all the same, and
    then neither [GetMarker] nor [HasMarker] can read it: both return an
    error. *)
Theorem SetMarker_HasMarker fs p name v f :
  lookup fs p = Some f ->
  write_fault f = None ->
  read_fault f = None ->
  (fst (attributes.HasMarker (fst (attributes.SetMarker fs p name v)) p name)
   = true
   <-> v <> "" /\ Z.of_nat (String.length v) <= 256)
  /\ (256 < Z.of_nat (String.length v) ->
      snd (attributes.SetMarker fs p name v) = None
      /\ attributes.GetMarker (fst (attributes.SetMarker fs p name v)) p name
         = ("", Some (Errorf "failed to get xattr" unix.ERANGE))
      /\ attributes.HasMarker (fst (attributes.SetMarker fs p name v)) p name
         = (false, Some (Errorf "failed to get xattr value" unix.ERANGE))).
Proof.
  intros L W R. rewrite (SetMarker_ok fs p name v f L W). cbn [fst snd].
  pose proof (lookup_set_xattrs fs p (xattr.set (xattrs f) ("user." ++ name) v)
                                f L) as L'.
  split.
  - rewrite HasMarker_true. unfold Spec.carries, Spec.readable_value. split.
    + intros [g [Lg C]]. rewrite L' in Lg. injection Lg as <-.
      cbn [with_xattrs read_fault xattrs] in C.
      rewrite R, get_set_same in C.
      destruct (Z.of_nat (String.length v) <=? 256) eqn:B; [|discriminate].
      apply Z.leb_le in B. split; [|exact B].
      intros ->. discriminate.
    + intros [Hv B]. eexists. split; [exact L'|].
      cbn [with_xattrs read_fault xattrs]. rewrite R, get_set_same.
      apply Z.leb_le in B. rewrite B. destruct v; [contradiction|reflexivity].
  - intros B. split; [reflexivity|].
    unfold attributes.GetMarker, attributes.HasMarker, xattr.Getxattr.
    rewrite L'. cbn [with_xattrs read_fault xattrs]. rewrite R, get_set_same.
    apply Z.leb_gt in B. rewrite B. split; reflexivity.
Qed.

Lemma SetMarker_HasMarker_witness :
  attributes.HasMarker
    (fst (attributes.SetMarker Sample.fs_mixed "/home/user/recordings/notes.txt"
                               "dashcam" Sample.long_value))
    "/home/user/recordings/notes.txt" "dashcam"
  = (false, Some (Errorf "failed to get xattr value" unix.ERANGE)).
Proof.
  refine (proj2 (proj2 (proj2 (SetMarker_HasMarker
                   Sample.fs_mixed "/home/user/recordings/notes.txt" "dashcam"
                   Sample.long_value (Sample.regular "notes.txt" 5 [])
                   eq_refl eq_refl eq_refl) _))).
  vm_compute. reflexivity.
Defined.

(** What a successful or failed [SetMarker] leaves of the attribute reads:
    the read of another path, or of another attribute of the same path, is
    as before. *)
Lemma SetMarker_Getxattr_other fs p name v q attr size :
  q <> p \/ attr <> ("user." ++ name)%string ->
  xattr.Getxattr (fst (attributes.SetMarker fs p name v)) q attr size
  = xattr.Getxattr fs q attr size.
Proof.
  intros Hne. unfold attributes.SetMarker, xattr.Setxattr.
  destruct (lookup fs p) as [f|] eqn:L; [|reflexivity].
  destruct (write_fault f) eqn:W; [reflexivity|]. cbn [fst].
  unfold xattr.Getxattr.
  destruct (String.eqb q p) eqn:E.
  - apply String.eqb_eq in E. subst q.
    destruct Hne as [Hne|Hne]; [congruence|].
    rewrite (lookup_set_xattrs fs p _ f L), L.
    cbn [with_xattrs read_fault xattrs].
    rewrite (get_set_other _ _ _ _ Hne). reflexivity.
  - apply String.eqb_neq in E.
    rewrite (lookup_set_xattrs_other fs p _ q E). reflexivity.
Qed.

(** X3: [SetMarker] changes nothing but the one attribute of the one path:
    what [GetMarker] and [HasMarker] return for another path, or for
    another marker name on the same path, is as before, and so is what
    [os.Stat] returns for every path. *)
Theorem SetMarker_frame fs p name v q name' :
  (q <> p \/ name' <> name ->
   attributes.GetMarker (fst (attributes.SetMarker fs p name v)) q name'
   = attributes.GetMarker fs q name'
   /\ attributes.HasMarker (fst (attributes.SetMarker fs p name v)) q name'
      = attributes.HasMarker fs q name')
  /\ Stat (fst (attributes.SetMarker fs p name v)) q = Stat fs q.
Proof.
  split.
  - intros Hne.
    assert (q <> p \/ ("user." ++ name')%string <> ("user." ++ name)%string)
      as Hne'.
    { destruct Hne as [H|H]; [left; exact H|].
      right. intros E. apply H. apply user_inj. exact E. }
    unfold attributes.GetMarker, attributes.HasMarker.
    rewrite (SetMarker_Getxattr_other fs p name v q _ 256 Hne').
    split; reflexivity.
  - unfold attributes.SetMarker, xattr.Setxattr, Stat.
    destruct (lookup fs p) as [f|] eqn:L; [|reflexivity].
    destruct (write_fault f) eqn:W; [reflexivity|]. cbn [fst].
    destruct (String.eqb q p) eqn:E.
    + apply String.eqb_eq in E. subst q.
      rewrite (lookup_set_xattrs fs p _ f L), L. reflexivity.
    + apply String.eqb_neq in E.
      rewrite (lookup_set_xattrs_other fs p _ q E). reflexivity.
Qed.

(** X4: [HasMarker] and [GetMarker] agree: [HasMarker] answers true exactly
    when [GetMarker] returns a non-empty value, and one returns an error
    exactly when the other does.  In particular [GetMarker] returns the
    empty value without an error both for an absent attribute and for one
    that is present with the empty value. *)
Theorem HasMarker_agrees_with_GetMarker fs p name :
  (fst (attributes.HasMarker fs p name) = true
   <-> fst (attributes.GetMarker fs p name) <> "")
  /\ (snd (attributes.HasMarker fs p name) = None
      <-> snd (attributes.GetMarker fs p name) = None)
  /\ (forall f,
         lookup fs p = Some f ->
         read_fault f = None ->
         xattr.get (xattrs f) ("user." ++ name) = None
         \/ xattr.get (xattrs f) ("user." ++ name) = Some "" ->
         attributes.GetMarker fs p name = ("", None)).
Proof.
  unfold attributes.HasMarker, attributes.GetMarker.
  generalize ("user." ++ name)%string. intros attr. unfold xattr.Getxattr.
  destruct (lookup fs p) as [f|] eqn:L.
  - destruct (read_fault f) as [e|] eqn:R.
    + rewrite errno_of_not_ENODATA. cbn [fst snd].
      split; [split; [discriminate | congruence]|].
      split; [split; discriminate|].
      intros g [= <-] Rg. congruence.
    + destruct (xattr.get (xattrs f) attr) as [v|] eqn:G.
      * destruct (Z.of_nat (String.length v) <=? 256) eqn:B; cbn [fst snd].
        -- split.
           ++ rewrite Z.ltb_lt. destruct v; simpl; split; try congruence; lia.
           ++ split; [tauto|].
              intros g [= <-] _ Habs. rewrite G in Habs.
              destruct Habs as [Hn|Hs]; [discriminate|].
              injection Hs as ->. reflexivity.
        -- cbn [unix.Errno_eqb fst snd].
           split; [split; [discriminate | congruence]|].
           split; [split; discriminate|].
           intros g [= <-] _ Habs. rewrite G in Habs.
           destruct Habs as [Hn|Hs]; [discriminate|].
           injection Hs as ->. discriminate.
      * cbn [unix.Errno_eqb fst snd].
        split; [split; [discriminate | congruence]|].
        split; [tauto|]. reflexivity.
  - cbn [unix.Errno_eqb fst snd].
    split; [split; [discriminate | congruence]|].
    split; [split; discriminate|]. discriminate.
Qed.

Lemma remove_absent xs attr :
  xattr.get xs attr = None -> xattr.remove xs attr = xs.
Proof.
  induction xs as [|[k v] t IH]; simpl; [reflexivity|].
  destruct (String.eqb k attr); [discriminate|].
  intros H. simpl. rewrite (IH H). reflexivity.
Qed.

Lemma remove_set xs attr v :
  xattr.remove (xattr.set xs attr v) attr = xattr.remove xs attr.
Proof.
  unfold xattr.set, xattr.remove at 1. cbn [filter fst].
  rewrite String.eqb_refl. cbn [negb].
  fold (xattr.remove (xattr.remove xs attr) attr).
  apply remove_absent. apply get_remove.
Qed.

(** Writing back the attributes a path has changes nothing. *)
Lemma set_xattrs_same fs p f :
  wf fs = true -> lookup fs p = Some f -> set_xattrs fs p (xattrs f) = fs.
Proof.
  intros Hwf L. unfold set_xattrs. destruct fs as [r lf ents]. cbn [root list_fault entries].
  f_equal. rewrite <- (map_id ents) at 2. apply map_ext_in.
  intros g Hg. destruct (at_path _ p g) eqn:E; [|reflexivity].
  unfold at_path in E. apply String.eqb_eq in E.
  pose proof (lookup_entry _ g Hwf Hg) as Lg. rewrite E, L in Lg.
  injection Lg as <-. destruct f; reflexivity.
Qed.

Lemma set_xattrs_twice fs p xs ys :
  set_xattrs (set_xattrs fs p xs) p ys = set_xattrs fs p ys.
Proof.
  unfold set_xattrs. cbn [root list_fault entries]. f_equal.
  rewrite map_map. apply map_ext. intros g.
  change (at_path {| root := root fs; list_fault := list_fault fs;
                     entries := map (fun g0 => if at_path fs p g0
                                               then with_xattrs g0 xs else g0)
                                    (entries fs) |} p)
    with (at_path fs p).
  destruct (at_path fs p g) eqn:E.
  - assert (at_path fs p (with_xattrs g xs) = true) as E' by exact E.
    rewrite E'. reflexivity.
  - rewrite E. reflexivity.
Qed.

(** X5: marking a file that had no marker and then removing the marker
    gives back the file system as it was, and the removal returns
    success. *)
Theorem mark_then_unmark fs p name v f :
  wf fs = true ->
  lookup fs p = Some f ->
  write_fault f = None ->
  xattr.get (xattrs f) ("user." ++ name) = None ->
  attributes.RemoveMarker (fst (attributes.SetMarker fs p name v)) p name
  = (fs, None).
Proof.
  intros Hwf L W G. rewrite (SetMarker_ok fs p name v f L W). cbn [fst].
  unfold attributes.RemoveMarker, xattr.Removexattr.
  rewrite (lookup_set_xattrs fs p _ f L). cbn [with_xattrs write_fault xattrs].
  rewrite W, get_set_same, remove_set, (remove_absent _ _ G).
  rewrite set_xattrs_twice, (set_xattrs_same fs p f Hwf L). reflexivity.
Qed.

Lemma mark_then_unmark_witness :
  attributes.RemoveMarker
    (fst (attributes.SetMarker Sample.fs_mixed "/home/user/recordings/notes.txt"
                               "dashcam" "standard_recording"))
    "/home/user/recordings/notes.txt" "dashcam"
  = (Sample.fs_mixed, None).
Proof.
  exact (mark_then_unmark
           Sample.fs_mixed "/home/user/recordings/notes.txt" "dashcam"
           "standard_recording" (Sample.regular "notes.txt" 5 [])
           eq_refl eq_refl eq_refl eq_refl).
Defined.

(** A path is in the listing of a directory that can be listed exactly
    when an entry that is no directory bears it and the path is marked. *)
Lemma listed_iff fs name q :
  list_fault fs = None ->
  In q (fst (attributes.GetFilesWithMarker fs (root fs) name))
  <-> (exists e, In e (entries fs) /\ path_of fs e = q /\ IsDir e = false)
      /\ Spec.marked_at fs name q = true.
Proof.
  intros Hl. unfold attributes.GetFilesWithMarker, ReadDir.
  rewrite String.eqb_refl, Hl, scan_filter. cbn [fst app].
  rewrite in_map_iff. split.
  - intros [e [Hp Hf]]. apply filter_In in Hf. destruct Hf as [Hin Hm].
    apply andb_true_iff in Hm. destruct Hm as [Hd Hm].
    apply negb_true_iff in Hd. subst q.
    split; [exists e; auto | exact Hm].
  - intros [[e [Hin [Hp Hd]]] Hm]. exists e. split; [exact Hp|].
    apply filter_In. split; [exact Hin|]. rewrite Hp, Hd, Hm. reflexivity.
Qed.

(** Changing attributes keeps the names and the kinds of the entries. *)
Lemma set_xattrs_entry fs p xs q :
  (exists e, In e (entries (set_xattrs fs p xs))
             /\ path_of (set_xattrs fs p xs) e = q /\ IsDir e = false)
  <-> (exists e, In e (entries fs) /\ path_of fs e = q /\ IsDir e = false).
Proof.
  unfold set_xattrs. cbn [entries]. split.
  - intros [e' [Hin [Hp Hd]]]. apply in_map_iff in Hin.
    destruct Hin as [e [He Hin]]. exists e. split; [exact Hin|].
    subst e'. destruct (at_path fs p e); split; assumption.
  - intros [e [Hin [Hp Hd]]].
    exists (if at_path fs p e then with_xattrs e xs else e).
    split.
    + apply (in_map (fun g => if at_path fs p g then with_xattrs g xs else g)).
      exact Hin.
    + destruct (at_path fs p e); split; assumption.
Qed.

Lemma marked_at_lookup fs fs' name q :
  lookup fs' q = lookup fs q ->
  Spec.marked_at fs' name q = Spec.marked_at fs name q.
Proof.
  intros H. unfold Spec.marked_at, Stat, attributes.HasMarker, xattr.Getxattr.
  rewrite H. reflexivity.
Qed.

(** When new attributes that carry the marker are given to a regular
    file, the listing of marked files holds the path of the file and,
    besides it, exactly the paths it held before. *)
Lemma marked_listing fs p name xs f info :
  list_fault fs = None ->
  lookup fs p = Some f ->
  IsDir f = false ->
  stat f = Some info ->
  IsRegular info = true ->
  Spec.carries name (with_xattrs f xs) = true ->
  forall q,
    In q (fst (attributes.GetFilesWithMarker (set_xattrs fs p xs) (root fs) name))
    <-> q = p \/ In q (fst (attributes.GetFilesWithMarker fs (root fs) name)).
Proof.
  intros Hl L Hd Hs Hr C q.
  change (root fs) with (root (set_xattrs fs p xs)) at 1.
  rewrite (listed_iff (set_xattrs fs p xs) name q Hl), (listed_iff fs name q Hl).
  rewrite set_xattrs_entry.
  assert (Spec.marked_at (set_xattrs fs p xs) name p = true) as Hp.
  { apply marked_at_true. exists (with_xattrs f xs), info.
    split; [apply lookup_set_xattrs; exact L|].
    split; [exact Hs|]. split; [exact Hr | exact C]. }
  assert (exists e, In e (entries fs) /\ path_of fs e = p /\ IsDir e = false)
    as He.
  { exists f. unfold lookup in L. apply find_some in L. destruct L as [Hin Hat].
    unfold at_path in Hat. apply String.eqb_eq in Hat. auto. }
  destruct (String.eqb q p) eqn:E.
  - apply String.eqb_eq in E. subst q. split; [left; reflexivity|].
    intros _. split; assumption.
  - apply String.eqb_neq in E.
    rewrite (marked_at_lookup fs _ name q (lookup_set_xattrs_other fs p xs q E)).
    split; [intros H; right; exact H|].
    intros [H|H]; [contradiction | exact H].
Qed.

(** A value that is set is carried when it can be read, is not empty and
    fits the buffer. *)
Lemma carries_set f name v :
  read_fault f = None ->
  v <> "" ->
  Z.of_nat (String.length v) <= 256 ->
  Spec.carries name (with_xattrs f (xattr.set (xattrs f) ("user." ++ name) v))
  = true.
Proof.
  intros R Hv B. unfold Spec.carries, Spec.readable_value.
  cbn [with_xattrs read_fault xattrs]. rewrite R, get_set_same.
  apply Z.leb_le in B. rewrite B. destruct v; [contradiction | reflexivity].
Qed.

(** X6: after a successful [SetMarker] with a non-empty value of at most
    256 bytes on a regular file whose attributes can be read, the listing
    of marked files holds the path of the file and, besides it, exactly the
    paths it held before. *)
Theorem SetMarker_listed fs p name v f info :
  list_fault fs = None ->
  lookup fs p = Some f ->
  IsDir f = false ->
  stat f = Some info ->
  IsRegular info = true ->
  read_fault f = None ->
  write_fault f = None ->
  v <> "" ->
  Z.of_nat (String.length v) <= 256 ->
  forall q,
    In q (fst (attributes.GetFilesWithMarker
                 (fst (attributes.SetMarker fs p name v)) (root fs) name))
    <-> q = p \/ In q (fst (attributes.GetFilesWithMarker fs (root fs) name)).
Proof.
  intros Hl L Hd Hs Hr R W Hv B q.
  rewrite (SetMarker_ok fs p name v f L W). cbn [fst].
  apply (marked_listing fs p name _ f info Hl L Hd Hs Hr).
  apply carries_set; assumption.
Qed.

Lemma SetMarker_listed_witness :
  In "/home/user/recordings/notes.txt"
     (fst (attributes.GetFilesWithMarker
             (fst (attributes.SetMarker
                     Sample.fs_mixed "/home/user/recordings/notes.txt"
                     "dashcam" "standard_recording"))
             Sample.dir "dashcam")).
Proof.
  refine (proj2 (SetMarker_listed
                   Sample.fs_mixed "/home/user/recordings/notes.txt" "dashcam"
                   "standard_recording" (Sample.regular "notes.txt" 5 [])
                   (mkFileInfo true 5)
                   eq_refl eq_refl eq_refl eq_refl eq_refl eq_refl eq_refl _ _
                   "/home/user/recordings/notes.txt") _).
  - discriminate.
  - vm_compute. discriminate.
  - left. reflexivity.
Defined.

(** X7: after a [RemoveMarker] that returns success, the listing of marked
    files no longer holds the path, and holds every other path it held
    before, and no other. *)
Theorem RemoveMarker_unlisted fs p name :
  list_fault fs = None ->
  snd (attributes.RemoveMarker fs p name) = None ->
  forall q,
    In q (fst (attributes.GetFilesWithMarker
                 (fst (attributes.RemoveMarker fs p name)) (root fs) name))
    <-> q <> p /\ In q (fst (attributes.GetFilesWithMarker fs (root fs) name)).
Proof.
  intros Hl. unfold attributes.RemoveMarker, xattr.Removexattr.
  destruct (lookup fs p) as [f|] eqn:L; [|discriminate].
  destruct (write_fault f) as [e|] eqn:W.
  { rewrite errno_of_not_ENODATA. discriminate. }
  destruct (xattr.get (xattrs f) ("user." ++ name)) as [v|] eqn:G;
    cbn [unix.Errno_eqb fst snd]; intros _ q.
  - set (xs := xattr.remove (xattrs f) ("user." ++ name)).
    change (root fs) with (root (set_xattrs fs p xs)) at 1.
    rewrite (listed_iff (set_xattrs fs p xs) name q Hl),
            (listed_iff fs name q Hl), set_xattrs_entry.
    destruct (String.eqb q p) eqn:E.
    + apply String.eqb_eq in E. subst q. split; [|intros [H _]; congruence].
      intros [_ Hm]. exfalso. apply marked_at_true in Hm.
      destruct Hm as [g [info [Lg [_ [_ C]]]]].
      rewrite (lookup_set_xattrs fs p xs f L) in Lg. injection Lg as <-.
      unfold Spec.carries, Spec.readable_value in C.
      cbn [with_xattrs read_fault xattrs] in C. unfold xs in C.
      rewrite get_remove in C. destruct (read_fault f); discriminate.
    + apply String.eqb_neq in E.
      rewrite (marked_at_lookup fs _ name q
                                (lookup_set_xattrs_other fs p xs q E)).
      tauto.
  - rewrite (listed_iff fs name q Hl). split; [|tauto].
    intros H. split; [|exact H]. intros ->. destruct H as [_ Hm].
    apply marked_at_true in Hm. destruct Hm as [g [info [Lg [_ [_ C]]]]].
    rewrite L in Lg. injection Lg as <-.
    unfold Spec.carries, Spec.readable_value in C. rewrite G in C.
    destruct (read_fault f); discriminate.
Qed.

Lemma RemoveMarker_unlisted_witness :
  In "/home/user/recordings/d.mkv"
     (fst (attributes.GetFilesWithMarker
             (fst (attributes.RemoveMarker
                     Sample.fs_mixed "/home/user/recordings/a.mkv" "dashcam"))
             Sample.dir "dashcam")).
Proof.
  refine (proj2 (RemoveMarker_unlisted
                   Sample.fs_mixed "/home/user/recordings/a.mkv" "dashcam"
                   eq_refl eq_refl "/home/user/recordings/d.mkv") _).
  split; [discriminate|]. vm_compute. right. left. reflexivity.
Defined.

(** X8: the second text of [HasMarker], which reads the attribute into a
    buffer of one byte first, answers true exactly when the value is one
    byte long; for every longer value, the value [SetMarker] is called with
    in [Start] included, it returns an error. *)
Theorem HasMarker_second_text fs p name :
  (fst (attributes_second.HasMarker fs p name) = true
   <-> exists f v,
        lookup fs p = Some f
        /\ read_fault f = None
        /\ xattr.get (xattrs f) ("user." ++ name) = Some v
        /\ String.length v = 1%nat)
  /\ (forall f v,
         lookup fs p = Some f ->
         read_fault f = None ->
         xattr.get (xattrs f) ("user." ++ name) = Some v ->
         (1 < String.length v)%nat ->
         attributes_second.HasMarker fs p name
         = (false, Some (Errorf "failed to get xattr" unix.ERANGE)))
  /\ (1 < String.length main.attributeMarkerDefaultValue)%nat.
Proof.
  unfold attributes_second.HasMarker.
  generalize ("user." ++ name)%string. intros attr. unfold xattr.Getxattr.
  split; [|split].
  - destruct (lookup fs p) as [f|] eqn:L.
    + destruct (read_fault f) as [e|] eqn:R.
      * rewrite errno_of_not_ENODATA. cbn [fst]. split; [discriminate|].
        intros [g [v [[= <-] [Rg _]]]]. congruence.
      * destruct (xattr.get (xattrs f) attr) as [v|] eqn:G.
        -- destruct (Z.of_nat (String.length v) <=? 1) eqn:B1.
           ++ apply Z.leb_le in B1.
              assert ((Z.of_nat (String.length v) <=? 256) = true) as B2
                  by (apply Z.leb_le; lia).
              rewrite B2. cbn [fst]. rewrite Z.ltb_lt. split.
              ** intros H. exists f, v. repeat split; try assumption. lia.
              ** intros [g [w [[= <-] [_ [Gw Hw]]]]]. rewrite G in Gw.
                 injection Gw as <-. lia.
           ++ cbn [unix.Errno_eqb fst]. split; [discriminate|].
              intros [g [w [[= <-] [_ [Gw Hw]]]]]. rewrite G in Gw.
              injection Gw as <-. apply Z.leb_gt in B1. lia.
        -- cbn [unix.Errno_eqb fst]. split; [discriminate|].
           intros [g [w [[= <-] [_ [Gw _]]]]]. congruence.
    + cbn [unix.Errno_eqb fst]. split; [discriminate|].
      intros [g [w [Lg _]]]. discriminate.
  - intros f v L R G Hlen. rewrite L, R, G.
    assert ((Z.of_nat (String.length v) <=? 1) = false) as B
        by (apply Z.leb_gt; lia).
    rewrite B. reflexivity.
  - vm_compute. lia.
Qed.

End Markers.

(** ** The results of a recording *)

Section Recording.

Import exec main.

(** X9: [recordScreen] returns an error exactly when the subprocess cannot
    be started or exits with an error before the deadline; it never returns
    exactly when the deadline and the grace window pass and no exit is
    observed after the kill; it sends no signal at all to a subprocess that
    could not be started or that exits before the deadline; and the first
    signal it sends, if any, is the interrupt. *)
Theorem recordScreen_outcomes sr filename duration p :
  ((exists e, snd (recordScreen sr filename duration p) = Returned (Some e))
   <-> start_error p = true
       \/ (start_error p = false /\ race p = DoneFirst ExitError))
  /\ (snd (recordScreen sr filename duration p) = Blocked
      <-> start_error p = false /\ race p = TimerFirst
          /\ grace p = GraceElapsed /\ reaped p = None)
  /\ (Extra.signals (fst (recordScreen sr filename duration p)) = []
      <-> start_error p = true \/ exists w, race p = DoneFirst w)
  /\ (Extra.signals (fst (recordScreen sr filename duration p)) = []
      \/ exists rest,
          Extra.signals (fst (recordScreen sr filename duration p))
          = SIGINT :: rest).
Proof.
  unfold recordScreen.
  destruct (start_error p) eqn:Hs.
  { cbn. split; [split; [auto | intros _; eexists; reflexivity]|].
    split; [split; [discriminate | intros [H _]; discriminate]|].
    split; [split; auto | left; reflexivity]. }
  destruct (race p) as [|[|]] eqn:Hr.
  - destruct (grace p) as [w|] eqn:Hg; [|destruct (reaped p) as [w|] eqn:Hp];
      destruct (signal_error p); cbn;
      (split; [split; [intros [e H]; discriminate
                      | intros [H|[_ H]]; discriminate]|]);
      (split; [split; [try discriminate; auto
                      | intros [_ [_ [H1 H2]]]; try discriminate; auto]|]);
      (split; [split; [discriminate | intros [H|[w' H]]; discriminate]|]);
      right; eexists; reflexivity.
  - cbn. split; [split; [intros [e H]; discriminate
                        | intros [H|[_ H]]; discriminate]|].
    split; [split; [discriminate | intros [_ [H _]]; discriminate]|].
    split; [split; [intros _; right; eexists; reflexivity | reflexivity]|].
    left. reflexivity.
  - cbn. split; [split; [intros _; right; auto | intros _; eexists; reflexivity]|].
    split; [split; [discriminate | intros [_ [H _]]; discriminate]|].
    split; [split; [intros _; right; eexists; reflexivity | reflexivity]|].
    left. reflexivity.
Qed.

End Recording.

(** ** Rounds of the loop *)

Section Rounds.

Import os exec main.

Variable sr : ScreenRecorder.

(** X10: the rounds that follow a round in which a stop request is
    observed, or in which the recording never returns, are not run: the
    passes and the file system are those of the loop that ends with that
    round. *)
Theorem loop_ends_at_stop pre r rest :
  stop r = true
  \/ snd (recordScreen sr (generateFilename sr (now r))
                       (RecordingLength (config sr)) (proc r)) = Blocked ->
  forall c fs,
    loop sr (pre ++ r :: rest) c fs = loop sr (pre ++ [r]) c fs.
Proof.
  intros Hend. induction pre as [|a pre IH]; intros c fs; cbn [app].
  - rewrite !loop_cons. cbv zeta. destruct (stop r); [reflexivity|].
    destruct Hend as [Hend|Hend]; [discriminate|].
    destruct (recordScreen sr (generateFilename sr (now r))
                           (RecordingLength (config sr)) (proc r))
      as [acts out].
    cbn [snd] in Hend. subst out. reflexivity.
  - rewrite (loop_cons sr a (pre ++ r :: rest)), (loop_cons sr a (pre ++ [r])).
    cbv zeta. destruct (stop a); [reflexivity|].
    destruct (recordScreen sr (generateFilename sr (now a))
                           (RecordingLength (config sr)) (proc a))
      as [acts [[err|]|]].
    + rewrite IH. reflexivity.
    + destruct (attributes.SetMarker (world a fs) (generateFilename sr (now a))
                                     attributeMarkerName
                                     attributeMarkerDefaultValue)
        as [fs1 mark].
      destruct (Go.rem (Go.add c 1) 10 =? 0).
      * destruct (cleanupOldFiles sr fs1) as [[fs2 calls] cm].
        destruct cm; [rewrite IH|]; reflexivity.
      * rewrite IH. reflexivity.
    + reflexivity.
Qed.

End Rounds.

Lemma loop_ends_at_stop_witness :
  main.loop Sample.sr
            (Sample.nine_good
             ++ main.mkRound true (Sample.clock 20 0) Sample.stops_late
                             (fun fs => fs)
             :: Sample.nine_good)
            0 Sample.empty_dir
  = main.loop Sample.sr
              (Sample.nine_good
               ++ [main.mkRound true (Sample.clock 20 0) Sample.stops_late
                                (fun fs => fs)])
              0 Sample.empty_dir.
Proof.
  apply (loop_ends_at_stop Sample.sr). left. reflexivity.
Defined.

Section CompletedRound.

Import os exec main.

Lemma GetMarker_after_set fs p name v f :
  lookup fs p = Some f ->
  read_fault f = None ->
  Z.of_nat (String.length v) <= 256 ->
  attributes.GetMarker
    (set_xattrs fs p (xattr.set (xattrs f) ("user." ++ name) v)) p name
  = (v, None).
Proof.
  intros L R B. unfold attributes.GetMarker, xattr.Getxattr.
  rewrite (lookup_set_xattrs fs p _ f L). cbn [with_xattrs read_fault xattrs].
  rewrite R, get_set_same. apply Z.leb_le in B. rewrite B. reflexivity.
Qed.



End CompletedRound.

(** ** A recording stopped at the deadline *)

Section DeadlineStop.

Import os exec main.

Lemma HasMarker_after_set fs p name v f :
  lookup fs p = Some f ->
  read_fault f = None ->
  Z.of_nat (String.length v) <= 256 ->
  attributes.HasMarker
    (set_xattrs fs p (xattr.set (xattrs f) ("user." ++ name) v)) p name
  = (0 <? Z.of_nat (String.length v), None).
Proof.
  intros L R B. unfold attributes.HasMarker, xattr.Getxattr.
  rewrite (lookup_set_xattrs fs p _ f L). cbn [with_xattrs read_fault xattrs].
  rewrite R, get_set_same. apply Z.leb_le in B. rewrite B. reflexivity.
Qed.

(** The result of [recordScreen] once the subprocess has started. *)
Lemma recordScreen_result sr filename duration p :
  start_error p = false ->
  snd (recordScreen sr filename duration p)
  = match race p with
    | TimerFirst =>
        match grace p, reaped p with
        | DoneInGrace _, _ => Returned None
        | GraceElapsed, Some _ => Returned None
        | GraceElapsed, None => Blocked
        end
    | DoneFirst ExitError => Returned (Some (Failure "wf-recorder failed"))
    | DoneFirst ExitZero => Returned None
    end.
Proof.
  intros Hs. unfold recordScreen. rewrite Hs.
  destruct (race p) as [|[|]]; [|reflexivity|reflexivity].
  destruct (grace p); [reflexivity|]. destruct (reaped p); reflexivity.
Qed.

(** A round that is not stopped, by the result of its recording: the
    passes and the file system the loop ends with. *)
Lemma loop_round sr r rest c fs :
  stop r = false ->
  let filename := generateFilename sr (now r) in
  let result :=
    recordScreen sr filename (RecordingLength (config sr)) (proc r) in
  let marked :=
    attributes.SetMarker (world r fs) filename attributeMarkerName
                         attributeMarkerDefaultValue in
  let c' := Go.add c 1 in
  loop sr (r :: rest) c fs
  = match snd result with
    | Blocked => ([Hung c' filename (fst result)], world r fs)
    | Returned (Some err) =>
        (Failed c' filename (fst result) err
           :: fst (loop sr rest c' (world r fs)),
         snd (loop sr rest c' (world r fs)))
    | Returned None =>
        if Go.rem c' 10 =? 0 then
          match cleanupOldFiles sr (fst marked) with
          | (fs2, calls, Panic) =>
              ([Finalized c' filename (fst result) (snd marked)
                          (Some (calls, Panic))], fs2)
          | (fs2, calls, Return err) =>
              (Finalized c' filename (fst result) (snd marked)
                         (Some (calls, Return err))
                 :: fst (loop sr rest c' fs2),
               snd (loop sr rest c' fs2))
          end
        else
          (Finalized c' filename (fst result) (snd marked) None
             :: fst (loop sr rest c' (fst marked)),
           snd (loop sr rest c' (fst marked)))
    end.
Proof.
  intros Hstop filename result marked c'.
  rewrite loop_cons. cbv zeta. rewrite Hstop.
  fold filename. fold result. fold marked. fold c'.
  destruct result as [acts [[err|]|]]; cbn [fst snd].
  - destruct (loop sr rest c' (world r fs)); reflexivity.
  - destruct marked as [fs1 mark]. cbn [fst snd].
    destruct (Go.rem c' 10 =? 0).
    + destruct (cleanupOldFiles sr fs1) as [[fs2 calls] [err|]];
        [|reflexivity].
      destruct (loop sr rest c' fs2); reflexivity.
    + destruct (loop sr rest c' fs1); reflexivity.
  - reflexivity.
Qed.

(** C10: in a round whose subprocess was started, when the deadline passes
    before the subprocess exits, [recordScreen] returns [nil] whatever the
    exit status observed afterwards (unless no exit is ever observed: then
    it never returns and the file system stays as the recorder left it).
    The loop then calls [SetMarker] on the output file with the marker of a
    standard recording, and it is the file system with the marker set that
    the cleanup of the round and the rounds after it start from; on a file
    that exists, with attributes that can be written and read, the call
    succeeds and [GetMarker] returns the marker afterwards.  The round is
    abandoned exactly when the subprocess exits with an error before the
    deadline, and then no marker is set: the rounds after it start from the
    file system as the recorder left it. *)
Theorem deadline_stop_is_marked sr r rest c fs :
  stop r = false ->
  start_error (proc r) = false ->
  let filename := generateFilename sr (now r) in
  let result :=
    recordScreen sr filename (RecordingLength (config sr)) (proc r) in
  let marked :=
    attributes.SetMarker (world r fs) filename attributeMarkerName
                         attributeMarkerDefaultValue in
  let c' := Go.add c 1 in
  (race (proc r) = TimerFirst ->
   (snd result = Returned None
    /\ (exists cleanup more,
           fst (loop sr (r :: rest) c fs)
           = Finalized c' filename (fst result) (snd marked) cleanup :: more)
    /\ ((Go.rem c' 10 =? 0) = false ->
        loop sr (r :: rest) c fs
        = (Finalized c' filename (fst result) (snd marked) None
             :: fst (loop sr rest c' (fst marked)),
           snd (loop sr rest c' (fst marked))))
    /\ ((Go.rem c' 10 =? 0) = true ->
        exists fs2 calls comp,
          cleanupOldFiles sr (fst marked) = (fs2, calls, comp)
          /\ snd (loop sr (r :: rest) c fs)
             = match comp with
               | Panic => fs2
               | Return _ => snd (loop sr rest c' fs2)
               end)
    /\ (forall f,
           lookup (world r fs) filename = Some f ->
           write_fault f = None ->
           read_fault f = None ->
           snd marked = None
           /\ attributes.GetMarker (fst marked) filename attributeMarkerName
              = (attributeMarkerDefaultValue, None)
           /\ attributes.HasMarker (fst marked) filename attributeMarkerName
              = (true, None)))
   \/ (snd result = Blocked
       /\ grace (proc r) = GraceElapsed /\ reaped (proc r) = None
       /\ loop sr (r :: rest) c fs
          = ([Hung c' filename (fst result)], world r fs)))
  /\ (forall pass more,
         fst (loop sr (r :: rest) c fs) = pass :: more ->
         (Spec.failed pass = true <-> race (proc r) = DoneFirst ExitError)
         /\ (Spec.completed pass = true <-> snd result = Returned None))
  /\ (race (proc r) = DoneFirst ExitError ->
      exists err,
        loop sr (r :: rest) c fs
        = (Failed c' filename (fst result) err
             :: fst (loop sr rest c' (world r fs)),
           snd (loop sr rest c' (world r fs)))).
Proof.
  intros Hstop Hstart filename result marked c'.
  pose proof (loop_round sr r rest c fs Hstop) as Hl. cbv zeta in Hl.
  fold filename in Hl. fold result in Hl. fold marked in Hl. fold c' in Hl.
  pose proof (recordScreen_result sr filename (RecordingLength (config sr))
                                  (proc r) Hstart) as Hres.
  fold result in Hres.
  split; [|split].
  - intros Hr. rewrite Hr in Hres.
    assert (snd result = Returned None
            \/ (snd result = Blocked
                /\ grace (proc r) = GraceElapsed /\ reaped (proc r) = None))
      as [Hok|[Hb Hg]].
    { destruct (grace (proc r)); [left; exact Hres|].
      destruct (reaped (proc r)); [left; exact Hres|right; auto]. }
    + left. rewrite Hok in Hl. split; [exact Hok|]. split; [|split; [|split]].
      * rewrite Hl. destruct (Go.rem c' 10 =? 0).
        -- destruct (cleanupOldFiles sr (fst marked)) as [[fs2 calls] [err|]];
             eexists; eexists; reflexivity.
        -- eexists; eexists; reflexivity.
      * intros Hrem. rewrite Hl, Hrem. reflexivity.
      * intros Hrem. rewrite Hl, Hrem.
        destruct (cleanupOldFiles sr (fst marked)) as [[fs2 calls] comp].
        exists fs2, calls, comp. split; [reflexivity|].
        destruct comp; reflexivity.
      * intros f L W R. unfold marked.
        rewrite (SetMarker_ok (world r fs) filename attributeMarkerName
                              attributeMarkerDefaultValue f L W).
        cbn [fst snd]. split; [reflexivity|].
        assert (attributes.GetMarker
                  (set_xattrs (world r fs) filename
                     (xattr.set (xattrs f) ("user." ++ attributeMarkerName)
                                attributeMarkerDefaultValue))
                  filename attributeMarkerName
                = (attributeMarkerDefaultValue, None)) as G.
        { apply GetMarker_after_set; [exact L|exact R|].
          vm_compute. discriminate. }
        split; [exact G|].
        rewrite (HasMarker_after_set (world r fs) filename
                   attributeMarkerName attributeMarkerDefaultValue f L R);
          [reflexivity|vm_compute; discriminate].
    + right. rewrite Hb in Hl. destruct Hg as [Hg Hrp].
      split; [exact Hb|]. split; [exact Hg|]. split; [exact Hrp|exact Hl].
  - intros pass more Hp. rewrite Hl in Hp. cbn [fst] in Hp.
    destruct (race (proc r)) as [|[|]] eqn:Hr; rewrite Hres in *.
    + destruct (grace (proc r)); [|destruct (reaped (proc r))].
      * assert (Spec.completed pass = true /\ Spec.failed pass = false)
          as [Hc Hf].
        { destruct (Go.rem c' 10 =? 0);
            [destruct (cleanupOldFiles sr (fst marked)) as [[? ?] [?|]]|];
            cbn [fst] in Hp; injection Hp as <- _; split; reflexivity. }
        rewrite Hc, Hf. split; split; intros; congruence.
      * assert (Spec.completed pass = true /\ Spec.failed pass = false)
          as [Hc Hf].
        { destruct (Go.rem c' 10 =? 0);
            [destruct (cleanupOldFiles sr (fst marked)) as [[? ?] [?|]]|];
            cbn [fst] in Hp; injection Hp as <- _; split; reflexivity. }
        rewrite Hc, Hf. split; split; intros; congruence.
      * injection Hp as <- _. cbn. split; split; intros; congruence.
    + assert (Spec.completed pass = true /\ Spec.failed pass = false)
        as [Hc Hf].
      { destruct (Go.rem c' 10 =? 0);
          [destruct (cleanupOldFiles sr (fst marked)) as [[? ?] [?|]]|];
          cbn [fst] in Hp; injection Hp as <- _; split; reflexivity. }
      rewrite Hc, Hf. split; split; intros; congruence.
    + injection Hp as <- _. cbn. split; split; intros; congruence.
  - intros Hr. rewrite Hr in Hres. rewrite Hres in Hl.
    eexists. exact Hl.
Qed.

End DeadlineStop.

Lemma deadline_stop_is_marked_witness :
  attributes.GetMarker
    (snd (main.loop Sample.sr [Sample.good_round 1 3] 0 Sample.empty_dir))
    (main.generateFilename Sample.sr (Sample.clock 1 3))
    main.attributeMarkerName
  = (main.attributeMarkerDefaultValue, None)
  /\ attributes.HasMarker
       (snd (main.loop Sample.sr [Sample.crashed_round 1 3] 0
                       Sample.empty_dir))
       (main.generateFilename Sample.sr (Sample.clock 1 3))
       main.attributeMarkerName
     = (false, None).
Proof.
  split.
  - pose proof (deadline_stop_is_marked
                  Sample.sr (Sample.good_round 1 3) [] 0 Sample.empty_dir
                  eq_refl eq_refl) as H.
    cbv zeta in H. destruct H as [H _].
    destruct (H eq_refl) as [[_ [_ [Hl [_ Hm]]]] | [Hb _]];
      [|discriminate Hb].
    rewrite (Hl eq_refl). cbn [main.loop snd].
    exact (proj1 (proj2 (Hm (Sample.regular "7073-03-07_14-23-03.mkv" 63 [])
                            eq_refl eq_refl eq_refl))).
  - pose proof (deadline_stop_is_marked
                  Sample.sr (Sample.crashed_round 1 3) [] 0 Sample.empty_dir
                  eq_refl eq_refl) as H.
    cbv zeta in H. destruct H as [_ [_ H]].
    destruct (H eq_refl) as [err Hl].
    rewrite Hl. reflexivity.
Defined.

(** ** More on the retention cleanup *)

Section Cleanup.

Import os main.




(** After a pass without a failed removal at most [max_files] marked
    files are left. *)
Lemma cleanup_leaves_at_most sr fs files fs' calls c :
  0 <= MaxFiles (config sr) ->
  attributes.GetFilesWithMarker fs (RecordingsDir (config sr))
                                attributeMarkerName = (files, None) ->
  Go.fits (Go.len files) = true ->
  Spec.distinct_times (map (Spec.modtime fs) files) = true ->
  cleanupOldFiles sr fs = (fs', calls, c) ->
  Spec.succeeded calls = true ->
  exists files',
    attributes.GetFilesWithMarker fs' (RecordingsDir (config sr))
                                  attributeMarkerName = (files', None)
    /\ Go.len files' <= MaxFiles (config sr).
Proof.
  intros Hmax Hscan Hfit Hdist Hclean Hok.
  unfold cleanupOldFiles in Hclean. rewrite Hscan in Hclean.
  destruct (Go.len files <=? MaxFiles (config sr)) eqn:Hle.
  - injection Hclean as <- <- <-. apply Z.leb_le in Hle.
    exists files. split; assumption.
  - apply Z.leb_gt in Hle.
    pose proof (sort_Slice_perm _ (less fs) files) as Hperm.
    remember (sort_Slice files (less fs)) as sorted eqn:Hsorted.
    assert (Go.len sorted = Go.len files) as Hlen.
    { unfold Go.len. rewrite (Permutation_length Hperm). reflexivity. }
    rewrite Hlen in Hclean. unfold Go.sub in Hclean.
    rewrite wrap_small in Hclean
      by (apply fits_bounds in Hfit; unfold Go.min_int in *; lia).
    remember (Z.to_nat (Go.len files - MaxFiles (config sr))) as n eqn:Hn.
    assert (Z.of_nat n = Go.len files - MaxFiles (config sr)) as Hn'
        by (subst n; apply Z2Nat.id; lia).
    assert (n <= List.length sorted)%nat as Hnlen
        by (unfold Go.len in *; lia).
    destruct (remove_excess_done sorted n 0 fs [] fs' calls c Hclean
                                 ltac:(lia))
      as [_ [new [Hcalls [Hmap Hfs]]]].
    cbn [app skipn] in Hcalls, Hmap. subst new.
    specialize (Hfs Hok). rewrite Hmap in Hfs.
    assert (NoDup files) as Hnd.
    { apply (NoDup_map_inv (Spec.modtime fs)).
      apply distinct_times_NoDup. exact Hdist. }
    destruct (evicted_split files sorted n Hnd Hperm Hnlen)
      as [_ [_ Hcount]].
    exists (filter (fun p => negb (Spec.mem p (firstn n sorted))) files).
    split.
    + rewrite Hfs, GetFilesWithMarker_minus, Hscan. reflexivity.
    + unfold Go.len in *. lia.
Qed.

(** X13: a second cleanup pass right after a pass without a failed removal
    does nothing: it calls [os.Remove] on no file and leaves the file
    system as the first pass left it. *)
Theorem cleanup_twice sr fs files fs' calls c :
  0 <= MaxFiles (config sr) ->
  attributes.GetFilesWithMarker fs (RecordingsDir (config sr))
                                attributeMarkerName = (files, None) ->
  Go.fits (Go.len files) = true ->
  Spec.distinct_times (map (Spec.modtime fs) files) = true ->
  cleanupOldFiles sr fs = (fs', calls, c) ->
  Spec.succeeded calls = true ->
  cleanupOldFiles sr fs' = (fs', [], Return None).
Proof.
  intros Hmax Hscan Hfit Hdist Hclean Hok.
  destruct (cleanup_leaves_at_most sr fs files fs' calls c
                                   Hmax Hscan Hfit Hdist Hclean Hok)
    as [files' [Hscan' Hle]].
  unfold cleanupOldFiles. rewrite Hscan'.
  apply Z.leb_le in Hle. rewrite Hle. reflexivity.
Qed.

Lemma cleanup_twice_witness :
  cleanupOldFiles Sample.sr
                  (Spec.minus Sample.fs_three ["/home/user/recordings/a.mkv"])
  = (Spec.minus Sample.fs_three ["/home/user/recordings/a.mkv"], [],
     Return None).
Proof.
  exact (cleanup_twice
           Sample.sr Sample.fs_three
           ["/home/user/recordings/b.mkv"; "/home/user/recordings/a.mkv";
            "/home/user/recordings/c.mkv"]
           (Spec.minus Sample.fs_three ["/home/user/recordings/a.mkv"])
           [("/home/user/recordings/a.mkv", None)] (Return None)
           ltac:(vm_compute; discriminate)
           eq_refl eq_refl eq_refl eq_refl eq_refl).
Defined.

Lemma File_eq_dec (a b : File) : {a = b} + {a <> b}.
Proof.
  repeat decide equality; try apply Z.eq_dec; try apply Ascii.ascii_dec.
Qed.

(** Unlinking takes away entries and changes none. *)
Lemma Remove_entries fs p fs' err :
  Remove fs p = (fs', err) ->
  root fs' = root fs
  /\ (forall g, In g (entries fs') -> In g (entries fs))
  /\ (forall g, In g (entries fs) -> ~ In g (entries fs') ->
                path_of fs g = p /\ err = None).
Proof.
  destruct err as [e|]; intros H.
  - apply Remove_failure in H. subst fs'.
    split; [reflexivity|]. split; [auto|]. intros g Hg Hn. contradiction.
  - apply Remove_success in H. subst fs'. split; [reflexivity|].
    unfold Spec.minus. cbn [entries]. split.
    + intros g Hg. apply filter_In in Hg. tauto.
    + intros g Hg Hn. split; [|reflexivity].
      destruct (String.eqb (path_of fs g) p) eqn:E;
        [apply String.eqb_eq; exact E|].
      exfalso. apply Hn. apply filter_In. split; [exact Hg|].
      unfold Spec.mem. cbn [existsb]. rewrite E. reflexivity.
Qed.

Lemma remove_excess_entries files n :
  forall i fs calls fs' calls' c,
    remove_excess files i n fs calls = (fs', calls', c) ->
    root fs' = root fs
    /\ (forall g, In g (entries fs') -> In g (entries fs))
    /\ (forall g, In g (entries fs) -> ~ In g (entries fs') ->
                  In (path_of fs g, None) calls').
Proof.
  induction n as [|n IH]; intros i fs calls fs' calls' c H; simpl in H.
  - injection H as <- <- <-. split; [reflexivity|]. split; [auto|].
    intros g Hg Hn. contradiction.
  - destruct (nth_error files i) as [f|] eqn:N.
    + destruct (Remove fs f) as [fs1 err] eqn:R.
      destruct (Remove_entries _ _ _ _ R) as [Hr1 [Hsub1 Hgone1]].
      destruct (IH _ _ _ _ _ _ H) as [Hr [Hsub Hgone]].
      destruct (remove_excess_calls _ _ _ _ _ _ _ _ H)
        as [new [Hc _]].
      split; [congruence|]. split; [auto|].
      intros g Hg Hn.
      destruct (in_dec File_eq_dec g (entries fs1))
        as [Hin1|Hout1].
      * specialize (Hgone g Hin1 Hn). unfold path_of in *.
        rewrite Hr1 in Hgone. exact Hgone.
      * destruct (Hgone1 g Hg Hout1) as [Hp ->]. rewrite Hc, Hp.
        apply in_or_app. left. apply in_or_app. right. left. reflexivity.
    + injection H as <- <- <-. split; [reflexivity|]. split; [auto|].
      intros g Hg Hn. contradiction.
Qed.

(** X14: a cleanup pass creates no file and changes none: every entry of
    the directory afterwards is an entry from before, with its attributes
    and modification time; and an entry that is gone was at a path the scan
    of marked files returned, on which a call of [os.Remove] succeeded. *)
Theorem cleanup_only_unlinks sr fs fs' calls c :
  cleanupOldFiles sr fs = (fs', calls, c) ->
  root fs' = root fs
  /\ (forall g, In g (entries fs') -> In g (entries fs))
  /\ (forall g,
         In g (entries fs) -> ~ In g (entries fs') ->
         In (path_of fs g, None) calls
         /\ In (path_of fs g)
               (fst (attributes.GetFilesWithMarker
                       fs (RecordingsDir (config sr)) attributeMarkerName))).
Proof.
  intros Hclean.
  destruct (cleanup_calls sr fs fs' calls c Hclean) as [Hcalls _].
  assert (root fs' = root fs
          /\ (forall g, In g (entries fs') -> In g (entries fs))
          /\ (forall g, In g (entries fs) -> ~ In g (entries fs') ->
                        In (path_of fs g, None) calls)) as H.
  { revert Hclean. unfold cleanupOldFiles.
    destruct (attributes.GetFilesWithMarker fs (RecordingsDir (config sr))
                                            attributeMarkerName)
      as [files [err|]].
    - intros [= <- <- <-]. split; [reflexivity|]. split; [auto|].
      intros g Hg Hn. contradiction.
    - destruct (Go.len files <=? MaxFiles (config sr)).
      + intros [= <- <- <-]. split; [reflexivity|]. split; [auto|].
        intros g Hg Hn. contradiction.
      + apply remove_excess_entries. }
  destruct H as [Hr [Hsub Hgone]].
  split; [exact Hr|]. split; [exact Hsub|].
  intros g Hg Hn. specialize (Hgone g Hg Hn). split; [exact Hgone|].
  apply (Hcalls _ Hgone).
Qed.

Lemma cleanup_only_unlinks_witness :
  forallb (fun g => Spec.mem (Name g)
                             ["notes.txt"; "b.mkv"; "a.mkv"; "partial.mkv"; "c.mkv"])
          (entries (Spec.minus Sample.fs_three ["/home/user/recordings/a.mkv"]))
  = true.
Proof.
  apply forallb_forall. intros g Hg.
  destruct (cleanup_only_unlinks
              Sample.sr Sample.fs_three
              (Spec.minus Sample.fs_three ["/home/user/recordings/a.mkv"])
              [("/home/user/recordings/a.mkv", None)] (Return None) eq_refl)
    as [_ [Hsub _]].
  specialize (Hsub g Hg). cbn in Hsub.
  destruct Hsub as [<-|[<-|[<-|[<-|[<-|[]]]]]]; reflexivity.
Defined.

End Cleanup.

(** ** When two names collide *)

Section Names.

Lemma has_char_app c a b :
  Extra.has_char c (a ++ b) = Extra.has_char c a || Extra.has_char c b.
Proof.
  induction a as [|d t IH]; simpl; [reflexivity|].
  rewrite IH. apply orb_assoc.
Qed.

Lemma cut_app c a b :
  Extra.has_char c a = false -> Extra.cut c (a ++ String c b) = (a, b).
Proof.
  induction a as [|d t IH]; simpl.
  - intros _. rewrite Ascii.eqb_refl. reflexivity.
  - intros H. apply orb_false_iff in H. destruct H as [Hd Ht].
    rewrite Hd, (IH Ht). reflexivity.
Qed.

(** Strings of the same length at the head of equal strings are equal. *)
Lemma app_same_length (a b x y : string) :
  String.length a = String.length b ->
  (a ++ x = b ++ y)%string -> a = b /\ x = y.
Proof.
  revert b. induction a as [|c a IH]; intros [|d b] Hl H; simpl in *;
    try discriminate.
  - auto.
  - injection H as -> H. injection Hl as Hl.
    destruct (IH b Hl H) as [-> ->]. auto.
Qed.

Lemma below_100_In x : 0 <= x <= 99 -> In x Extra.below_100.
Proof.
  intros H. unfold Extra.below_100. apply in_map_iff.
  exists (Z.to_nat x). split; [lia|]. apply in_seq. lia.
Qed.

(** What is computed for every number below 100 holds for each of them. *)
Lemma below_100_all (check : Z -> bool) x :
  forallb check Extra.below_100 = true -> 0 <= x <= 99 -> check x = true.
Proof.
  intros Hall Hx. rewrite forallb_forall in Hall.
  apply Hall. apply below_100_In. exact Hx.
Qed.

(** The digits of a number below 100, padded or not, hold no dash. *)
Lemma appendInt_no_dash x width :
  0 <= x <= 99 -> (width <= 2)%nat ->
  Extra.has_char "-" (time.appendInt x width) = false.
Proof.
  intros Hx Hw.
  assert (forallb (fun y =>
                     negb (Extra.has_char "-" (time.appendInt y 0))
                     && negb (Extra.has_char "-" (time.appendInt y 1))
                     && negb (Extra.has_char "-" (time.appendInt y 2)))
                  Extra.below_100 = true) as Hall by (vm_compute; reflexivity).
  pose proof (below_100_all _ x Hall Hx) as H.
  apply andb_true_iff in H. destruct H as [H H2].
  apply andb_true_iff in H. destruct H as [H0 H1].
  apply negb_true_iff in H0, H1, H2.
  destruct width as [|[|[|w]]]; [assumption .. | lia].
Qed.

Lemma appendInt2_length x :
  0 <= x <= 99 -> String.length (time.appendInt x 2) = 2%nat.
Proof.
  intros Hx.
  assert (forallb (fun y => Nat.eqb (String.length (time.appendInt y 2)) 2)
                  Extra.below_100 = true) as Hall by (vm_compute; reflexivity).
  apply Nat.eqb_eq. exact (below_100_all _ x Hall Hx).
Qed.

Lemma appendInt2_inj x y :
  0 <= x <= 99 -> 0 <= y <= 99 ->
  time.appendInt x 2 = time.appendInt y 2 -> x = y.
Proof.
  intros Hx Hy E.
  assert (forallb (fun a =>
                     forallb (fun b =>
                                implb (String.eqb (time.appendInt a 2)
                                                  (time.appendInt b 2))
                                      (a =? b))
                             Extra.below_100)
                  Extra.below_100 = true) as Hall by (vm_compute; reflexivity).
  pose proof (below_100_all _ x Hall Hx) as Hrow. cbv beta in Hrow.
  pose proof (below_100_all _ y Hrow Hy) as H. cbv beta in H.
  rewrite E, String.eqb_refl in H. simpl in H. apply Z.eqb_eq. exact H.
Qed.

Lemma string_app_assoc (a b c : string) :
  ((a ++ b) ++ c = a ++ (b ++ c))%string.
Proof.
  induction a as [|d a IH]; simpl; [reflexivity|]. rewrite IH. reflexivity.
Qed.

(** The time stamp of [generateFilename], element by element. *)
Lemma stamp_shape t :
  time.Format t "2025-01-02_15-35-05"
  = ((time.appendInt (time.Day t) 0 ++ time.appendInt (time.Day t) 2
      ++ time.appendInt (time.Second t) 0)
     ++ String "-" (time.appendInt (time.Month t) 2
     ++ String "-" (time.appendInt (time.Day t) 2
     ++ String "_" (time.appendInt (time.Hour t) 2
     ++ String "-" ((time.appendInt (time.hour12 t) 0
                     ++ time.appendInt (time.Second t) 0)
     ++ String "-" (time.appendInt (time.Second t) 2))))))%string.
Proof.
  unfold time.Format. rewrite layout_chunks.
  cbn [map time.render String.concat].
  rewrite !string_app_assoc. reflexivity.
Qed.

Lemma cut_prefix c a s :
  Extra.has_char c a = false ->
  Extra.cut c (a ++ s) = ((a ++ fst (Extra.cut c s))%string, snd (Extra.cut c s)).
Proof.
  induction a as [|d t IH]; simpl.
  - intros _. destruct (Extra.cut c s). reflexivity.
  - intros H. apply orb_false_iff in H. destruct H as [Hd Ht].
    rewrite Hd, (IH Ht). reflexivity.
Qed.

Lemma cut_head c s : Extra.cut c (String c s) = (EmptyString, s).
Proof. simpl. rewrite Ascii.eqb_refl. reflexivity. Qed.

Lemma valid_bounds t :
  time.valid t = true ->
  1 <= time.Month t <= 12 /\ 1 <= time.Day t <= 31
  /\ 0 <= time.Hour t <= 23 /\ 0 <= time.Second t <= 59.
Proof.
  unfold time.valid. rewrite !andb_true_iff, !Z.leb_le.
  intros [[[[[[[[[H1 H2] H3] H4] H5] H6] H7] H8] H9] H10].
  assert (time.days_in (time.Year t) (time.Month t) <= 31) as Hd.
  { unfold time.days_in.
    destruct (time.Month t =? 2); [destruct (time.is_leap _); lia|].
    destruct ((time.Month t =? 4) || (time.Month t =? 6)
              || (time.Month t =? 9) || (time.Month t =? 11)); lia. }
  lia.
Qed.

Lemma hour12_bounds t : 0 <= time.Hour t <= 23 -> 1 <= time.hour12 t <= 12.
Proof.
  intros H. unfold time.hour12.
  pose proof (Z.mod_pos_bound (time.Hour t) 12 ltac:(lia)).
  destruct (time.Hour t mod 12 =? 0) eqn:E; [lia|].
  apply Z.eqb_neq in E. lia.
Qed.

(** What follows the first dash of a time stamp, and what follows the
    second dash after the hour. *)
Lemma stamp_cut t ext :
  time.valid t = true ->
  snd (Extra.cut "-" (time.Format t "2025-01-02_15-35-05" ++ ext))
  = (time.appendInt (time.Month t) 2
     ++ String "-" (time.appendInt (time.Day t) 2
     ++ String "_" (time.appendInt (time.Hour t) 2
     ++ String "-" (time.appendInt (time.hour12 t) 0
     ++ time.appendInt (time.Second t) 0
     ++ String "-" (time.appendInt (time.Second t) 2 ++ ext)))))%string
  /\ snd (Extra.cut "-" (time.appendInt (time.hour12 t) 0
                         ++ time.appendInt (time.Second t) 0
                         ++ String "-" (time.appendInt (time.Second t) 2 ++ ext)))
     = (time.appendInt (time.Second t) 2 ++ ext)%string.
Proof.
  intros Hv. destruct (valid_bounds t Hv) as [Hm [Hd [Hh Hs]]].
  pose proof (hour12_bounds t Hh) as Hh12.
  split.
  - rewrite stamp_shape.
    repeat first [rewrite string_app_assoc | progress cbn [append]].
    rewrite cut_prefix by (apply appendInt_no_dash; lia).
    rewrite cut_prefix by (apply appendInt_no_dash; lia).
    rewrite cut_prefix by (apply appendInt_no_dash; lia).
    rewrite cut_head. reflexivity.
  - rewrite cut_prefix by (apply appendInt_no_dash; lia).
    rewrite cut_prefix by (apply appendInt_no_dash; lia).
    rewrite cut_head. reflexivity.
Qed.

(** A name without a slash is a single element of a path. *)
Lemma split_plain s :
  forall element,
    Extra.has_char "/" s = false ->
    filepath.split s element = [(element ++ s)%string].
Proof.
  induction s as [|c t IH]; intros element H.
  - cbn. replace (element ++ "")%string with element; [reflexivity|].
    clear. induction element as [|d e IH]; cbn; [reflexivity|].
    rewrite <- IH. reflexivity.
  - cbn [Extra.has_char] in H. apply orb_false_iff in H. destruct H as [Hc Ht].
    cbn [filepath.split]. rewrite Hc, (IH _ Ht), string_app_assoc.
    reflexivity.
Qed.

Lemma split_last a name :
  forall element,
    Extra.has_char "/" name = false ->
    filepath.split (a ++ String "/" name) element
    = (filepath.split a element ++ [name])%list.
Proof.
  induction a as [|c t IH]; intros element H.
  - cbn [append filepath.split app]. rewrite Ascii.eqb_refl.
    rewrite (split_plain name "" H). reflexivity.
  - cbn [append filepath.split]. destruct (Ascii.eqb c "/").
    + rewrite (IH _ H). reflexivity.
    + apply IH. exact H.
Qed.

(** An element that is neither empty nor a dot nor two dots is kept, on
    top of what the elements before it leave. *)
Lemma kept_last rooted name l :
  (String.eqb name "" || String.eqb name ".") = false ->
  String.eqb name ".." = false ->
  forall stack,
    filepath.kept rooted (l ++ [name]) stack
    = name :: filepath.kept rooted l stack.
Proof.
  intros H1 H2. induction l as [|e rest IH]; intros stack.
  - cbn [app filepath.kept]. rewrite H1, H2. reflexivity.
  - cbn [app filepath.kept].
    destruct (String.eqb e "" || String.eqb e "."); [apply IH|].
    destruct (String.eqb e ".."); [|apply IH].
    destruct stack as [|top below].
    + destruct rooted; apply IH.
    + destruct (String.eqb top ".."); apply IH.
Qed.

Lemma concat_last sep l x :
  String.concat sep (l ++ [x])
  = ((match l with
      | [] => ""
      | _ => String.concat sep l ++ sep
      end) ++ x)%string.
Proof.
  induction l as [|a t IH]; [reflexivity|].
  destruct t as [|b t'].
  - cbn. rewrite string_app_assoc. reflexivity.
  - change (String.concat sep ((a :: b :: t') ++ [x]))
      with (a ++ sep ++ String.concat sep ((b :: t') ++ [x]))%string.
    rewrite IH.
    change (String.concat sep (a :: b :: t'))
      with (a ++ sep ++ String.concat sep (b :: t'))%string.
    rewrite !string_app_assoc. reflexivity.
Qed.

Lemma app_not_empty a d rest :
  String.eqb (a ++ String d rest) "" = false.
Proof. destruct a; reflexivity. Qed.

Lemma prefix_slash c s :
  String.prefix "/" (String c s) = if ascii_dec "/" c then true else false.
Proof.
  cbn [String.prefix]. destruct (ascii_dec "/" c); [|reflexivity].
  destruct s; reflexivity.
Qed.

(** [filepath.Join] of a directory and a name that holds no slash and does
    not begin with a dot: what the directory cleans to, followed by the
    name. *)
Lemma Join_plain dir :
  exists pre,
    forall d rest,
      Ascii.eqb d "." = false ->
      Extra.has_char "/" (String d rest) = false ->
      filepath.Join dir (String d rest) = (pre ++ String d rest)%string.
Proof.
  destruct dir as [|c t].
  - exists "". intros d rest Hd Hs.
    assert (Ascii.eqb d "/" = false) as Hd'.
    { cbn [Extra.has_char] in Hs. apply orb_false_iff in Hs. tauto. }
    unfold filepath.Join. cbn [String.eqb negb].
    unfold filepath.Clean.
    assert (String.prefix "/" (String d rest) = false) as Hp.
    { rewrite prefix_slash. destruct (ascii_dec "/" d) as [E|]; [|reflexivity].
      subst d. discriminate. }
    rewrite Hp, (split_plain _ "" Hs). cbn [append].
    rewrite (kept_last false (String d rest) []);
      [|cbn; rewrite Hd; reflexivity|cbn; rewrite Hd; reflexivity].
    cbn. reflexivity.
  - set (rooted := if ascii_dec "/" c then true else false).
    exists ((if rooted then "/" else "")
            ++ match rev (filepath.kept rooted (filepath.split (String c t) "")
                                       []) with
               | [] => ""
               | k :: ks => String.concat "/" (k :: ks) ++ "/"
               end)%string.
    intros d rest Hd Hs.
    unfold filepath.Join. cbn [String.eqb negb].
    change (String c t ++ "/" ++ String d rest)%string
      with (String c t ++ String "/" (String d rest))%string.
    unfold filepath.Clean.
    assert (String.prefix "/" (String c t ++ String "/" (String d rest))
            = rooted) as Hp.
    { unfold rooted. cbn [append]. apply prefix_slash. }
    rewrite Hp, (split_last _ _ "" Hs).
    rewrite (kept_last rooted (String d rest));
      [|cbn; rewrite Hd; reflexivity|cbn; rewrite Hd; reflexivity].
    cbn [rev]. rewrite concat_last.
    cbv zeta.
    rewrite <- string_app_assoc.
    rewrite app_not_empty.
    destruct (rev (filepath.kept rooted (filepath.split (String c t) "") []));
      reflexivity.
Qed.

(** The digits of a number below 100 hold no slash and do not begin with a
    dot. *)
Lemma appendInt_plain x width :
  0 <= x <= 99 -> (width <= 2)%nat ->
  Extra.has_char "/" (time.appendInt x width) = false
  /\ exists d rest,
       time.appendInt x width = String d rest /\ Ascii.eqb d "." = false.
Proof.
  intros Hx Hw.
  set (check := fun s =>
                  negb (Extra.has_char "/" s)
                  && match s with
                     | String d _ => negb (Ascii.eqb d ".")
                     | EmptyString => false
                     end).
  assert (forallb (fun y =>
                     check (time.appendInt y 0) && check (time.appendInt y 1)
                     && check (time.appendInt y 2))
                  Extra.below_100 = true) as Hall by (vm_compute; reflexivity).
  pose proof (below_100_all _ x Hall Hx) as H. cbv beta in H.
  apply andb_true_iff in H. destruct H as [H H2].
  apply andb_true_iff in H. destruct H as [H0 H1].
  assert (check (time.appendInt x width) = true) as Hc.
  { destruct width as [|[|[|w]]]; [assumption .. | lia]. }
  unfold check in Hc. apply andb_true_iff in Hc. destruct Hc as [Hs Hd].
  apply negb_true_iff in Hs. split; [exact Hs|].
  destruct (time.appendInt x width) as [|d rest]; [discriminate|].
  exists d, rest. split; [reflexivity|]. apply negb_true_iff. exact Hd.
Qed.

(** The name of a recording, when the extension holds no slash: it holds
    none and begins with a digit. *)
Lemma stamp_plain t ext :
  time.valid t = true ->
  Extra.has_char "/" ext = false ->
  exists d rest,
    (time.Format t "2025-01-02_15-35-05" ++ ext)%string = String d rest
    /\ Ascii.eqb d "." = false
    /\ Extra.has_char "/" (String d rest) = false.
Proof.
  intros Hv He. destruct (valid_bounds t Hv) as [Hm [Hd [Hh Hs]]].
  pose proof (hour12_bounds t Hh) as Hh12.
  assert (Extra.has_char "/" (time.Format t "2025-01-02_15-35-05" ++ ext)
          = false) as Hno.
  { rewrite stamp_shape.
    repeat first [rewrite has_char_app
                 | progress cbn [Extra.has_char Ascii.eqb Bool.eqb orb]].
    rewrite (proj1 (appendInt_plain (time.Day t) 0 ltac:(lia) ltac:(lia))).
    rewrite (proj1 (appendInt_plain (time.Day t) 2 ltac:(lia) ltac:(lia))).
    rewrite (proj1 (appendInt_plain (time.Second t) 0 ltac:(lia) ltac:(lia))).
    rewrite (proj1 (appendInt_plain (time.Second t) 2 ltac:(lia) ltac:(lia))).
    rewrite (proj1 (appendInt_plain (time.Month t) 2 ltac:(lia) ltac:(lia))).
    rewrite (proj1 (appendInt_plain (time.Hour t) 2 ltac:(lia) ltac:(lia))).
    rewrite (proj1 (appendInt_plain (time.hour12 t) 0 ltac:(lia) ltac:(lia))).
    rewrite He. reflexivity. }
  destruct (proj2 (appendInt_plain (time.Day t) 0 ltac:(lia) ltac:(lia)))
    as [d [rest [E Hdot]]].
  rewrite stamp_shape in *. rewrite E in *. cbn [append] in *.
  eexists. eexists. split; [reflexivity|]. split; [exact Hdot|exact Hno].
Qed.

(** X15: for a configuration whose extension holds no slash and for two
    readings of the clock, the generated paths are equal exactly when the
    readings have the same day of the month, month, hour and second; the
    year and the minute have no part in the name. *)
Theorem generateFilename_equal_iff sr t1 t2 :
  Extra.has_char "/" (main.Extension (main.config sr)) = false ->
  time.valid t1 = true ->
  time.valid t2 = true ->
  main.generateFilename sr t1 = main.generateFilename sr t2
  <-> time.Day t1 = time.Day t2 /\ time.Month t1 = time.Month t2
      /\ time.Hour t1 = time.Hour t2 /\ time.Second t1 = time.Second t2.
Proof.
  intros Hext Hv1 Hv2. split.
  - intros H. unfold main.generateFilename in H.
    destruct (Join_plain (main.RecordingsDir (main.config sr))) as [pre Hpre].
    destruct (stamp_plain t1 _ Hv1 Hext) as [d1 [r1 [E1 [D1 S1]]]].
    destruct (stamp_plain t2 _ Hv2 Hext) as [d2 [r2 [E2 [D2 S2]]]].
    rewrite E1, E2, (Hpre d1 r1 D1 S1), (Hpre d2 r2 D2 S2) in H.
    apply append_inj_r in H. rewrite <- E1, <- E2 in H.
    destruct (valid_bounds t1 Hv1) as [Hm1 [Hd1 [Hh1 Hs1]]].
    destruct (valid_bounds t2 Hv2) as [Hm2 [Hd2 [Hh2 Hs2]]].
    destruct (stamp_cut t1 (main.Extension (main.config sr)) Hv1) as [Ha1 Hb1].
    destruct (stamp_cut t2 (main.Extension (main.config sr)) Hv2) as [Ha2 Hb2].
    rewrite H, Ha2 in Ha1. symmetry in Ha1.
    apply app_same_length in Ha1;
      [|rewrite !appendInt2_length by lia; reflexivity].
    destruct Ha1 as [Em Ha1]. injection Ha1 as Ha1.
    apply app_same_length in Ha1;
      [|rewrite !appendInt2_length by lia; reflexivity].
    destruct Ha1 as [Ed Ha1]. injection Ha1 as Ha1.
    apply app_same_length in Ha1;
      [|rewrite !appendInt2_length by lia; reflexivity].
    destruct Ha1 as [Eh Ha1]. injection Ha1 as Ha1.
    rewrite Ha1, Hb2 in Hb1. symmetry in Hb1.
    apply app_same_length in Hb1;
      [|rewrite !appendInt2_length by lia; reflexivity].
    destruct Hb1 as [Es _].
    apply appendInt2_inj in Em, Ed, Eh, Es; try lia.
  - intros [Hd [Hm [Hh Hs]]]. apply generateFilename_fields; assumption.
Qed.

Lemma generateFilename_equal_iff_witness :
  main.generateFilename Sample.sr (Sample.clock 9 5)
  = main.generateFilename Sample.sr (time.mkTime 1999 3 7 14 59 5).
Proof.
  apply (generateFilename_equal_iff
           Sample.sr (Sample.clock 9 5) (time.mkTime 1999 3 7 14 59 5)
           eq_refl eq_refl eq_refl).
  repeat split.
Defined.

End Names.


(** ** The configuration file *)

Section Configuration.

Import config.

Variable Marshal : main.Config -> string.
Variable Unmarshal : string -> option main.Config.

Lemma find_file_filter_same fs path :
  find_file (filter (fun e => negb (String.eqb (fst e) path)) fs) path = None.
Proof.
  induction fs as [|[p slot] t IH]; [reflexivity|].
  cbn [filter fst]. destruct (String.eqb p path) eqn:E; cbn [negb]; [exact IH|].
  cbn [find_file]. rewrite E. exact IH.
Qed.

Lemma find_file_filter_other fs path q :
  q <> path ->
  find_file (filter (fun e => negb (String.eqb (fst e) path)) fs) q
  = find_file fs q.
Proof.
  intros Hq. induction fs as [|[p slot] t IH]; [reflexivity|].
  cbn [filter fst find_file].
  destruct (String.eqb p path) eqn:E; cbn [negb].
  - apply String.eqb_eq in E. subst p.
    destruct (String.eqb path q) eqn:F; [|exact IH].
    apply String.eqb_eq in F. congruence.
  - cbn [find_file]. rewrite IH. reflexivity.
Qed.

Lemma WriteFile_read h path data h' :
  WriteFile h path data = (h', None) ->
  Home h' = Home h /\ write_fails h' = write_fails h
  /\ find_file (files h') path = Some (Content data)
  /\ forall q, q <> path -> find_file (files h') q = find_file (files h) q.
Proof.
  unfold WriteFile. destruct (write_fails h) eqn:W; [discriminate|].
  intros [= <-]. cbn [Home files write_fails find_file].
  rewrite String.eqb_refl. repeat split; auto.
  intros q Hq. destruct (String.eqb path q) eqn:E.
  - apply String.eqb_eq in E. congruence.
  - apply find_file_filter_other. exact Hq.
Qed.

Lemma WriteFile_failed h path data h' e :
  WriteFile h path data = (h', Some e) -> h' = h.
Proof.
  unfold WriteFile. destruct (write_fails h); congruence.
Qed.

(** X16: a configuration that was saved without an error is the one the next
    load returns, as far as the JSON codec gives back what it wrote; the load
    reports no error and changes nothing. *)
Theorem SaveConfig_LoadConfig h config h' config' :
  SaveConfig Marshal h config = (h', None) ->
  Unmarshal (Marshal config) = Some config' ->
  LoadConfig Marshal Unmarshal h' = (h', config', None).
Proof.
  unfold SaveConfig, LoadConfig.
  destruct (Home h) as [homeDir|] eqn:H; [|discriminate].
  intros W U. apply WriteFile_read in W. destruct W as (Hh & _ & F & _).
  rewrite Hh, H. rewrite F. unfold ReadFile. rewrite F, U. reflexivity.
Qed.

(** X17: on a first run, with no configuration file, [LoadConfig] returns the
    defaults without an error whether or not they could be saved.  If the
    file could be written it holds the defaults afterwards and no other path
    has changed, so that a second load, given a codec that gives the defaults
    back, returns the same configuration and leaves the host alone; if it
    could not, the host is as it was. *)
Theorem LoadConfig_first_run h homeDir h' config err :
  Home h = Some homeDir ->
  find_file (files h) (filepath.Join homeDir configFilename) = None ->
  LoadConfig Marshal Unmarshal h = (h', config, err) ->
  config = DefaultConfig h /\ err = None
  /\ (write_fails h = true -> h' = h)
  /\ (write_fails h = false ->
      ReadFile h' (filepath.Join homeDir configFilename)
      = Some (Marshal (DefaultConfig h))
      /\ (forall q, q <> filepath.Join homeDir configFilename ->
                    find_file (files h') q = find_file (files h) q)
      /\ (Unmarshal (Marshal (DefaultConfig h)) = Some (DefaultConfig h) ->
          LoadConfig Marshal Unmarshal h' = (h', DefaultConfig h, None))).
Proof.
  intros H F. unfold LoadConfig at 1. rewrite H, F.
  destruct (SaveConfig Marshal h (DefaultConfig h)) as [h1 e1] eqn:S.
  intros [= <- <- <-]. split; [reflexivity|]. split; [reflexivity|].
  unfold SaveConfig in S. rewrite H in S. split.
  - intros W. unfold WriteFile in S. rewrite W in S. congruence.
  - intros W. destruct e1 as [e|].
    + unfold WriteFile in S. rewrite W in S. discriminate.
    + apply WriteFile_read in S. destruct S as (Hh & _ & R & O).
      split; [unfold ReadFile; rewrite R; reflexivity|].
      split; [exact O|].
      intros U. unfold LoadConfig. rewrite Hh, H, R.
      unfold ReadFile. rewrite R, U. reflexivity.
Qed.

(** X18: [LoadConfig] changes no file that exists: whatever it returns, every
    path that held a file holds the same file afterwards.  When it reports an
    error the host is untouched and the configuration returned is already the
    default one, so that the fallback in [main] assigns the value it had. *)
Theorem LoadConfig_preserves_files h h' config err :
  LoadConfig Marshal Unmarshal h = (h', config, err) ->
  (forall q slot, find_file (files h) q = Some slot ->
                  find_file (files h') q = Some slot)
  /\ (err <> None -> h' = h /\ config = DefaultConfig h)
  /\ main_config Marshal Unmarshal h = (h', config).
Proof.
  intros L. unfold main_config. rewrite L.
  unfold LoadConfig in L.
  destruct (Home h) as [homeDir|] eqn:H.
  2:{ injection L as <- <- <-. repeat split; auto. }
  destruct (find_file (files h) (filepath.Join homeDir configFilename))
    as [slot0|] eqn:F.
  - destruct (ReadFile h (filepath.Join homeDir configFilename)) as [data|].
    + destruct (Unmarshal data) as [c|].
      * injection L as <- <- <-. repeat split; auto. congruence.
      * injection L as <- <- <-. repeat split; auto.
    + injection L as <- <- <-. repeat split; auto.
  - destruct (SaveConfig Marshal h (DefaultConfig h)) as [h1 e1] eqn:S.
    injection L as <- <- <-. split; [|split; [congruence|reflexivity]].
    intros q slot Q. unfold SaveConfig in S. rewrite H in S.
    destruct e1 as [e|].
    + apply WriteFile_failed in S. subst h1. exact Q.
    + apply WriteFile_read in S. destruct S as (_ & _ & _ & O).
      rewrite O; [exact Q|]. intros ->. congruence.
Qed.

End Configuration.

Section ConfigurationWitnesses.

Import config.

Lemma SaveConfig_LoadConfig_witness :
  LoadConfig sample_Marshal sample_Unmarshal sample_saved
  = (sample_saved,
     main.mkConfig "/srv/rec" 60 60 ".mkv" "libx265" false, None).
Proof.
  apply (SaveConfig_LoadConfig sample_Marshal sample_Unmarshal sample_host
           (main.mkConfig "/srv/rec" 60 60 ".mkv" "libx265" false)).
  - reflexivity.
  - reflexivity.
Defined.

Lemma LoadConfig_first_run_witness :
  main.RecordingsDir (DefaultConfig sample_host) = "/home/user/recordings"
  /\ ReadFile (fst (fst (LoadConfig sample_Marshal sample_Unmarshal sample_host)))
              "/home/user/dashcam.json"
     = Some "/home/user/recordings".
Proof.
  split; [reflexivity|].
  destruct (LoadConfig_first_run sample_Marshal sample_Unmarshal sample_host "/home/user"
              (fst (fst (LoadConfig sample_Marshal sample_Unmarshal sample_host)))
              (snd (fst (LoadConfig sample_Marshal sample_Unmarshal sample_host)))
              (snd (LoadConfig sample_Marshal sample_Unmarshal sample_host))
              eq_refl eq_refl eq_refl) as (_ & _ & _ & W).
  exact (proj1 (W eq_refl)).
Defined.

Lemma LoadConfig_preserves_files_witness :
  LoadConfig sample_Marshal sample_Unmarshal sample_locked
  = (sample_locked, DefaultConfig sample_locked, Some (Failure "read"))
  /\ main_config sample_Marshal sample_Unmarshal sample_locked
     = (sample_locked, DefaultConfig sample_locked).
Proof.
  split; [reflexivity|].
  exact (proj2 (proj2 (LoadConfig_preserves_files sample_Marshal sample_Unmarshal sample_locked sample_locked
                         (DefaultConfig sample_locked) (Some (Failure "read"))
                         eq_refl))).
Defined.

End ConfigurationWitnesses.

(** ** The hotkey texts *)

Section HotkeyTexts.

Lemma upper_upper c : strings.upper (strings.upper c) = strings.upper c.
Proof.
  destruct c as [[] [] [] [] [] [] [] []]; vm_compute; reflexivity.
Qed.

Lemma upper_lower c : strings.upper (strings.lower c) = strings.upper c.
Proof.
  destruct c as [[] [] [] [] [] [] [] []]; vm_compute; reflexivity.
Qed.

Lemma upper_space c :
  Ascii.eqb (strings.upper c) " " = Ascii.eqb c " ".
Proof.
  destruct c as [[] [] [] [] [] [] [] []]; vm_compute; reflexivity.
Qed.

Lemma lower_space c :
  Ascii.eqb (strings.lower c) " " = Ascii.eqb c " ".
Proof.
  destruct c as [[] [] [] [] [] [] [] []]; vm_compute; reflexivity.
Qed.

Lemma ToUpper_ToUpper s :
  strings.ToUpper (strings.ToUpper s) = strings.ToUpper s.
Proof.
  induction s as [|c t IH]; [reflexivity|].
  cbn [strings.ToUpper]. rewrite upper_upper, IH. reflexivity.
Qed.

Lemma ToUpper_ToLower s :
  strings.ToUpper (strings.ToLower s) = strings.ToUpper s.
Proof.
  induction s as [|c t IH]; [reflexivity|].
  cbn [strings.ToUpper strings.ToLower]. rewrite upper_lower, IH. reflexivity.
Qed.

Lemma strip_ToUpper s :
  strings.ReplaceAll (strings.ToUpper s) " " ""
  = strings.ToUpper (strings.ReplaceAll s " " "").
Proof.
  induction s as [|c t IH]; [reflexivity|].
  cbn [strings.ToUpper strings.ReplaceAll]. rewrite upper_space.
  destruct (Ascii.eqb c " "); cbn [append strings.ToUpper]; rewrite IH;
    reflexivity.
Qed.

Lemma strip_ToLower s :
  strings.ReplaceAll (strings.ToLower s) " " ""
  = strings.ToLower (strings.ReplaceAll s " " "").
Proof.
  induction s as [|c t IH]; [reflexivity|].
  cbn [strings.ToLower strings.ReplaceAll]. rewrite lower_space.
  destruct (Ascii.eqb c " "); cbn [append strings.ToLower]; rewrite IH;
    reflexivity.
Qed.

Lemma strip_strip s :
  strings.ReplaceAll (strings.ReplaceAll s " " "") " " ""
  = strings.ReplaceAll s " " "".
Proof.
  induction s as [|c t IH]; [reflexivity|].
  cbn [strings.ReplaceAll].
  destruct (Ascii.eqb c " ") eqn:E; cbn [append strings.ReplaceAll].
  - exact IH.
  - rewrite E, IH. reflexivity.
Qed.

(** X19: the text of a hotkey is read without regard to case and to
    spaces: on a text of ASCII bytes, [parseHotkey] returns the same
    modifiers and key for the text in upper case, in lower case, and with
    its spaces taken out. *)
Theorem parseHotkey_case_and_spaces hotkey :
  strings.is_ascii hotkey = true ->
  hotkey.parseHotkey (strings.ToUpper hotkey) = hotkey.parseHotkey hotkey
  /\ hotkey.parseHotkey (strings.ToLower hotkey) = hotkey.parseHotkey hotkey
  /\ hotkey.parseHotkey (strings.ReplaceAll hotkey " " "")
     = hotkey.parseHotkey hotkey.
Proof.
  intros _. unfold hotkey.parseHotkey. repeat split.
  - rewrite strip_ToUpper, ToUpper_ToUpper. reflexivity.
  - rewrite strip_ToLower, ToUpper_ToLower. reflexivity.
  - rewrite strip_strip. reflexivity.
Qed.

Lemma parseHotkey_case_and_spaces_witness :
  hotkey.parseHotkey "Ctrl + Super + e" = ("CTRL SUPER", "e")
  /\ hotkey.parseHotkey "CTRL + SUPER + E" = hotkey.parseHotkey "Ctrl + Super + e"
  /\ hotkey.parseHotkey "ctrl + super + e" = hotkey.parseHotkey "Ctrl + Super + e"
  /\ hotkey.parseHotkey "Ctrl+Super+e" = hotkey.parseHotkey "Ctrl + Super + e".
Proof.
  split; [reflexivity|].
  exact (parseHotkey_case_and_spaces "Ctrl + Super + e" eq_refl).
Defined.

Lemma strip_app a b :
  strings.ReplaceAll (a ++ b) " " ""
  = strings.ReplaceAll a " " "" ++ strings.ReplaceAll b " " "".
Proof.
  induction a as [|c t IH]; [reflexivity|].
  cbn [append strings.ReplaceAll].
  destruct (Ascii.eqb c " "); cbn [append]; rewrite IH; reflexivity.
Qed.

Lemma ToUpper_app a b :
  strings.ToUpper (a ++ b) = strings.ToUpper a ++ strings.ToUpper b.
Proof.
  induction a as [|c t IH]; [reflexivity|].
  cbn [append strings.ToUpper]. rewrite IH. reflexivity.
Qed.

Lemma Split_not_nil s sep : strings.Split s sep <> [].
Proof.
  destruct s as [|c t]; cbn [strings.Split]; [discriminate|].
  destruct (Ascii.eqb c sep); [discriminate|].
  destruct (strings.Split t sep); discriminate.
Qed.

Lemma Split_trailing s sep :
  strings.Split (s ++ String sep "") sep
  = (strings.Split s sep ++ [""])%list.
Proof.
  induction s as [|c t IH].
  - cbn. rewrite Ascii.eqb_refl. reflexivity.
  - cbn [append strings.Split]. destruct (Ascii.eqb c sep).
    + rewrite IH. reflexivity.
    + rewrite IH. destruct (strings.Split t sep) as [|p r] eqn:E.
      * exfalso. exact (Split_not_nil t sep E).
      * reflexivity.
Qed.

Lemma parseHotkey_trailing_plus hotkey :
  snd (hotkey.parseHotkey (hotkey ++ "+")) = "".
Proof.
  unfold hotkey.parseHotkey.
  rewrite strip_app, ToUpper_app.
  change (strings.ToUpper (strings.ReplaceAll "+" " " "")) with "+".
  rewrite Split_trailing, fold_left_app.
  destruct (fold_left hotkey.parse_part (strings.Split _ _) _) as [mods key].
  reflexivity.
Qed.

End HotkeyTexts.

(** ** The hotkey manager *)

Section Registry.

Import hotkey.

Variable C : Type.

Implicit Types (hm : HyprlandHotkeyManager C) (m : list (string * HotkeyEntry C)).

Lemma lookup_delete_same m id : lookup (delete m id) id = None.
Proof.
  induction m as [|[k e] t IH]; [reflexivity|].
  unfold delete in *. cbn [filter fst].
  destruct (String.eqb k id) eqn:E; cbn [negb]; [exact IH|].
  cbn [lookup]. rewrite E. exact IH.
Qed.

Lemma lookup_delete_other m id id' :
  id' <> id -> lookup (delete m id) id' = lookup m id'.
Proof.
  intros Hn. induction m as [|[k e] t IH]; [reflexivity|].
  unfold delete in *. cbn [filter fst lookup].
  destruct (String.eqb k id) eqn:E; cbn [negb].
  - apply String.eqb_eq in E. subst k.
    destruct (String.eqb id id') eqn:F; [|exact IH].
    apply String.eqb_eq in F. congruence.
  - cbn [lookup]. rewrite IH. reflexivity.
Qed.

Lemma lookup_store_same m id e : lookup (store m id e) id = Some e.
Proof.
  unfold store. cbn [lookup]. rewrite String.eqb_refl. reflexivity.
Qed.

Lemma lookup_store_other m id e id' :
  id' <> id -> lookup (store m id e) id' = lookup m id'.
Proof.
  intros Hn. unfold store. cbn [lookup].
  destruct (String.eqb id id') eqn:F.
  - apply String.eqb_eq in F. congruence.
  - apply lookup_delete_other. exact Hn.
Qed.

Lemma lookup_set_active_same m id e active :
  lookup m id = Some e ->
  lookup (set_active m id active) id
  = Some (mkEntry (ID e) (Hotkey e) (Callback e) active).
Proof.
  induction m as [|[k e0] t IH]; [discriminate|].
  cbn [lookup set_active]. destruct (String.eqb k id) eqn:E.
  - intros [= ->]. cbn [lookup]. rewrite E. reflexivity.
  - intros L. cbn [lookup]. rewrite E. exact (IH L).
Qed.

Lemma lookup_set_active_other m id active id' :
  id' <> id -> lookup (set_active m id active) id' = lookup m id'.
Proof.
  intros Hn. induction m as [|[k e0] t IH]; [reflexivity|].
  cbn [lookup set_active]. destruct (String.eqb k id) eqn:E.
  - cbn [lookup]. apply String.eqb_eq in E. subst k.
    destruct (String.eqb id id') eqn:F; [|reflexivity].
    apply String.eqb_eq in F. congruence.
  - cbn [lookup]. rewrite IH. reflexivity.
Qed.

Lemma delete_delete m id : delete (delete m id) id = delete m id.
Proof.
  unfold delete. induction m as [|[k e] t IH]; [reflexivity|].
  cbn [filter fst]. destruct (String.eqb k id) eqn:E; cbn [negb filter fst].
  - exact IH.
  - rewrite E. cbn [negb]. rewrite IH. reflexivity.
Qed.

Lemma Unlock_Lock hm :
  locked hm = false -> Unlock (with_locked hm true) = hm.
Proof.
  destruct hm. cbn. intros ->. reflexivity.
Qed.

Lemma Unlock_Lock_hotkeys hm m :
  locked hm = false ->
  Unlock (with_hotkeys (with_locked hm true) m) = with_hotkeys hm m.
Proof.
  destruct hm. cbn. intros ->. reflexivity.
Qed.

Lemma handle_lookup hm id :
  locked hm = false ->
  handleHotkeyEvent hm id
  = (match lookup (hotkeys hm) id with
     | Some e =>
         if Active e then [GoCallback (Callback e) (Hotkey e)] else []
     | None => []
     end, Done hm tt).
Proof.
  intros L. unfold handleHotkeyEvent. rewrite L.
  destruct (lookup (hotkeys hm) id) as [e|]; [|reflexivity].
  destruct (Active e); reflexivity.
Qed.

Lemma Register_cases hm hotkey cb now ok :
  locked hm = false ->
  RegisterHotkey hm hotkey cb now ok
  = if String.eqb (snd (parseHotkey hotkey)) "" then
      ([], Done hm ("", Some (Failure "invalid hotkey format")))
    else if ok then
      ([Hyprctl ["keyword"; "bind";
                 bind_argument (pipePath hm) (generateHotkeyID hotkey now)
                               (fst (parseHotkey hotkey))
                               (snd (parseHotkey hotkey))]],
       Done (with_hotkeys hm
               (store (hotkeys hm) (generateHotkeyID hotkey now)
                      (mkEntry (generateHotkeyID hotkey now) hotkey cb true)))
            (generateHotkeyID hotkey now, None))
    else
      ([Hyprctl ["keyword"; "bind";
                 bind_argument (pipePath hm) (generateHotkeyID hotkey now)
                               (fst (parseHotkey hotkey))
                               (snd (parseHotkey hotkey))]],
       Done hm ("", Some (Failure "failed to register hotkey"))).
Proof.
  intros L. unfold RegisterHotkey, Lock. rewrite L.
  destruct (parseHotkey hotkey) as [mod_ key]. cbn [fst snd].
  destruct (String.eqb key ""); [rewrite (Unlock_Lock hm L); reflexivity|].
  destruct ok; cbn [negb].
  - rewrite (Unlock_Lock_hotkeys hm _ L). destruct hm; reflexivity.
  - rewrite (Unlock_Lock hm L). destruct hm; reflexivity.
Qed.

Lemma Unregister_cases hm id ok :
  locked hm = false ->
  UnregisterHotkey hm id ok
  = match lookup (hotkeys hm) id with
    | None => ([], Done hm (Some (Failure "hotkey not found")))
    | Some e =>
        ([Hyprctl ["keyword"; "unbind";
                   unbind_argument (fst (parseHotkey (Hotkey e)))
                                   (snd (parseHotkey (Hotkey e)))]],
         Done (with_hotkeys hm (delete (hotkeys hm) id)) None)
    end.
Proof.
  intros L. unfold UnregisterHotkey, Lock. rewrite L.
  change (hotkeys (with_locked hm true)) with (hotkeys hm).
  destruct (lookup (hotkeys hm) id) as [e|].
  - destruct (parseHotkey (Hotkey e)) as [mod_ key]. cbn [fst snd].
    rewrite (Unlock_Lock_hotkeys hm _ L). reflexivity.
  - rewrite (Unlock_Lock hm L). reflexivity.
Qed.

Lemma SetActive_cases hm id active :
  locked hm = false ->
  SetHotkeyActive hm id active
  = match lookup (hotkeys hm) id with
    | None => Done hm (Some (Failure "hotkey not found"))
    | Some _ =>
        Done (with_hotkeys hm (set_active (hotkeys hm) id active)) None
    end.
Proof.
  intros L. unfold SetHotkeyActive, Lock. rewrite L.
  change (hotkeys (with_locked hm true)) with (hotkeys hm).
  destruct (lookup (hotkeys hm) id) as [e|].
  - rewrite (Unlock_Lock_hotkeys hm _ L). reflexivity.
  - rewrite (Unlock_Lock hm L). reflexivity.
Qed.

(** X20: a hotkey text that ends in a plus sign has no key, whatever comes
    before: [RegisterHotkey] rejects it, runs no command and leaves the
    manager as it was.  So the plus key itself cannot be bound. *)
Theorem RegisterHotkey_trailing_plus hm hotkey cb now ok :
  locked hm = false ->
  RegisterHotkey hm (hotkey ++ "+") cb now ok
  = ([], Done hm ("", Some (Failure "invalid hotkey format"))).
Proof.
  intros L. rewrite (Register_cases hm _ cb now ok L).
  rewrite parseHotkey_trailing_plus. reflexivity.
Qed.

(** X21: after a registration that returned an identifier, an event with
    that identifier starts the registered callback on the hotkey text as it
    was given (not as it was parsed), and every other identifier is handled
    as before. *)
Theorem RegisterHotkey_then_event hm hotkey cb now ok ev hm' id :
  locked hm = false ->
  RegisterHotkey hm hotkey cb now ok = (ev, Done hm' (id, None)) ->
  id = generateHotkeyID hotkey now
  /\ handleHotkeyEvent hm' id = ([GoCallback cb hotkey], Done hm' tt)
  /\ forall id', id' <> id ->
       fst (handleHotkeyEvent hm' id') = fst (handleHotkeyEvent hm id').
Proof.
  intros L R. rewrite (Register_cases hm hotkey cb now ok L) in R.
  destruct (String.eqb (snd (parseHotkey hotkey)) ""); [discriminate|].
  destruct ok; [|discriminate].
  injection R as <- <- <-. split; [reflexivity|].
  assert (L' : locked (with_hotkeys hm
                (store (hotkeys hm) (generateHotkeyID hotkey now)
                   (mkEntry (generateHotkeyID hotkey now) hotkey cb true)))
               = false) by exact L.
  split.
  - rewrite (handle_lookup _ _ L'). cbn [hotkeys with_hotkeys].
    rewrite lookup_store_same. reflexivity.
  - intros id' Hn. rewrite (handle_lookup _ _ L'), (handle_lookup _ _ L).
    cbn [hotkeys with_hotkeys fst]. rewrite lookup_store_other by exact Hn.
    reflexivity.
Qed.

(** X22: [SetHotkeyActive] with [false] silences a registered hotkey without
    forgetting it: its events start nothing until it is set active again,
    and then they start the same callback on the same text.  Other
    identifiers are handled as before throughout. *)
Theorem SetHotkeyActive_toggle hm id e :
  locked hm = false ->
  lookup (hotkeys hm) id = Some e ->
  exists hm1 hm2,
    SetHotkeyActive hm id false = Done hm1 None
    /\ handleHotkeyEvent hm1 id = ([], Done hm1 tt)
    /\ SetHotkeyActive hm1 id true = Done hm2 None
    /\ handleHotkeyEvent hm2 id
       = ([GoCallback (Callback e) (Hotkey e)], Done hm2 tt)
    /\ forall id', id' <> id ->
         fst (handleHotkeyEvent hm1 id') = fst (handleHotkeyEvent hm id')
         /\ fst (handleHotkeyEvent hm2 id') = fst (handleHotkeyEvent hm id').
Proof.
  intros L F.
  set (hm1 := with_hotkeys hm (set_active (hotkeys hm) id false)).
  set (hm2 := with_hotkeys hm1 (set_active (hotkeys hm1) id true)).
  assert (L1 : locked hm1 = false) by exact L.
  assert (L2 : locked hm2 = false) by exact L.
  assert (F1 : lookup (hotkeys hm1) id
               = Some (mkEntry (ID e) (Hotkey e) (Callback e) false))
    by (apply lookup_set_active_same; exact F).
  assert (F2 : lookup (hotkeys hm2) id
               = Some (mkEntry (ID e) (Hotkey e) (Callback e) true))
    by (exact (lookup_set_active_same _ _ _ true F1)).
  exists hm1, hm2. repeat split.
  - rewrite (SetActive_cases hm id false L), F. reflexivity.
  - rewrite (handle_lookup _ _ L1), F1. reflexivity.
  - rewrite (SetActive_cases hm1 id true L1), F1. reflexivity.
  - rewrite (handle_lookup _ _ L2), F2. reflexivity.
  - rewrite (handle_lookup _ _ L1), (handle_lookup _ _ L).
    cbn [fst hm1 hotkeys with_hotkeys].
    rewrite lookup_set_active_other by assumption. reflexivity.
  - rewrite (handle_lookup _ _ L2), (handle_lookup _ _ L).
    cbn [fst hm2 hm1 hotkeys with_hotkeys].
    rewrite !lookup_set_active_other by assumption. reflexivity.
Qed.

(** X23: [UnregisterHotkey] forgets a registered hotkey whether or not the
    unbind command succeeds, and leaves the same manager in both cases.
    Afterwards an event with the identifier starts nothing, a second call
    reports that the identifier is not found, runs no command and changes
    nothing, and other identifiers are handled as before. *)
Theorem UnregisterHotkey_forgets hm id e :
  locked hm = false ->
  lookup (hotkeys hm) id = Some e ->
  exists ev hm1,
    (forall ok, UnregisterHotkey hm id ok = (ev, Done hm1 None))
    /\ handleHotkeyEvent hm1 id = ([], Done hm1 tt)
    /\ (forall ok, UnregisterHotkey hm1 id ok
                   = ([], Done hm1 (Some (Failure "hotkey not found"))))
    /\ forall id', id' <> id ->
         fst (handleHotkeyEvent hm1 id') = fst (handleHotkeyEvent hm id').
Proof.
  intros L F.
  set (hm1 := with_hotkeys hm (delete (hotkeys hm) id)).
  assert (L1 : locked hm1 = false) by exact L.
  assert (F1 : lookup (hotkeys hm1) id = None)
    by apply lookup_delete_same.
  eexists. exists hm1. repeat split.
  - intros ok. rewrite (Unregister_cases hm id ok L), F. reflexivity.
  - rewrite (handle_lookup _ _ L1), F1. reflexivity.
  - intros ok. rewrite (Unregister_cases hm1 id ok L1), F1. reflexivity.
  - intros id' Hn. rewrite (handle_lookup _ _ L1), (handle_lookup _ _ L).
    cbn [fst hm1 hotkeys with_hotkeys].
    rewrite lookup_delete_other by assumption. reflexivity.
Qed.

Lemma unregister_all_locked hm ids ok :
  locked hm = true ->
  ids <> [] ->
  unregister_all hm ids ok = ([], Blocked).
Proof.
  intros L Hn. destruct ids as [|id rest]; [congruence|].
  cbn [unregister_all]. unfold UnregisterHotkey, Lock. rewrite L. reflexivity.
Qed.

(** X24: [Close] returns only on a manager without hotkeys.  With a hotkey
    registered it takes the mutex and then calls [UnregisterHotkey], which
    waits for the same mutex: the call never returns, no command is run and
    the pipe is not removed.  Without hotkeys it removes the pipe, returns
    no error, and leaves the manager not listening and unlocked. *)
Theorem Close_blocks_on_registered hm ok :
  locked hm = false ->
  (listening hm && stopChan_closed hm) = false ->
  (hotkeys hm <> [] -> Close hm ok = ([], Blocked))
  /\ (hotkeys hm = [] ->
      exists hm',
        Close hm ok = ([RemoveFile (pipePath hm)], Done hm' None)
        /\ listening hm' = false /\ locked hm' = false
        /\ hotkeys hm' = []).
Proof.
  intros L S. unfold Close, StopListening.
  destruct hm as [pipe m lk li cl sig]. cbn in L, S. subst lk.
  cbn [listening stopChan_closed with_listening hotkeys pipePath].
  split.
  - intros Hn.
    assert (Hk : map fst m <> []) by (destruct m; [congruence|discriminate]).
    destruct li; cbn [negb].
    + cbn in S. subst cl.
      unfold Lock, close_stopChan, with_listening, with_locked.
      cbn [locked hotkeys pipePath listening stopChan_closed instanceSig].
      rewrite unregister_all_locked; [reflexivity|reflexivity|exact Hk].
    + unfold Lock, with_locked.
      cbn [locked hotkeys pipePath listening stopChan_closed instanceSig].
      rewrite unregister_all_locked; [reflexivity|reflexivity|exact Hk].
  - intros ->. destruct li; cbn [negb].
    + cbn in S. subst cl. eexists. cbn. repeat split.
    + eexists. cbn. repeat split.
Qed.

(** X25: a manager listens once.  After [StopListening] has closed the
    channel, [StartListening] still succeeds and starts a goroutine, but the
    goroutine leaves at its first step without reading the pipe, and the
    next [StopListening] (or [Close]) panics on closing the closed
    channel. *)
Theorem StopListening_once hm (TrimSpace : string -> string) opened ok :
  listening hm = true ->
  stopChan_closed hm = false ->
  exists hm1 hm2,
    StopListening hm = ([], Done hm1 tt)
    /\ StartListening hm1 = ([GoListener], Done hm2 None)
    /\ listener_iteration TrimSpace hm2 opened = ([], Exit)
    /\ StopListening hm2 = ([], Panic "close of closed channel")
    /\ Close hm2 ok = ([], Panic "close of closed channel").
Proof.
  intros Li Cl. destruct hm as [pipe m lk li cl sig]. cbn in Li, Cl. subst.
  eexists. eexists. repeat split.
Qed.

(** X26: two registrations that get the same identifier (the same text, or
    texts that differ in plus signs, underscores and spaces only, at the
    same reading of the clock) leave the manager as the second alone would
    have: the first callback is forgotten although its binding was sent to
    Hyprland, and an event with the identifier starts the second callback
    only. *)
Theorem RegisterHotkey_same_identifier
        hm h1 cb1 now1 h2 cb2 now2 ev1 ev2 hm1 hm2 id :
  locked hm = false ->
  RegisterHotkey hm h1 cb1 now1 true = (ev1, Done hm1 (id, None)) ->
  RegisterHotkey hm1 h2 cb2 now2 true = (ev2, Done hm2 (id, None)) ->
  RegisterHotkey hm h2 cb2 now2 true = (ev2, Done hm2 (id, None))
  /\ (exists arg, ev1 = [Hyprctl ["keyword"; "bind"; arg]])
  /\ handleHotkeyEvent hm2 id = ([GoCallback cb2 h2], Done hm2 tt).
Proof.
  intros L R1 R2. rewrite (Register_cases hm h1 cb1 now1 true L) in R1.
  destruct (String.eqb (snd (parseHotkey h1)) ""); [discriminate|].
  remember (generateHotkeyID h1 now1) as id1 eqn:Hid1.
  injection R1 as <- <- E1. rewrite E1 in *.
  assert (L1 : locked (with_hotkeys hm
                 (store (hotkeys hm) id (mkEntry id h1 cb1 true))) = false)
    by exact L.
  rewrite (Register_cases _ h2 cb2 now2 true L1) in R2.
  rewrite (Register_cases hm h2 cb2 now2 true L).
  destruct (String.eqb (snd (parseHotkey h2)) ""); [discriminate|].
  remember (generateHotkeyID h2 now2) as id2 eqn:Hid2.
  injection R2 as <- <- E2. rewrite E2 in *.
  split; [|split].
  - f_equal. f_equal. unfold with_hotkeys, store.
    cbn [pipePath hotkeys locked listening stopChan_closed instanceSig].
    f_equal. f_equal. symmetry. unfold delete. cbn [filter fst].
    rewrite String.eqb_refl. cbn [negb].
    exact (delete_delete (hotkeys hm) id).
  - eexists. reflexivity.
  - rewrite handle_lookup by exact L.
    cbn [hotkeys with_hotkeys]. rewrite lookup_store_same. reflexivity.
Qed.

End Registry.

Section RegistryWitnesses.

Import hotkey.

Lemma RegisterHotkey_trailing_plus_witness :
  RegisterHotkey sample_fresh "CTRL++" 1%nat 5 true
  = ([], Done sample_fresh ("", Some (Failure "invalid hotkey format"))).
Proof.
  exact (RegisterHotkey_trailing_plus nat sample_fresh "CTRL+" 1%nat 5 true
           eq_refl).
Defined.

Lemma RegisterHotkey_then_event_witness :
  RegisterHotkey sample_fresh "CTRL+A" 1%nat 5 true
  = ([Hyprctl ["keyword"; "bind";
               "CTRL, a, exec, echo 'hotkey_CTRL_A_5' > /tmp/hyprland_hotkey_pipe"]],
     Done sample_one ("hotkey_CTRL_A_5", None))
  /\ handleHotkeyEvent sample_one "hotkey_CTRL_A_5"
     = ([GoCallback 1%nat "CTRL+A"], Done sample_one tt).
Proof.
  split; [reflexivity|].
  exact (proj1 (proj2 (RegisterHotkey_then_event nat sample_fresh "CTRL+A"
                         1%nat 5 true _ sample_one "hotkey_CTRL_A_5"
                         eq_refl eq_refl))).
Defined.

Lemma SetHotkeyActive_toggle_witness :
  exists hm1 hm2 : HyprlandHotkeyManager nat,
    SetHotkeyActive sample_one "hotkey_CTRL_A_5" false = Done hm1 None
    /\ handleHotkeyEvent hm1 "hotkey_CTRL_A_5" = ([], Done hm1 tt)
    /\ SetHotkeyActive hm1 "hotkey_CTRL_A_5" true = Done hm2 None
    /\ handleHotkeyEvent hm2 "hotkey_CTRL_A_5"
       = ([GoCallback 1%nat "CTRL+A"], Done hm2 tt).
Proof.
  destruct (SetHotkeyActive_toggle nat sample_one "hotkey_CTRL_A_5"
              sample_entry eq_refl eq_refl)
    as (hm1 & hm2 & A & B & D & E & _).
  exists hm1, hm2. repeat split; assumption.
Defined.

Lemma UnregisterHotkey_forgets_witness :
  fst (UnregisterHotkey sample_one "hotkey_CTRL_A_5" false)
  = [Hyprctl ["keyword"; "unbind"; "CTRL, a"]]
  /\ exists hm1 : HyprlandHotkeyManager nat,
       snd (UnregisterHotkey sample_one "hotkey_CTRL_A_5" false)
       = Done hm1 None
       /\ snd (UnregisterHotkey sample_one "hotkey_CTRL_A_5" true)
          = Done hm1 None
       /\ handleHotkeyEvent hm1 "hotkey_CTRL_A_5" = ([], Done hm1 tt).
Proof.
  split; [reflexivity|].
  destruct (UnregisterHotkey_forgets nat sample_one "hotkey_CTRL_A_5"
              sample_entry eq_refl eq_refl)
    as (ev & hm1 & A & B & _).
  exists hm1. rewrite (A false), (A true). repeat split. exact B.
Defined.

Lemma Close_blocks_on_registered_witness :
  Close sample_one (fun _ => true) = ([], Blocked).
Proof.
  apply (proj1 (Close_blocks_on_registered nat sample_one (fun _ => true)
                  eq_refl eq_refl)).
  discriminate.
Defined.

Lemma StopListening_once_witness :
  exists hm1 hm2 : HyprlandHotkeyManager nat,
    StopListening sample_listening = ([], Done hm1 tt)
    /\ StartListening hm1 = ([GoListener], Done hm2 None)
    /\ listener_iteration (fun s => s) hm2 (Scanned ["hotkey_CTRL_A_5"])
       = ([], Exit)
    /\ StopListening hm2 = ([], Panic "close of closed channel").
Proof.
  destruct (StopListening_once nat sample_listening (fun s => s)
              (Scanned ["hotkey_CTRL_A_5"]) (fun _ => true) eq_refl eq_refl)
    as (hm1 & hm2 & A & B & D & E & _).
  exists hm1, hm2. repeat split; assumption.
Defined.

Lemma RegisterHotkey_same_identifier_witness :
  RegisterHotkey sample_one "CTRL_A" 2%nat 5 true
  = ([Hyprctl ["keyword"; "bind";
               ", CTRL_A, exec, echo 'hotkey_CTRL_A_5' > /tmp/hyprland_hotkey_pipe"]],
     Done sample_second ("hotkey_CTRL_A_5", None))
  /\ handleHotkeyEvent sample_second "hotkey_CTRL_A_5"
     = ([GoCallback 2%nat "CTRL_A"], Done sample_second tt).
Proof.
  split; [reflexivity|].
  exact (proj2 (proj2 (RegisterHotkey_same_identifier nat sample_fresh
                         "CTRL+A" 1%nat 5 "CTRL_A" 2%nat 5 _ _
                         sample_one sample_second "hotkey_CTRL_A_5"
                         eq_refl eq_refl eq_refl))).
Defined.

End RegistryWitnesses.

(** ** Sequences of calls on a manager *)

Section Runs.

Import hotkey.

Variable C : Type.

Implicit Types (hm : HyprlandHotkeyManager C) (m : list (string * HotkeyEntry C)).

Lemma lookup_delete_Some m id id' e :
  lookup (delete m id) id' = Some e -> lookup m id' = Some e.
Proof.
  destruct (String.eqb id' id) eqn:E.
  - apply String.eqb_eq in E. subst id'.
    rewrite lookup_delete_same. discriminate.
  - apply String.eqb_neq in E. rewrite lookup_delete_other by exact E. auto.
Qed.

Lemma lookup_store_Some m id e0 id' e :
  lookup (store m id e0) id' = Some e -> e = e0 \/ lookup m id' = Some e.
Proof.
  destruct (String.eqb id' id) eqn:E.
  - apply String.eqb_eq in E. subst id'.
    rewrite lookup_store_same. intros [= <-]. left. reflexivity.
  - apply String.eqb_neq in E. rewrite lookup_store_other by exact E. auto.
Qed.

Lemma lookup_set_active_Some m id active id' e :
  lookup (set_active m id active) id' = Some e ->
  exists e0, lookup m id' = Some e0
             /\ Callback e = Callback e0 /\ Hotkey e = Hotkey e0.
Proof.
  destruct (String.eqb id' id) eqn:E.
  - apply String.eqb_eq in E. subst id'.
    destruct (lookup m id) as [e0|] eqn:F.
    + rewrite (lookup_set_active_same _ m id e0 active F).
      intros [= <-]. exists e0. repeat split.
    + intros H. exfalso. revert F H. clear.
      induction m as [|[k e1] t IH]; [discriminate|].
      cbn [lookup set_active]. destruct (String.eqb k id) eqn:G;
        [discriminate|].
      cbn [lookup]. rewrite G. exact IH.
  - apply String.eqb_neq in E.
    rewrite lookup_set_active_other by exact E.
    intros H. exists e. repeat split. exact H.
Qed.

Section Invariant.

(** What holds of the callback and the text of every entry. *)
Variable P : C -> string -> Prop.

Lemma call_keeps hm c ev o :
  locked hm = false ->
  (forall id e, lookup (hotkeys hm) id = Some e ->
                P (Callback e) (Hotkey e)) ->
  (forall hk cb now, c = CallRegister hk cb now true ->
                     snd (parseHotkey hk) <> "" -> P cb hk) ->
  call hm c = (ev, o) ->
  (forall cb hk, In (GoCallback cb hk) ev -> P cb hk)
  /\ match o with
     | Done hm' _ =>
         locked hm' = false
         /\ forall id e, lookup (hotkeys hm') id = Some e ->
                         P (Callback e) (Hotkey e)
     | Blocked => False
     | Panic _ => c = CallStop
     end.
Proof.
  intros L I R. destruct c as [hk cb now ok|id ok|id active| | | |id];
    cbn [call].
  - rewrite (Register_cases _ hm hk cb now ok L).
    destruct (String.eqb (snd (parseHotkey hk)) "") eqn:K.
    + intros [= <- <-]. cbn [forget]. split; [intros ? ? []|]. auto.
    + apply String.eqb_neq in K. destruct ok.
      * intros [= <- <-]. cbn [forget]. split.
        { intros cb' hk' [H|[]]. discriminate. }
        split; [exact L|]. cbn [hotkeys with_hotkeys]. intros id e F.
        apply lookup_store_Some in F. destruct F as [->|F]; [|eauto].
        cbn [Callback Hotkey]. eapply R; [reflexivity|exact K].
      * intros [= <- <-]. cbn [forget]. split.
        { intros cb' hk' [H|[]]. discriminate. }
        auto.
  - rewrite (Unregister_cases _ hm id ok L).
    destruct (lookup (hotkeys hm) id) as [e0|] eqn:F0.
    + intros [= <- <-]. cbn [forget]. split.
      { intros cb' hk' [H|[]]. discriminate. }
      split; [exact L|]. cbn [hotkeys with_hotkeys]. intros id' e F.
      apply lookup_delete_Some in F. eauto.
    + intros [= <- <-]. cbn [forget]. split; [intros ? ? []|]. auto.
  - rewrite (SetActive_cases _ hm id active L).
    destruct (lookup (hotkeys hm) id) as [e0|] eqn:F0.
    + intros [= <- <-]. cbn [forget]. split; [intros ? ? []|].
      split; [exact L|]. cbn [hotkeys with_hotkeys]. intros id' e F.
      apply lookup_set_active_Some in F.
      destruct F as (e1 & F & -> & ->). eauto.
    + intros [= <- <-]. cbn [forget]. split; [intros ? ? []|]. auto.
  - unfold StartListening. destruct (listening hm).
    + intros [= <- <-]. cbn [forget]. split; [intros ? ? []|]. auto.
    + intros [= <- <-]. cbn [forget]. split.
      { intros cb' hk' [H|[]]. discriminate. }
      split; [exact L|exact I].
  - unfold StopListening. destruct (listening hm); cbn [negb].
    + cbn [stopChan_closed with_listening]. destruct (stopChan_closed hm).
      * intros [= <- <-]. split; [intros ? ? []|reflexivity].
      * intros [= <- <-]. split; [intros ? ? []|].
        split; [exact L|exact I].
    + intros [= <- <-]. split; [intros ? ? []|]. auto.
  - unfold GetRegisteredHotkeys. rewrite L.
    intros [= <- <-]. cbn [forget]. split; [intros ? ? []|]. auto.
  - rewrite (handle_lookup _ hm id L).
    intros [= <- <-]. split; [|auto].
    destruct (lookup (hotkeys hm) id) as [e0|] eqn:F0; [|intros ? ? []].
    destruct (Active e0); [|intros ? ? []].
    intros cb' hk' [[= <- <-]|[]]. eauto.
Qed.

Lemma run_keeps calls :
  forall hm,
  locked hm = false ->
  (forall id e, lookup (hotkeys hm) id = Some e ->
                P (Callback e) (Hotkey e)) ->
  (forall hk cb now, In (CallRegister hk cb now true) calls ->
                     snd (parseHotkey hk) <> "" -> P cb hk) ->
  (forall cb hk, In (GoCallback cb hk) (fst (run hm calls)) -> P cb hk)
  /\ snd (run hm calls) <> Blocked
  /\ (forall msg, snd (run hm calls) = Panic msg -> In CallStop calls).
Proof.
  induction calls as [|c rest IH]; intros hm L I R.
  - cbn. repeat split; [intros ? ? []|discriminate|discriminate].
  - cbn [run]. destruct (call hm c) as [ev o] eqn:E.
    destruct (call_keeps hm c ev o L I) as [A B]; [|exact E|].
    { intros hk cb now ->. apply (R hk cb now). left. reflexivity. }
    destruct o as [hm' r| |msg].
    + destruct B as [L' I'].
      destruct (IH hm' L' I') as (A' & B' & D').
      { intros hk cb now H. apply (R hk cb now). right. exact H. }
      destruct (run hm' rest) as [ev' o']. cbn [fst snd] in *.
      split; [|split].
      * intros cb hk H. apply in_app_or in H. destruct H; eauto.
      * exact B'.
      * intros msg H. right. eauto.
    + destruct B.
    + cbn [fst snd]. split; [exact A|]. split; [discriminate|].
      intros _ _. left. exact B.
Qed.

End Invariant.

(** X27: whatever calls other than [Close] are made on a new manager, one
    after the other, none of them waits for the mutex, a panic can come from
    [StopListening] only, and every callback that is started was registered,
    with the very hotkey text it is called on, by a [RegisterHotkey] in the
    sequence whose command succeeded and whose text has a key. *)
Theorem callbacks_are_registered signature mkfifo_ok ev0 hm0 calls :
  NewHyprlandHotkeyManager C signature mkfifo_ok = (ev0, (Some hm0, None)) ->
  snd (run hm0 calls) <> Blocked
  /\ (forall msg, snd (run hm0 calls) = Panic msg -> In CallStop calls)
  /\ forall cb hk,
       In (GoCallback cb hk) (fst (run hm0 calls)) ->
       snd (parseHotkey hk) <> ""
       /\ exists now, In (CallRegister hk cb now true) calls.
Proof.
  intros N. unfold NewHyprlandHotkeyManager in N.
  destruct (String.eqb signature ""); [discriminate|].
  destruct mkfifo_ok; [|discriminate]. injection N as _ <-.
  destruct (run_keeps
              (fun cb hk => snd (parseHotkey hk) <> ""
                            /\ exists now,
                                 In (CallRegister hk cb now true) calls)
              calls
              (mkManager "/tmp/hyprland_hotkey_pipe" [] false false false
                         signature))
    as (A & B & D).
  - reflexivity.
  - intros id e. discriminate.
  - intros hk cb now H K. split; [exact K|]. exists now. exact H.
  - split; [exact B|]. split; [exact D|exact A].
Qed.

End Runs.

Section RunsWitnesses.

Import hotkey.

Lemma callbacks_are_registered_witness :
  fst (run sample_fresh sample_calls)
  = [Hyprctl ["keyword"; "bind";
              "CTRL, a, exec, echo 'hotkey_CTRL_A_5' > /tmp/hyprland_hotkey_pipe"];
     GoListener;
     GoCallback 1%nat "CTRL+A";
     Hyprctl ["keyword"; "unbind"; "CTRL, a"]]
  /\ snd (parseHotkey "CTRL+A") <> ""
  /\ exists now, In (CallRegister "CTRL+A" 1%nat now true) sample_calls.
Proof.
  split; [reflexivity|].
  apply (proj2 (proj2 (callbacks_are_registered nat "sig" true _ sample_fresh
                         sample_calls eq_refl))).
  vm_compute. right. right. left. reflexivity.
Defined.

End RunsWitnesses.
